(** * Capture sequencing of the photobooth camera page

    A shallow embedding of [CameraPage] (the multi-photo version of
    [pages/CameraPage.tsx]): the React state of the component, the
    handlers [takePicture], [captureMultiplePhotos], [capturePhoto],
    [retakePhoto] and [downloadPhoto], and the event loop that runs them.
    The webcam set-up ([getUserMedia], the [stream] cell), the navigation
    ([goBack]) and the markup other than what enables or disables a
    control are left out.

    Conventions of the embedding.
    - A handler is a computation in the monad [M]: it threads the system
      state [Sys] and returns the list of effects it performed (setter
      calls, calls of [takePicture], downloads), oldest first.
    - One [step] of the system is one task of the JavaScript event loop.
      The continuation of an [await] runs as a microtask, that is inside
      the task that resolved the promise, so the interval callback that
      resolves the countdown promise and the code after the [await] are
      one step.
    - A handler closes over the bindings of the render that created it
      ([Closure]); the refs are mutable cells read at call time. What the
      refs hold when [takePicture] is called for the k-th time is given by
      the oracle [refsAt k]; the serialisation of the canvas is the
      parameter [toDataURL]. *)

From Stdlib Require Import ZArith List String Ascii Bool Lia.
Import ListNotations.
Open Scope Z_scope.

(** ** JavaScript values *)

(** A JS number as the page uses it: an integer or NaN. *)
Inductive number : Type :=
| NaN
| Num (z : Z).

Definition digitOf (c : ascii) : option Z :=
  let n := Z.of_nat (nat_of_ascii c) in
  if (48 <=? n) && (n <=? 57) then Some (n - 48) else None.

Fixpoint parseDigits (s : string) (acc : option Z) : option Z :=
  match s with
  | EmptyString => acc
  | String c rest =>
      match digitOf c with
      | Some d =>
          parseDigits rest
            (Some (10 * (match acc with Some a => a | None => 0 end) + d))
      | None => acc
      end
  end.

(** [parseInt] on the strings the page passes to it: the longest prefix of
    decimal digits, NaN when there is none. *)
Definition parseInt (s : string) : number :=
  match parseDigits s None with
  | Some z => Num z
  | None => NaN
  end.

(** [remaining--] *)
Definition decr (n : number) : number :=
  match n with
  | NaN => NaN
  | Num z => Num (z - 1)
  end.

(** [remaining <= 0] *)
Definition leZero (n : number) : bool :=
  match n with
  | NaN => false
  | Num z => z <=? 0
  end.

(** The number of iterations that [for (...; i < count; i++)] still makes
    when the test is reached with the given [i]. *)
Definition iterationsLeft (count : number) (i : Z) : nat :=
  match count with
  | NaN => 0%nat
  | Num c => Z.to_nat (c - i)
  end.

(** Truthiness of the value [takePicture] returns: [undefined] and the
    empty string are falsy. *)
Definition truthy (image : option string) : bool :=
  match image with
  | Some s => negb (String.eqb s EmptyString)
  | None => false
  end.

(** Decimal rendering of a number inside a template literal. *)
Definition digitChar (d : Z) : ascii := ascii_of_nat (Z.to_nat (48 + d)).

Fixpoint natDigits (fuel : nat) (n : Z) (acc : string) : string :=
  match fuel with
  | O => acc
  | S fuel' =>
      let acc' := String (digitChar (n mod 10)) acc in
      if n <? 10 then acc' else natDigits fuel' (n / 10) acc'
  end.

Definition showZ (n : Z) : string :=
  if n <? 0
  then String "-" (natDigits (S (Z.to_nat (Z.log2 (- n)))) (- n) EmptyString)
  else natDigits (S (Z.to_nat (Z.log2 n))) n EmptyString.

(** ** The selectors *)

Inductive FilterType : Type :=
| FilterNone | FilterGrayscale | FilterSepia | FilterInvert | FilterBlur
| FilterContrast.

Inductive TimerType : Type :=
| TimerOff | Timer3 | Timer5 | Timer10.

Inductive PhotoCountType : Type :=
| Photos1 | Photos2 | Photos3 | Photos4.

Definition filterValue (f : FilterType) : string :=
  match f with
  | FilterNone => "none"
  | FilterGrayscale => "grayscale(100%)"
  | FilterSepia => "sepia(100%)"
  | FilterInvert => "invert(100%)"
  | FilterBlur => "blur(3px)"
  | FilterContrast => "contrast(200%)"
  end.

Definition timerValue (t : TimerType) : string :=
  match t with
  | TimerOff => "off"
  | Timer3 => "3"
  | Timer5 => "5"
  | Timer10 => "10"
  end.

Definition photoCountValue (p : PhotoCountType) : string :=
  match p with
  | Photos1 => "1"
  | Photos2 => "2"
  | Photos3 => "3"
  | Photos4 => "4"
  end.

(** [timer !== 'off'] *)
Definition timerOn (t : TimerType) : bool :=
  negb (String.eqb (timerValue t) "off").

(** ** Component state *)

(** The [useState] cells of [CameraPage] that the sequencing reads or
    writes ([stream] belongs to the webcam set-up and is left out). *)
Record State : Type := mkState {
  filter : FilterType;
  timer : TimerType;
  photoCount : PhotoCountType;
  countdown : option number;
  capturedImages : list string;
  currentPhotoIndex : Z;
  isCapturing : bool;
  showFlash : bool
}.

Definition initialState : State :=
  {| filter := FilterNone; timer := TimerOff; photoCount := Photos1;
     countdown := None; capturedImages := []; currentPhotoIndex := 0;
     isCapturing := false; showFlash := false |}.

(** The bindings a handler closes over: those of the render that created
    it. *)
Record Closure : Type := mkClosure {
  c_filter : FilterType;
  c_timer : TimerType;
  c_photoCount : PhotoCountType;
  c_capturedImages : list string
}.

Definition render (s : State) : Closure :=
  {| c_filter := filter s; c_timer := timer s;
     c_photoCount := photoCount s; c_capturedImages := capturedImages s |}.

(** ** The frame-grabbing surface *)

Record HTMLVideoElement : Type := mkVideo {
  videoWidth : Z;
  videoHeight : Z;
  currentFrame : string
}.

(** [context2d] tells whether [getContext('2d')] yields a context. *)
Record HTMLCanvasElement : Type := mkCanvas {
  context2d : bool
}.

Record Refs : Type := mkRefs {
  videoRef : option HTMLVideoElement;
  canvasRef : option HTMLCanvasElement
}.

(** What the canvas holds when [toDataURL] is called. *)
Record Drawing : Type := mkDrawing {
  width : Z;
  height : Z;
  contextFilter : string;
  drawn : string
}.

(** ** A suspended run *)

(** [captureMultiplePhotos] suspended at its [await], with the interval of
    the countdown live: the bindings it closes over, its parameter, its
    locals and the [remaining] of the interval callback. *)
Record Run : Type := mkRun {
  run_env : Closure;
  run_count : number;
  run_i : Z;
  run_images : list string;
  run_remaining : number
}.

Record Sys : Type := mkSys {
  state : State;
  runs : list Run;
  shots : nat;
  flashTimers : nat
}.

Definition initialSys : Sys :=
  {| state := initialState; runs := []; shots := 0; flashTimers := 0 |}.

(** What a handler does to the outside: the calls of the state setters,
    the calls of [takePicture] with what they returned, and the downloads
    ([link.href], [link.download], [link.click()]). *)
Inductive Effect : Type :=
| SetFilter (v : FilterType)
| SetTimer (v : TimerType)
| SetPhotoCount (v : PhotoCountType)
| SetCountdown (v : option number)
| SetCapturedImages (v : list string)
| SetCurrentPhotoIndex (v : Z)
| SetIsCapturing (v : bool)
| SetShowFlash (v : bool)
| TakePicture (shot : nat) (result : option string)
| Download (href download : string).

(** The state after an effect: a setter replaces its cell. *)
Definition apply (e : Effect) (s : State) : State :=
  match e with
  | SetFilter v =>
      mkState v (timer s) (photoCount s) (countdown s) (capturedImages s)
        (currentPhotoIndex s) (isCapturing s) (showFlash s)
  | SetTimer v =>
      mkState (filter s) v (photoCount s) (countdown s) (capturedImages s)
        (currentPhotoIndex s) (isCapturing s) (showFlash s)
  | SetPhotoCount v =>
      mkState (filter s) (timer s) v (countdown s) (capturedImages s)
        (currentPhotoIndex s) (isCapturing s) (showFlash s)
  | SetCountdown v =>
      mkState (filter s) (timer s) (photoCount s) v (capturedImages s)
        (currentPhotoIndex s) (isCapturing s) (showFlash s)
  | SetCapturedImages v =>
      mkState (filter s) (timer s) (photoCount s) (countdown s) v
        (currentPhotoIndex s) (isCapturing s) (showFlash s)
  | SetCurrentPhotoIndex v =>
      mkState (filter s) (timer s) (photoCount s) (countdown s)
        (capturedImages s) v (isCapturing s) (showFlash s)
  | SetIsCapturing v =>
      mkState (filter s) (timer s) (photoCount s) (countdown s)
        (capturedImages s) (currentPhotoIndex s) v (showFlash s)
  | SetShowFlash v =>
      mkState (filter s) (timer s) (photoCount s) (countdown s)
        (capturedImages s) (currentPhotoIndex s) (isCapturing s) v
  | TakePicture _ _ | Download _ _ => s
  end.

(** The state after a trace of effects, oldest first. *)
Definition replay (l : list Effect) (s : State) : State :=
  fold_left (fun acc e => apply e acc) l s.

(** ** The monad of handlers *)

Definition M (A : Type) : Type := Sys -> A * Sys * list Effect.

Definition ret {A : Type} (a : A) : M A := fun w => (a, w, []).

Definition bind {A B : Type} (m : M A) (f : A -> M B) : M B :=
  fun w =>
    match m w with
    | (a, w1, l1) =>
        match f a w1 with
        | (b, w2, l2) => (b, w2, l1 ++ l2)
        end
    end.

Declare Scope handler_scope.
Delimit Scope handler_scope with handler.
Notation "x <- m ;; k" := (bind m (fun x => k))
  (at level 61, m at next level, right associativity) : handler_scope.
Notation "m ;; k" := (bind m (fun _ => k))
  (at level 61, right associativity) : handler_scope.
Open Scope handler_scope.

Definition withState (f : State -> State) (w : Sys) : Sys :=
  {| state := f (state w); runs := runs w; shots := shots w;
     flashTimers := flashTimers w |}.

Definition perform (e : Effect) : M unit :=
  fun w => (tt, withState (apply e) w, [e]).

Definition setFilter (v : FilterType) : M unit := perform (SetFilter v).
Definition setTimer (v : TimerType) : M unit := perform (SetTimer v).
Definition setPhotoCount (v : PhotoCountType) : M unit :=
  perform (SetPhotoCount v).
Definition setCountdown (v : option number) : M unit :=
  perform (SetCountdown v).
Definition setCapturedImages (v : list string) : M unit :=
  perform (SetCapturedImages v).
Definition setCurrentPhotoIndex (v : Z) : M unit :=
  perform (SetCurrentPhotoIndex v).
Definition setIsCapturing (v : bool) : M unit := perform (SetIsCapturing v).
Definition setShowFlash (v : bool) : M unit := perform (SetShowFlash v).

(** [setTimeout(() => setShowFlash(false), 200)] *)
Definition scheduleFlashOff : M unit :=
  fun w =>
    (tt,
     {| state := state w; runs := runs w; shots := shots w;
        flashTimers := S (flashTimers w) |},
     []).

(** Reading the refs: the k-th call of [takePicture] sees [refsAt k]. *)
Definition readRefs (refsAt : nat -> Refs) : M (nat * Refs) :=
  fun w =>
    ((shots w, refsAt (shots w)),
     {| state := state w; runs := runs w; shots := S (shots w);
        flashTimers := flashTimers w |},
     []).

Definition addRun (r : Run) : M unit :=
  fun w =>
    (tt,
     {| state := state w; runs := runs w ++ [r]; shots := shots w;
        flashTimers := flashTimers w |},
     []).

(** ** The dropdown widget ([components/CustomSelect.tsx]) *)

Module CustomSelect.

(** An entry of [options]. *)
Record Entry : Type := mkEntry {
  value : string;
  label : string
}.

(** The props other than [onChange], whose calls are what [handle]
    returns. *)
Record Props : Type := mkProps {
  selected : string;            (* value *)
  options : list Entry;
  disabled : bool;
  caption : string              (* label *)
}.

(** [options.find(opt => opt.value === value)] *)
Definition selectedOption (p : Props) : option Entry :=
  List.find (fun opt => String.eqb (value opt) (selected p)) (options p).

(** [selectedOption?.label], the text of the button. *)
Definition buttonText (p : Props) : option string :=
  option_map label (selectedOption p).

(** [isOpen && !disabled]: whether the list of options is rendered. *)
Definition listShown (p : Props) (isOpen : bool) : bool :=
  isOpen && negb (disabled p).

(** What the user can do to the widget: click the button, click the n-th
    entry of the list, press the mouse inside or outside the widget. *)
Inductive Action : Type :=
| ClickButton
| ClickEntry (n : nat)
| MouseDown (inside : bool).

(** One action under the props of the current render: the new [isOpen]
    and the values given to [onChange]. *)
Definition handle (p : Props) (isOpen : bool) (a : Action)
  : bool * list string :=
  match a with
  | ClickButton =>
      (* onClick={() => !disabled && setIsOpen(!isOpen)} *)
      if disabled p then (isOpen, []) else (negb isOpen, [])
  | ClickEntry n =>
      if listShown p isOpen then
        match nth_error (options p) n with
        | Some opt =>
            (* handleSelect(option.value) *)
            (false, [value opt])
        | None => (isOpen, [])
        end
      else (isOpen, [])
  | MouseDown inside =>
      (* handleClickOutside *)
      if inside then (isOpen, []) else (false, [])
  end.

(** A sequence of actions, each under the props of its render. *)
Fixpoint run (l : list (Props * Action)) (isOpen : bool)
  : bool * list string :=
  match l with
  | [] => (isOpen, [])
  | (p, a) :: rest =>
      let '(isOpen1, out1) := handle p isOpen a in
      let '(isOpen2, out2) := run rest isOpen1 in
      (isOpen2, out1 ++ out2)
  end.

End CustomSelect.

(** The three selects of the camera page. *)
Definition filterOptions : list CustomSelect.Entry :=
  [CustomSelect.mkEntry "none" "None";
   CustomSelect.mkEntry "grayscale(100%)" "Grayscale";
   CustomSelect.mkEntry "sepia(100%)" "Sepia";
   CustomSelect.mkEntry "invert(100%)" "Invert";
   CustomSelect.mkEntry "blur(3px)" "Blur";
   CustomSelect.mkEntry "contrast(200%)" "High Contrast"].

Definition timerOptions : list CustomSelect.Entry :=
  [CustomSelect.mkEntry "off" "Off";
   CustomSelect.mkEntry "3" "3 sec";
   CustomSelect.mkEntry "5" "5 sec";
   CustomSelect.mkEntry "10" "10 sec"].

Definition photoCountOptions : list CustomSelect.Entry :=
  [CustomSelect.mkEntry "1" "1";
   CustomSelect.mkEntry "2" "2";
   CustomSelect.mkEntry "3" "3";
   CustomSelect.mkEntry "4" "4"].

Definition filterSelect (s : State) : CustomSelect.Props :=
  {| CustomSelect.selected := filterValue (filter s);
     CustomSelect.options := filterOptions;
     CustomSelect.disabled := false;
     CustomSelect.caption := "Choose Filter" |}.

Definition timerSelect (s : State) : CustomSelect.Props :=
  {| CustomSelect.selected := timerValue (timer s);
     CustomSelect.options := timerOptions;
     CustomSelect.disabled := isCapturing s;
     CustomSelect.caption := "Timer" |}.

Definition photoCountSelect (s : State) : CustomSelect.Props :=
  {| CustomSelect.selected := photoCountValue (photoCount s);
     CustomSelect.options := photoCountOptions;
     CustomSelect.disabled := isCapturing s;
     CustomSelect.caption := "Photo Count" |}.

(** The options [opts] are the values of the type [A], each once. *)
Definition Offers {A : Type} (toValue : A -> string)
    (opts : list CustomSelect.Entry) : Prop :=
  NoDup (map CustomSelect.value opts)
  /\ (forall a, exists n opt,
        nth_error opts n = Some opt /\ CustomSelect.value opt = toValue a)
  /\ (forall opt, In opt opts -> exists a, CustomSelect.value opt = toValue a).

(** ** The single-photo camera page ([pages/CameraPage.tsx]) *)

Module SinglePhoto.

(** The cells of the page ([stream] left out as before), the pending
    intervals (each with the [filter] that its [takePicture] closes over),
    the number of calls of [takePicture] so far and the pending flash
    timeouts. *)
Record Page : Type := mkPage {
  filter : FilterType;
  timer : TimerType;
  countdown : option number;
  capturedImage : option string;
  showFlash : bool;
  intervals : list FilterType;
  shots : nat;
  flashTimers : nat
}.

Definition initialPage : Page :=
  {| filter := FilterNone; timer := TimerOff; countdown := None;
     capturedImage := None; showFlash := false; intervals := [];
     shots := 0; flashTimers := 0 |}.

(** [prev <= 1] *)
Definition leOne (n : number) : bool :=
  match n with
  | NaN => false
  | Num z => z <=? 1
  end.

(** [!capturedImage] is false: the image is shown. *)
Definition shown (w : Page) : bool := truthy (capturedImage w).

Inductive Event : Type :=
| ClickCapture
| ClickRetake
| SelectFilter (v : FilterType)
| SelectTimer (v : TimerType)
| IntervalTick (n : nat)
| FlashTimeout.

Section Handlers.

Variable toDataURL : Drawing -> string.
Variable refsAt : nat -> Refs.

(** [takePicture] of a render whose filter is [f]. *)
Definition takePicture (f : FilterType) (w : Page) : Page :=
  match videoRef (refsAt (shots w)), canvasRef (refsAt (shots w)) with
  | Some video, Some canvas =>
      if context2d canvas then
        {| filter := filter w; timer := timer w;
           countdown := None;                      (* setCountdown(null) *)
           capturedImage :=
             Some (toDataURL
                     {| width := videoWidth video;
                        height := videoHeight video;
                        contextFilter := filterValue f;
                        drawn := currentFrame video |});
           showFlash := true;
           intervals := intervals w; shots := S (shots w);
           flashTimers := S (flashTimers w) |}
      else
        mkPage (filter w) (timer w) (countdown w) (capturedImage w)
          (showFlash w) (intervals w) (S (shots w)) (flashTimers w)
  | _, _ =>
      mkPage (filter w) (timer w) (countdown w) (capturedImage w)
        (showFlash w) (intervals w) (S (shots w)) (flashTimers w)
  end.

(** [capturePhoto] of the current render. *)
Definition capturePhoto (w : Page) : Page :=
  if negb (timerOn (timer w)) then takePicture (filter w) w
  else
    let seconds := parseInt (timerValue (timer w)) in
    mkPage (filter w) (timer w) (Some seconds) (capturedImage w)
      (showFlash w) (intervals w ++ [filter w]) (shots w) (flashTimers w).

Definition removeAt (n : nat) (l : list FilterType) : list FilterType :=
  firstn n l ++ skipn (S n) l.

(** The callback of the n-th pending interval:
    [setCountdown(prev => ...)] with [prev] the cell. *)
Definition intervalCallback (n : nat) (w : Page) : Page :=
  match nth_error (intervals w) n with
  | None => w
  | Some f =>
      if match countdown w with
         | None => true
         | Some prev => leOne prev
         end
      then
        (* clearInterval(interval); takePicture(); return null *)
        let w1 := takePicture f
                    (mkPage (filter w) (timer w) (countdown w)
                       (capturedImage w) (showFlash w)
                       (removeAt n (intervals w)) (shots w)
                       (flashTimers w)) in
        mkPage (filter w1) (timer w1) None (capturedImage w1)
          (showFlash w1) (intervals w1) (shots w1) (flashTimers w1)
      else
        (* return prev - 1 *)
        mkPage (filter w) (timer w) (option_map decr (countdown w))
          (capturedImage w) (showFlash w) (intervals w) (shots w)
          (flashTimers w)
  end.

(** What the rendered page lets through: the capture button and the
    selects are rendered while no image is shown; the capture button and
    the timer select are disabled while [countdown !== null]. *)
Definition enabled (w : Page) (e : Event) : bool :=
  match e with
  | ClickCapture | SelectTimer _ =>
      negb (shown w)
      && match countdown w with None => true | Some _ => false end
  | SelectFilter _ => negb (shown w)
  | ClickRetake => shown w
  | IntervalTick _ | FlashTimeout => true
  end.

Definition invoke (e : Event) (w : Page) : Page :=
  match e with
  | ClickCapture => capturePhoto w
  | ClickRetake =>
      mkPage (filter w) (timer w) (countdown w) None (showFlash w)
        (intervals w) (shots w) (flashTimers w)
  | SelectFilter v =>
      mkPage v (timer w) (countdown w) (capturedImage w) (showFlash w)
        (intervals w) (shots w) (flashTimers w)
  | SelectTimer v =>
      mkPage (filter w) v (countdown w) (capturedImage w) (showFlash w)
        (intervals w) (shots w) (flashTimers w)
  | IntervalTick n => intervalCallback n w
  | FlashTimeout =>
      match flashTimers w with
      | O => w
      | S n =>
          mkPage (filter w) (timer w) (countdown w) (capturedImage w) false
            (intervals w) (shots w) n
      end
  end.

Definition step (e : Event) (w : Page) : Page :=
  if enabled w e then invoke e w else w.

Fixpoint exec (evs : list Event) (w : Page) : Page :=
  match evs with
  | [] => w
  | e :: rest => exec rest (step e w)
  end.

(** The value of the k-th call of [takePicture] under filter [f]. *)
Definition snapshot (k : nat) (f : FilterType) : option string :=
  match videoRef (refsAt k), canvasRef (refsAt k) with
  | Some video, Some canvas =>
      if context2d canvas then
        Some (toDataURL
                {| width := videoWidth video; height := videoHeight video;
                   contextFilter := filterValue f;
                   drawn := currentFrame video |})
      else None
  | _, _ => None
  end.

(** What every reachable page keeps. *)
Definition Inv (w : Page) : Prop :=
  match intervals w with
  | [] => countdown w = None
  | [_] =>
      timerOn (timer w) = true
      /\ shown w = false
      /\ exists m sec,
          parseInt (timerValue (timer w)) = Num sec
          /\ countdown w = Some (Num m) /\ 1 <= m <= sec
  | _ :: _ :: _ => False
  end.

End Handlers.

End SinglePhoto.

(** ** Sample surroundings for the examples *)

Definition sampleDataURL (d : Drawing) : string :=
  "data:image/png;" ++ contextFilter d ++ ";" ++ drawn d.

Definition sampleVideo (k : nat) : HTMLVideoElement :=
  {| videoWidth := 1280; videoHeight := 720;
     currentFrame := "frame" ++ showZ (Z.of_nat k) |}.

(** Both refs set and a 2d context at every call. *)
Definition steadyRefs (k : nat) : Refs :=
  {| videoRef := Some (sampleVideo k);
     canvasRef := Some {| context2d := true |} |}.

(** The canvas ref is empty at the second call (call 1). *)
Definition canvasLostAtSecond (k : nat) : Refs :=
  if (k =? 1)%nat
  then {| videoRef := Some (sampleVideo k); canvasRef := None |}
  else steadyRefs k.

(** Both refs set and no 2d context at any call: [getContext('2d')]
    returns null on this canvas. *)
Definition noContext (k : nat) : Refs :=
  {| videoRef := Some (sampleVideo k);
     canvasRef := Some {| context2d := false |} |}.

Definition sampleClock (k : nat) : Z := 1700000000000 + Z.of_nat k.

(** ** The handlers of [CameraPage] *)

Section Page.

(** [canvas.toDataURL('image/png')] *)
Variable toDataURL : Drawing -> string.

(** The refs at the k-th call of [takePicture]. *)
Variable refsAt : nat -> Refs.

Definition takePicture (k : Closure) : M (option string) :=
  seen <- readRefs refsAt ;;
  imageData <-
    match videoRef (snd seen), canvasRef (snd seen) with
    | Some video, Some canvas =>
        if context2d canvas then
          setShowFlash true ;;
          scheduleFlashOff ;;
          ret (Some (toDataURL
                       {| width := videoWidth video;
                          height := videoHeight video;
                          contextFilter := filterValue (c_filter k);
                          drawn := currentFrame video |}))
        else ret None
    | _, _ => ret None
    end ;;
  perform (TakePicture (fst seen) imageData) ;;
  ret imageData.

(** [const image = takePicture(); if (image) images.push(image);] *)
Definition takeAndPush (k : Closure) (images : list string)
  : M (list string) :=
  image <- takePicture k ;;
  ret (if truthy image
       then match image with
            | Some s => images ++ [s]
            | None => images
            end
       else images).

(** The statements after the loop. *)
Definition finishRun (images : list string) : M (option Run) :=
  setCapturedImages images ;;
  setIsCapturing false ;;
  setCurrentPhotoIndex 0 ;;
  setCountdown None ;;
  ret None.

(** The loop of [captureMultiplePhotos] from its test, with [todo]
    iterations to go, up to the next [await] ([Some] of the suspended
    run) or to the end of the function ([None]). *)
Fixpoint loopFrom (todo : nat) (k : Closure) (count : number) (i : Z)
    (images : list string) : M (option Run) :=
  match todo with
  | O => finishRun images
  | S todo' =>
      setCurrentPhotoIndex (i + 1) ;;
      if timerOn (c_timer k) then
        let seconds := parseInt (timerValue (c_timer k)) in
        setCountdown (Some seconds) ;;
        ret (Some {| run_env := k; run_count := count; run_i := i;
                     run_images := images; run_remaining := seconds |})
      else
        images' <- takeAndPush k images ;;
        loopFrom todo' k count (i + 1) images'
  end.

Definition captureMultiplePhotos (k : Closure) (count : number)
  : M (option Run) :=
  loopFrom (iterationsLeft count 0) k count 0 [].

(** The rest of the iteration after [await], then the loop again. *)
Definition resumeAfterCountdown (r : Run) : M (option Run) :=
  images' <- takeAndPush (run_env r) (run_images r) ;;
  loopFrom (iterationsLeft (run_count r) (run_i r + 1))
    (run_env r) (run_count r) (run_i r + 1) images'.

(** The callback of [setInterval]; when it resolves the promise the
    continuation of the [await] runs in the same task. *)
Definition intervalCallback (r : Run) : M (option Run) :=
  let remaining := decr (run_remaining r) in
  setCountdown (Some remaining) ;;
  if leZero remaining then
    setCountdown None ;;
    resumeAfterCountdown r
  else
    ret (Some {| run_env := run_env r; run_count := run_count r;
                 run_i := run_i r; run_images := run_images r;
                 run_remaining := remaining |}).

Definition replaceAt (n : nat) (o : option Run) (l : list Run) : list Run :=
  firstn n l ++ match o with Some r => [r] | None => [] end
    ++ skipn (S n) l.

(** The interval of the n-th suspended run fires. *)
Definition fireInterval (n : nat) : M unit :=
  fun w =>
    match nth_error (runs w) n with
    | None => (tt, w, [])
    | Some r =>
        match intervalCallback r w with
        | (o, w', l) =>
            (tt,
             {| state := state w'; runs := replaceAt n o (runs w');
                shots := shots w'; flashTimers := flashTimers w' |},
             l)
        end
    end.

Definition capturePhoto (k : Closure) : M unit :=
  let count := parseInt (photoCountValue (c_photoCount k)) in
  setIsCapturing true ;;
  o <- captureMultiplePhotos k count ;;
  match o with
  | Some r => addRun r
  | None => ret tt
  end.

Definition retakePhoto : M unit :=
  setCapturedImages [] ;;
  setCurrentPhotoIndex 0.

Definition fileName (timestamp index : Z) : string :=
  "vintage-photo-" ++ showZ timestamp ++ "-" ++ showZ index ++ ".png".

(** [capturedImages.forEach((image, index) => ...)]; [now index] is what
    [Date.now()] returns in the callback for [index]. *)
Fixpoint forEachImage (now : nat -> Z) (index : nat) (l : list string)
  : M unit :=
  match l with
  | [] => ret tt
  | image :: rest =>
      perform (Download image (fileName (now index) (Z.of_nat index + 1))) ;;
      forEachImage now (S index) rest
  end.

Definition downloadPhoto (k : Closure) (now : nat -> Z) : M unit :=
  if (List.length (c_capturedImages k) =? 0)%nat then ret tt
  else forEachImage now 0 (c_capturedImages k).

(** The timeout of the flash fires. *)
Definition flashOff : M unit :=
  fun w =>
    match flashTimers w with
    | O => (tt, w, [])
    | S n =>
        setShowFlash false
          {| state := state w; runs := runs w; shots := shots w;
             flashTimers := n |}
    end.

(** ** Events *)

Inductive Event : Type :=
| ClickCapture
| ClickRetake
| ClickDownload (now : nat -> Z)
| SelectFilter (v : FilterType)
| SelectTimer (v : TimerType)
| SelectPhotoCount (v : PhotoCountType)
| IntervalTick (n : nat)
| FlashTimeout.

(** The handler an event runs; the handlers are those of the current
    render. *)
Definition invoke (e : Event) : M unit :=
  fun w =>
    match e with
    | ClickCapture => capturePhoto (render (state w)) w
    | ClickRetake => retakePhoto w
    | ClickDownload now => downloadPhoto (render (state w)) now w
    | SelectFilter v => setFilter v w
    | SelectTimer v => setTimer v w
    | SelectPhotoCount v => setPhotoCount v w
    | IntervalTick n => fireInterval n w
    | FlashTimeout => flashOff w
    end.

(** What the rendered page lets through: the capture button and the
    selectors are rendered while [capturedImages] is empty, retake and
    download otherwise; the capture button and the timer and count
    selectors are disabled while [isCapturing]. *)
Definition enabled (s : State) (e : Event) : bool :=
  match e with
  | ClickCapture =>
      (List.length (capturedImages s) =? 0)%nat && negb (isCapturing s)
  | ClickRetake | ClickDownload _ =>
      negb (List.length (capturedImages s) =? 0)%nat
  | SelectFilter _ => (List.length (capturedImages s) =? 0)%nat
  | SelectTimer _ | SelectPhotoCount _ =>
      (List.length (capturedImages s) =? 0)%nat && negb (isCapturing s)
  | IntervalTick _ | FlashTimeout => true
  end.

(** One task of the event loop. *)
Definition step (e : Event) : M unit :=
  fun w => if enabled (state w) e then invoke e w else (tt, w, []).

Fixpoint exec (evs : list Event) : M unit :=
  match evs with
  | [] => ret tt
  | e :: rest => step e ;; exec rest
  end.

(** The handlers called directly, whatever the page renders. *)
Fixpoint invokeAll (evs : list Event) : M unit :=
  match evs with
  | [] => ret tt
  | e :: rest => invoke e ;; invokeAll rest
  end.

Definition sysOf (r : unit * Sys * list Effect) : Sys := snd (fst r).
Definition traceOf (r : unit * Sys * list Effect) : list Effect := snd r.

(** ** What a call of [takePicture] yields *)

(** Whether the frame-grabbing surface is there at the k-th call. *)
Definition surfaceReady (k : nat) : bool :=
  match videoRef (refsAt k), canvasRef (refsAt k) with
  | Some _, Some canvas => context2d canvas
  | _, _ => false
  end.

(** The value of the k-th call of [takePicture] under filter [f]. *)
Definition snapshot (k : nat) (f : FilterType) : option string :=
  match videoRef (refsAt k), canvasRef (refsAt k) with
  | Some video, Some canvas =>
      if context2d canvas then
        Some (toDataURL
                {| width := videoWidth video; height := videoHeight video;
                   contextFilter := filterValue f;
                   drawn := currentFrame video |})
      else None
  | _, _ => None
  end.

(** The effects of the k-th call. *)
Definition shotTrace (k : nat) (f : FilterType) : list Effect :=
  (if surfaceReady k then [SetShowFlash true] else [])
    ++ [TakePicture k (snapshot k f)].

(** [images] after [if (image) images.push(image)]. *)
Definition keep (images : list string) (image : option string)
  : list string :=
  if truthy image
  then match image with
       | Some s => images ++ [s]
       | None => images
       end
  else images.

(** The images kept from the calls [k], [k+1], ..., [k+n-1]. *)
Definition collected (k n : nat) (f : FilterType) (images : list string)
  : list string :=
  fold_left keep (map (fun j => snapshot j f) (seq k n)) images.

(** The system after the k-th call. *)
Definition afterShot (w : Sys) : Sys :=
  if surfaceReady (shots w) then
    {| state := apply (SetShowFlash true) (state w); runs := runs w;
       shots := S (shots w); flashTimers := S (flashTimers w) |}
  else
    {| state := state w; runs := runs w; shots := S (shots w);
       flashTimers := flashTimers w |}.

(** ** The shape of a run's trace *)

(** [n], [n-1], ..., [0] *)
Fixpoint countDown (n : nat) : list Z :=
  match n with
  | O => [0]
  | S n' => Z.of_nat n :: countDown n'
  end.

(** The countdown values shown from [s] down to 0, then the overlay
    cleared. *)
Definition countdownTrace (s : Z) : list Effect :=
  map (fun v => SetCountdown (Some (Num v))) (countDown (Z.to_nat s))
    ++ [SetCountdown None].

(** The effects of iteration [j] (photo [j+1]) of a run whose first call
    of [takePicture] is call [k0], with [cd] the effects of its
    countdown. *)
Definition photoTrace (cd : list Effect) (k0 : nat) (f : FilterType)
    (j : nat) : list Effect :=
  SetCurrentPhotoIndex (Z.of_nat j + 1) :: cd ++ shotTrace (k0 + j) f.

(** The effects of the statements after the loop. *)
Definition finishTrace (images : list string) : list Effect :=
  [SetCapturedImages images; SetIsCapturing false; SetCurrentPhotoIndex 0;
   SetCountdown None].

(** The effects of a whole run of [n] photos. *)
Definition runTrace (cd : list Effect) (k0 n : nat) (f : FilterType)
  : list Effect :=
  SetIsCapturing true
    :: flat_map (photoTrace cd k0 f) (seq 0 n)
    ++ finishTrace (collected k0 n f []).

(** [parseInt(timer)] and [parseInt(photoCount)] *)
Definition secondsOf (t : TimerType) : number := parseInt (timerValue t).
Definition countOf (p : PhotoCountType) : number :=
  parseInt (photoCountValue p).

Definition tick : Event := IntervalTick 0.

(** ** Predicates and projections used by the statements *)

(** A handler is traced when the state it leaves is the replay of its
    effects. *)
Definition Traced {A : Type} (m : M A) : Prop :=
  forall w, state (snd (fst (m w))) = replay (snd (m w)) (state w).

(** What follows the capture of a resumed run: the head of the next
    iteration and the run suspended again, or the end of the run. *)
Definition afterCapture (r : Run) (s : Z) (images' : list string)
  : list Effect * list Run :=
  match iterationsLeft (run_count r) (run_i r + 1) with
  | O => (finishTrace images', [])
  | S _ =>
      ([SetCurrentPhotoIndex (run_i r + 1 + 1); SetCountdown (Some (Num s))],
       [mkRun (run_env r) (run_count r) (run_i r + 1) images' (Num s)])
  end.

(** The countdown effects of one photo, the number of ticks a run of [n]
    photos takes, and the number of photos, for the selected values. *)
Definition countdownOf (t : TimerType) : list Effect :=
  if timerOn t then
    match secondsOf t with
    | Num s => countdownTrace s
    | NaN => []
    end
  else [].

Definition ticksNeeded (t : TimerType) (n : nat) : nat :=
  if timerOn t then
    match secondsOf t with
    | Num s => (Z.to_nat s * n)%nat
    | NaN => 0%nat
    end
  else 0%nat.

Definition photosOf (p : PhotoCountType) : nat :=
  iterationsLeft (countOf p) 0.

(** The value a call returned, as a string. *)
Definition imageOf (f : FilterType) (k : nat) : string :=
  match snapshot k f with
  | Some s => s
  | None => EmptyString
  end.

(** The number of calls among [k], ..., [k+n-1] that returned an image. *)
Definition successes (k n : nat) (f : FilterType) : nat :=
  List.length (List.filter (fun j => truthy (snapshot j f)) (seq k n)).

(** No run pending: the sequencing cells are at rest. *)
Definition Idle (s : State) : Prop :=
  isCapturing s = false /\ countdown s = None /\ currentPhotoIndex s = 0.

(** A run suspended in the countdown of photo [run_i r + 1]. *)
Definition Suspended (r : Run) (s : State) : Prop :=
  timerOn (c_timer (run_env r)) = true
  /\ run_count r = countOf (c_photoCount (run_env r))
  /\ exists c m sec,
      run_count r = Num c /\ 1 <= c <= 4 /\ 0 <= run_i r < c
      /\ secondsOf (c_timer (run_env r)) = Num sec
      /\ run_remaining r = Num m /\ 1 <= m <= sec
      /\ countdown s = Some (Num m)
      /\ currentPhotoIndex s = run_i r + 1
      /\ Z.of_nat (List.length (run_images r)) <= run_i r
      /\ isCapturing s = true
      /\ capturedImages s = [].

Definition Inv (w : Sys) : Prop :=
  match runs w with
  | [] => Idle (state w)
  | [r] => Suspended r (state w)
  | _ :: _ :: _ => False
  end.

(** The calls of [takePicture] in a trace, with what they returned. *)
Definition captures (tr : list Effect) : list (nat * option string) :=
  flat_map (fun e => match e with
                     | TakePicture k r => [(k, r)]
                     | _ => []
                     end) tr.

(** The values given to [setCurrentPhotoIndex] in a trace. *)
Definition indexValues (tr : list Effect) : list Z :=
  flat_map (fun e => match e with
                     | SetCurrentPhotoIndex v => [v]
                     | _ => []
                     end) tr.

(** The numbers given to [setCountdown] in a trace. *)
Definition countdownValues (tr : list Effect) : list number :=
  flat_map (fun e => match e with
                     | SetCountdown (Some v) => [v]
                     | _ => []
                     end) tr.

(** The three shapes of the trace of a task, as far as the countdown goes:
    no number at all; one number, at least 1, at the end; or the number 0
    at the head, followed by the overlay cleared and the call of
    [takePicture]. *)
Definition CountdownShape (w : Sys) (tr : list Effect) : Prop :=
  countdownValues tr = []
  \/ (exists m pre,
        1 <= m /\ tr = pre ++ [SetCountdown (Some (Num m))]
        /\ countdownValues pre = [])
  \/ (exists f rest,
        tr = SetCountdown (Some (Num 0)) :: SetCountdown None
               :: shotTrace (shots w) f ++ rest
        /\ (countdownValues rest = []
            \/ exists sec, 1 <= sec /\ countdownValues rest = [Num sec])).

Definition isSelector (e : Event) : bool :=
  match e with
  | SelectFilter _ | SelectTimer _ | SelectPhotoCount _ => true
  | _ => false
  end.

Definition isCapture (e : Event) : bool :=
  match e with
  | ClickCapture => true
  | _ => false
  end.

(** The effects other than the setters of the selectors. *)
Definition runEffect (e : Effect) : bool :=
  match e with
  | SetFilter _ | SetTimer _ | SetPhotoCount _ => false
  | _ => true
  end.

(** Two systems that differ at most in the selector cells. *)
Definition SameRun (w1 w2 : Sys) : Prop :=
  runs w1 = runs w2
  /\ shots w1 = shots w2
  /\ flashTimers w1 = flashTimers w2
  /\ countdown (state w1) = countdown (state w2)
  /\ capturedImages (state w1) = capturedImages (state w2)
  /\ currentPhotoIndex (state w1) = currentPhotoIndex (state w2)
  /\ isCapturing (state w1) = isCapturing (state w2)
  /\ showFlash (state w1) = showFlash (state w2).

(** A handler that does not look at the selector cells. *)
Definition Blind {A : Type} (m : M A) : Prop :=
  forall w1 w2,
    SameRun w1 w2 ->
    fst (fst (m w1)) = fst (fst (m w2))
    /\ snd (m w1) = snd (m w2)
    /\ SameRun (snd (fst (m w1))) (snd (fst (m w2))).

(** ** Further predicates *)

(** The page [w] in the countdown of photo [i+1] of the run started from
    [w0], with [m] seconds still to show. *)
Definition Counting (w0 : Sys) (i : nat) (m : Z) (w : Sys) : Prop :=
  runs w
  = [mkRun (render (state w0)) (countOf (photoCount (state w0)))
       (Z.of_nat i) (collected (shots w0) i (filter (state w0)) []) (Num m)]
  /\ countdown (state w) = Some (Num m)
  /\ currentPhotoIndex (state w) = Z.of_nat i + 1
  /\ isCapturing (state w) = true
  /\ capturedImages (state w) = []
  /\ shots w = (shots w0 + i)%nat.

(** Whenever the flash shows, a timeout that hides it is pending. *)
Definition FlashSafe (w : Sys) : Prop :=
  showFlash (state w) = true -> (0 < flashTimers w)%nat.

(** A handler that keeps a property of the system. *)
Definition Preserves {A : Type} (P : Sys -> Prop) (m : M A) : Prop :=
  forall w, P w -> P (snd (fst (m w))).

(** The timer and the photo count shown are those of every pending run. *)
Definition SelectorsMatch (w : Sys) : Prop :=
  forall r, In r (runs w) ->
    c_timer (run_env r) = timer (state w)
    /\ c_photoCount (run_env r) = photoCount (state w).

(** ** The page after it has unmounted *)

(** Nothing clears the interval of a run or the timeout of the flash when
    the component unmounts, so their callbacks still run. By then React
    has set both refs to [null], and it ignores the setters of a component
    that has unmounted: the calls are made (the trace has them) and the
    cells keep their values. The handlers below are those of the page with
    [null] for the refs. *)
Definition nullRefs : Refs := {| videoRef := None; canvasRef := None |}.

(** A callback run after the unmount: its setters change no cell. *)
Definition unmounted {A : Type} (m : M A) : M A :=
  fun w =>
    match m w with
    | (a, w', l) =>
        (a,
         {| state := state w; runs := runs w'; shots := shots w';
            flashTimers := flashTimers w' |},
         l)
    end.

Definition takePictureUnmounted (k : Closure) : M (option string) :=
  seen <- readRefs (fun _ => nullRefs) ;;
  imageData <-
    match videoRef (snd seen), canvasRef (snd seen) with
    | Some video, Some canvas =>
        if context2d canvas then
          setShowFlash true ;;
          scheduleFlashOff ;;
          ret (Some (toDataURL
                       {| width := videoWidth video;
                          height := videoHeight video;
                          contextFilter := filterValue (c_filter k);
                          drawn := currentFrame video |}))
        else ret None
    | _, _ => ret None
    end ;;
  perform (TakePicture (fst seen) imageData) ;;
  ret imageData.

Definition takeAndPushUnmounted (k : Closure) (images : list string)
  : M (list string) :=
  image <- takePictureUnmounted k ;;
  ret (if truthy image
       then match image with
            | Some s => images ++ [s]
            | None => images
            end
       else images).

Fixpoint loopFromUnmounted (todo : nat) (k : Closure) (count : number)
    (i : Z) (images : list string) : M (option Run) :=
  match todo with
  | O => finishRun images
  | S todo' =>
      setCurrentPhotoIndex (i + 1) ;;
      if timerOn (c_timer k) then
        let seconds := parseInt (timerValue (c_timer k)) in
        setCountdown (Some seconds) ;;
        ret (Some {| run_env := k; run_count := count; run_i := i;
                     run_images := images; run_remaining := seconds |})
      else
        images' <- takeAndPushUnmounted k images ;;
        loopFromUnmounted todo' k count (i + 1) images'
  end.

Definition resumeAfterCountdownUnmounted (r : Run) : M (option Run) :=
  images' <- takeAndPushUnmounted (run_env r) (run_images r) ;;
  loopFromUnmounted (iterationsLeft (run_count r) (run_i r + 1))
    (run_env r) (run_count r) (run_i r + 1) images'.

Definition intervalCallbackUnmounted (r : Run) : M (option Run) :=
  let remaining := decr (run_remaining r) in
  setCountdown (Some remaining) ;;
  if leZero remaining then
    setCountdown None ;;
    resumeAfterCountdownUnmounted r
  else
    ret (Some {| run_env := run_env r; run_count := run_count r;
                 run_i := run_i r; run_images := run_images r;
                 run_remaining := remaining |}).

Definition fireIntervalUnmounted (n : nat) : M unit :=
  fun w =>
    match nth_error (runs w) n with
    | None => (tt, w, [])
    | Some r =>
        match intervalCallbackUnmounted r w with
        | (o, w', l) =>
            (tt,
             {| state := state w'; runs := replaceAt n o (runs w');
                shots := shots w'; flashTimers := flashTimers w' |},
             l)
        end
    end.

(** One task of the event loop after the unmount: only the timers are
    left, there is no element to click or to choose from. *)
Definition stepUnmounted (e : Event) : M unit :=
  match e with
  | IntervalTick n => unmounted (fireIntervalUnmounted n)
  | FlashTimeout => unmounted flashOff
  | _ => ret tt
  end.

Fixpoint execUnmounted (evs : list Event) : M unit :=
  match evs with
  | [] => ret tt
  | e :: rest => stepUnmounted e ;; execUnmounted rest
  end.

(** ** The webcam and the video element *)

(** What [getUserMedia] settles with: a stream, given by its tracks, or a
    rejection. *)
Inductive Outcome : Type :=
| Granted (tracks : list nat)
| Denied.

(** The page with its webcam: the [stream] cell, whether the promise of
    [getUserMedia] has settled, whether the component has unmounted, the
    [srcObject] of the video element now rendered (none when there is no
    element or it was never given one), the tracks [stop()] was called on,
    the alerts shown and the paths navigated to. *)
Record Cam : Type := mkCam {
  cam_page : Sys;
  cam_stream : option (list nat);
  cam_settled : bool;
  cam_gone : bool;
  cam_srcObject : option (list nat);
  cam_stopped : list nat;
  cam_alerts : list string;
  cam_navigated : list string
}.

Definition cam_initial : Cam :=
  {| cam_page := initialSys; cam_stream := None; cam_settled := false;
     cam_gone := false; cam_srcObject := None; cam_stopped := [];
     cam_alerts := []; cam_navigated := [] |}.

Inductive CamEvent : Type :=
| OnPage (e : Event)
| Settle (o : Outcome)
| GoBack
| Leave.

(** [capturedImages.length === 0 ? <video ref={videoRef} .../> : ...] *)
Definition videoRendered (w : Sys) : bool :=
  (List.length (capturedImages (state w)) =? 0)%nat.

(** [if (stream) stream.getTracks().forEach(track => track.stop())] for
    the [stream] the function closes over. *)
Definition stopTracks (closureStream : option (list nat)) (c : Cam) : Cam :=
  match closureStream with
  | Some tracks =>
      mkCam (cam_page c) (cam_stream c) (cam_settled c) (cam_gone c)
        (cam_srcObject c) (cam_stopped c ++ tracks) (cam_alerts c)
        (cam_navigated c)
  | None => c
  end.

(** The cleanup of the effect. The effect has no dependencies: it runs
    after the first render only, and its cleanup closes over the [stream]
    of that render. *)
Definition cam_cleanup (c : Cam) : Cam :=
  stopTracks (cam_stream cam_initial) c.

(** The component unmounts: the cleanup runs and the video element goes. *)
Definition cam_unmount (c : Cam) : Cam :=
  let c' := cam_cleanup c in
  mkCam (cam_page c') (cam_stream c') (cam_settled c') true None
    (cam_stopped c') (cam_alerts c') (cam_navigated c').

(** [goBack], a handler of the current render, then the route change. *)
Definition goBack (c : Cam) : Cam :=
  let c1 := stopTracks (cam_stream c) c in
  cam_unmount
    (mkCam (cam_page c1) (cam_stream c1) (cam_settled c1) (cam_gone c1)
       (cam_srcObject c1) (cam_stopped c1) (cam_alerts c1)
       (cam_navigated c1 ++ ["/"%string])).

Definition cam_step (ev : CamEvent) (c : Cam) : Cam :=
  match ev with
  | OnPage e =>
      if cam_gone c then
        (* the interval and the timeout of the page are still live *)
        mkCam (sysOf (stepUnmounted e (cam_page c))) (cam_stream c)
          (cam_settled c) (cam_gone c) (cam_srcObject c) (cam_stopped c)
          (cam_alerts c) (cam_navigated c)
      else
        let w' := sysOf (step e (cam_page c)) in
        mkCam w' (cam_stream c) (cam_settled c) (cam_gone c)
          (if videoRendered (cam_page c) && videoRendered w'
           then cam_srcObject c else None)
          (cam_stopped c) (cam_alerts c) (cam_navigated c)
  | Settle o =>
      if cam_settled c then c
      else
        match o with
        | Granted tracks =>
            (* setStream(mediaStream);
               if (videoRef.current) videoRef.current.srcObject = ... *)
            mkCam (cam_page c)
              (if cam_gone c then cam_stream c else Some tracks)
              true (cam_gone c)
              (if negb (cam_gone c) && videoRendered (cam_page c)
               then Some tracks else cam_srcObject c)
              (cam_stopped c) (cam_alerts c) (cam_navigated c)
        | Denied =>
            mkCam (cam_page c) (cam_stream c) true (cam_gone c)
              (cam_srcObject c) (cam_stopped c)
              (cam_alerts c
                 ++ ["Unable to access webcam. Please grant camera permissions."%string])
              (cam_navigated c)
        end
  | GoBack => if cam_gone c then c else goBack c
  | Leave => if cam_gone c then c else cam_unmount c
  end.

Fixpoint cam_run (evs : list CamEvent) (c : Cam) : Cam :=
  match evs with
  | [] => c
  | ev :: rest => cam_run rest (cam_step ev c)
  end.

(** What the webcam keeps: only tracks of the stream in the cell are ever
    stopped, a video element that is not rendered has no source, and the
    cell is empty until the promise settles. *)
Definition CamInv (c : Cam) : Prop :=
  (forall t, In t (cam_stopped c) ->
     exists tracks, cam_stream c = Some tracks /\ In t tracks)
  /\ (videoRendered (cam_page c) = false -> cam_srcObject c = None)
  /\ (cam_gone c = true -> cam_srcObject c = None)
  /\ (cam_settled c = false -> cam_stream c = None).

(** ** Basic facts *)

Lemma replay_app (l1 l2 : list Effect) (s : State) :
  replay (l1 ++ l2) s = replay l2 (replay l1 s).
Proof. unfold replay. apply fold_left_app. Qed.

(** [showZ] writes a non-negative number in decimal: [parseInt] reads it
    back. *)
Lemma digitOf_digitChar (d : Z) :
  0 <= d <= 9 -> digitOf (digitChar d) = Some d.
Proof.
  intros H.
  assert (Hd : d = 0 \/ d = 1 \/ d = 2 \/ d = 3 \/ d = 4 \/ d = 5 \/ d = 6
               \/ d = 7 \/ d = 8 \/ d = 9) by lia.
  repeat (destruct Hd as [->|Hd]; [reflexivity|]). subst d. reflexivity.
Qed.

Lemma natDigits_S (fuel : nat) (n : Z) (acc : string) :
  natDigits (S fuel) n acc
  = if n <? 10 then String (digitChar (n mod 10)) acc
    else natDigits fuel (n / 10) (String (digitChar (n mod 10)) acc).
Proof. reflexivity. Qed.

Lemma parseDigits_natDigits (f : nat) :
  forall n,
    0 <= n < 2 ^ Z.of_nat (S f) ->
    exists k : nat,
      forall acc init,
        parseDigits (natDigits (S f) n acc) init
        = parseDigits acc
            (Some (10 ^ Z.of_nat k
                   * match init with Some a => a | None => 0 end + n)).
Proof.
  induction f as [|f IH]; intros n Hn.
  - exists 1%nat. intros acc init. cbn [natDigits].
    assert (Hlt : n < 10) by (change (2 ^ Z.of_nat 1) with 2 in Hn; lia).
    destruct (Z.ltb_spec n 10) as [_|Hge]; [|lia].
    cbn [parseDigits]. rewrite digitOf_digitChar
      by (rewrite Z.mod_small by lia; lia).
    rewrite Z.mod_small by lia. reflexivity.
  - destruct (Z.ltb_spec n 10) as [Hlt|Hge].
    + exists 1%nat. intros acc init. rewrite natDigits_S.
      destruct (Z.ltb_spec n 10) as [_|Hge]; [|lia].
      cbn [parseDigits].
      rewrite digitOf_digitChar by (rewrite Z.mod_small by lia; lia).
      rewrite Z.mod_small by lia. reflexivity.
    + destruct (IH (n / 10)) as (k & Hk).
      { split; [apply Z.div_pos; lia|].
        apply Z.div_lt_upper_bound; [lia|].
        replace (Z.of_nat (S (S f))) with (Z.succ (Z.of_nat (S f))) in Hn
          by lia.
        rewrite Z.pow_succ_r in Hn by lia. lia. }
      exists (S k). intros acc init. rewrite natDigits_S.
      destruct (Z.ltb_spec n 10) as [Hlt|_]; [lia|].
      rewrite Hk. cbn [parseDigits].
      rewrite digitOf_digitChar
        by (pose proof (Z.mod_pos_bound n 10 ltac:(lia)); lia).
      f_equal. f_equal.
      replace (Z.of_nat (S k)) with (Z.succ (Z.of_nat k)) by lia.
      rewrite Z.pow_succ_r by lia.
      pose proof (Z.div_mod n 10 ltac:(lia)) as Hdm. lia.
Qed.

Lemma parseInt_showZ (n : Z) : 0 <= n -> parseInt (showZ n) = Num n.
Proof.
  intros Hn. unfold showZ, parseInt.
  destruct (Z.ltb_spec n 0) as [Hneg|_]; [lia|].
  destruct (parseDigits_natDigits (Z.to_nat (Z.log2 n)) n) as (k & Hk).
  { split; [exact Hn|].
    replace (Z.of_nat (S (Z.to_nat (Z.log2 n)))) with (Z.succ (Z.log2 n))
      by (pose proof (Z.log2_nonneg n); lia).
    destruct (Z.eq_dec n 0) as [->|Hne]; [reflexivity|].
    apply Z.log2_spec. lia. }
  rewrite Hk. cbn [parseDigits]. f_equal. lia.
Qed.

Lemma traced_ret {A : Type} (a : A) : Traced (ret a).
Proof. intros w. reflexivity. Qed.

Lemma traced_perform (e : Effect) : Traced (perform e).
Proof. intros w. reflexivity. Qed.

Lemma traced_bind {A B : Type} (m : M A) (f : A -> M B) :
  Traced m -> (forall a, Traced (f a)) -> Traced (bind m f).
Proof.
  intros Hm Hf w. unfold bind.
  specialize (Hm w). destruct (m w) as [[a w1] l1]. simpl in Hm.
  specialize (Hf a w1). destruct (f a w1) as [[b w2] l2]. simpl in *.
  rewrite replay_app, <- Hm. exact Hf.
Qed.

Lemma takePicture_eq (k : Closure) (w : Sys) :
  takePicture k w
  = (snapshot (shots w) (c_filter k), afterShot w,
     shotTrace (shots w) (c_filter k)).
Proof.
  unfold takePicture, shotTrace, afterShot, bind, readRefs.
  unfold snapshot, surfaceReady. simpl.
  destruct (videoRef (refsAt (shots w))) as [video|];
    [destruct (canvasRef (refsAt (shots w))) as [canvas|];
     [destruct (context2d canvas)|]|];
    reflexivity.
Qed.

Lemma takeAndPush_eq (k : Closure) (images : list string) (w : Sys) :
  takeAndPush k images w
  = (keep images (snapshot (shots w) (c_filter k)), afterShot w,
     shotTrace (shots w) (c_filter k)).
Proof.
  unfold takeAndPush, bind. rewrite takePicture_eq. simpl.
  rewrite app_nil_r. reflexivity.
Qed.

Lemma traced_addRun (r : Run) : Traced (addRun r).
Proof. intros w. reflexivity. Qed.

Lemma traced_takePicture (k : Closure) : Traced (takePicture k).
Proof.
  intros w. rewrite takePicture_eq. simpl.
  unfold afterShot, shotTrace. destruct (surfaceReady (shots w)); reflexivity.
Qed.

Lemma traced_takeAndPush (k : Closure) (images : list string) :
  Traced (takeAndPush k images).
Proof.
  unfold takeAndPush. apply traced_bind; auto using traced_takePicture.
  intros a. apply traced_ret.
Qed.

Lemma traced_finishRun (images : list string) : Traced (finishRun images).
Proof. intros w. reflexivity. Qed.

Lemma traced_loopFrom (todo : nat) (k : Closure) (count : number) :
  forall i images, Traced (loopFrom todo k count i images).
Proof.
  induction todo as [|todo IH]; intros i images; simpl.
  - apply traced_finishRun.
  - apply traced_bind; [apply traced_perform|]. intros _.
    destruct (timerOn (c_timer k)).
    + apply traced_bind; [apply traced_perform|]. intros _. apply traced_ret.
    + apply traced_bind; [apply traced_takeAndPush|]. intros a. apply IH.
Qed.

Lemma traced_intervalCallback (r : Run) : Traced (intervalCallback r).
Proof.
  unfold intervalCallback.
  apply traced_bind; [apply traced_perform|]. intros _.
  destruct (leZero (decr (run_remaining r))).
  - apply traced_bind; [apply traced_perform|]. intros _.
    unfold resumeAfterCountdown.
    apply traced_bind; [apply traced_takeAndPush|]. intros a.
    apply traced_loopFrom.
  - apply traced_ret.
Qed.

Lemma traced_fireInterval (n : nat) : Traced (fireInterval n).
Proof.
  intros w. unfold fireInterval.
  destruct (nth_error (runs w) n) as [r|]; [|reflexivity].
  pose proof (traced_intervalCallback r w) as H.
  destruct (intervalCallback r w) as [[o w'] l]. exact H.
Qed.

Lemma traced_capturePhoto (k : Closure) : Traced (capturePhoto k).
Proof.
  unfold capturePhoto.
  apply traced_bind; [apply traced_perform|]. intros _.
  apply traced_bind; [apply traced_loopFrom|].
  intros [r|]; [apply traced_addRun|apply traced_ret].
Qed.

Lemma traced_forEachImage (now : nat -> Z) (l : list string) :
  forall index, Traced (forEachImage now index l).
Proof.
  induction l as [|image rest IH]; intros index; simpl.
  - apply traced_ret.
  - apply traced_bind; [apply traced_perform|]. intros _. apply IH.
Qed.

Lemma traced_invoke (e : Event) : Traced (invoke e).
Proof.
  intros w. destruct e; simpl.
  - apply traced_capturePhoto.
  - reflexivity.
  - unfold downloadPhoto.
    destruct (List.length (c_capturedImages (render (state w))) =? 0)%nat;
      [reflexivity|apply traced_forEachImage].
  - reflexivity.
  - reflexivity.
  - reflexivity.
  - apply traced_fireInterval.
  - unfold flashOff. destruct (flashTimers w); reflexivity.
Qed.

Lemma traced_step (e : Event) : Traced (step e).
Proof.
  intros w. unfold step.
  destruct (enabled (state w) e); [apply traced_invoke|reflexivity].
Qed.

Lemma traced_exec (evs : list Event) : Traced (exec evs).
Proof.
  induction evs as [|e rest IH]; simpl.
  - apply traced_ret.
  - apply traced_bind; [apply traced_step|]. intros _. exact IH.
Qed.

(** *** The loop without a timer *)

Lemma shots_afterShot (w : Sys) : shots (afterShot w) = S (shots w).
Proof. unfold afterShot. destruct (surfaceReady (shots w)); reflexivity. Qed.

Lemma runs_afterShot (w : Sys) : runs (afterShot w) = runs w.
Proof. unfold afterShot. destruct (surfaceReady (shots w)); reflexivity. Qed.

Lemma collected_S (k n : nat) (f : FilterType) (images : list string) :
  collected k (S n) f images = collected (S k) n f (keep images (snapshot k f)).
Proof. reflexivity. Qed.

Lemma loopFrom_off (k : Closure) (count : number) :
  c_timer k = TimerOff ->
  forall todo j images w k0,
    shots w = (k0 + j)%nat ->
    exists w',
      loopFrom todo k count (Z.of_nat j) images w
      = (None, w',
         flat_map (photoTrace [] k0 (c_filter k)) (seq j todo)
           ++ finishTrace (collected (shots w) todo (c_filter k) images))
      /\ runs w' = runs w
      /\ shots w' = (shots w + todo)%nat.
Proof.
  intros Hoff. induction todo as [|todo IH]; intros j images w k0 Hk.
  - eexists. split; [reflexivity|]. simpl. split; [reflexivity|lia].
  - cbn [loopFrom]. rewrite Hoff.
    change (timerOn TimerOff) with false.
    cbv iota.
    unfold bind at 1. unfold setCurrentPhotoIndex at 1. unfold perform at 1.
    unfold bind at 1. rewrite takeAndPush_eq.
    replace (Z.of_nat j + 1) with (Z.of_nat (S j)) by lia.
    destruct (IH (S j) (keep images (snapshot (shots w) (c_filter k)))
                (afterShot (withState
                   (apply (SetCurrentPhotoIndex (Z.of_nat (S j)))) w)) k0)
      as (w' & E & Hr & Hs).
    { rewrite shots_afterShot. simpl. lia. }
    cbn [shots withState] in E |- *. rewrite E.
    exists w'. split; [|split].
    + f_equal. cbn [seq flat_map]. unfold photoTrace at 2.
      rewrite shots_afterShot. cbn [shots withState].
      rewrite collected_S, Hk.
      replace (Z.of_nat j + 1) with (Z.of_nat (S j)) by lia.
      cbn [app]. rewrite <- !app_assoc. reflexivity.
    + rewrite Hr, runs_afterShot. reflexivity.
    + rewrite Hs, shots_afterShot. simpl. lia.
Qed.

(** *** The loop with a timer *)

Lemma iterationsLeft_S (count : number) (i : Z) (n : nat) :
  iterationsLeft count i = S n -> iterationsLeft count (i + 1) = n.
Proof.
  destruct count as [|c]; simpl; [discriminate|]. intros H. lia.
Qed.

(** A tick that leaves more than zero seconds. *)
Lemma tick_wait (r : Run) (w : Sys) (m : Z) :
  runs w = [r] ->
  run_remaining r = Num m ->
  2 <= m ->
  step tick w
  = (tt,
     {| state := apply (SetCountdown (Some (Num (m - 1)))) (state w);
        runs := [mkRun (run_env r) (run_count r) (run_i r) (run_images r)
                   (Num (m - 1))];
        shots := shots w; flashTimers := flashTimers w |},
     [SetCountdown (Some (Num (m - 1)))]).
Proof.
  intros Hr Hm Hge. unfold step, tick. cbn [enabled invoke].
  unfold fireInterval. rewrite Hr. cbn [nth_error].
  unfold intervalCallback. rewrite Hm. cbn [decr leZero].
  destruct (Z.leb_spec (m - 1) 0) as [Hle|_]; [lia|].
  unfold bind, setCountdown, perform, ret. cbn. rewrite Hr. reflexivity.
Qed.

(** The tick that reaches zero: the capture and the head of the next
    iteration (or the end of the run) are part of it. *)
Lemma tick_fire (r : Run) (w : Sys) (s : Z) :
  runs w = [r] ->
  run_remaining r = Num 1 ->
  timerOn (c_timer (run_env r)) = true ->
  secondsOf (c_timer (run_env r)) = Num s ->
  let f := c_filter (run_env r) in
  let images' := keep (run_images r) (snapshot (shots w) f) in
  exists w',
    step tick w
    = (tt, w',
       SetCountdown (Some (Num 0)) :: SetCountdown None
         :: shotTrace (shots w) f ++ fst (afterCapture r s images'))
    /\ runs w' = snd (afterCapture r s images')
    /\ shots w' = S (shots w).
Proof.
  intros Hr Hm Hon Hs f images'.
  assert (Estep : step tick w
                  = match intervalCallback r w with
                    | (o, w', l) =>
                        (tt,
                         {| state := state w'; runs := replaceAt 0 o (runs w');
                            shots := shots w';
                            flashTimers := flashTimers w' |},
                         l)
                    end).
  { unfold step, tick. cbn [enabled invoke]. unfold fireInterval.
    rewrite Hr. reflexivity. }
  rewrite Estep. clear Estep.
  assert (Ecb : intervalCallback r w
                = match loopFrom (iterationsLeft (run_count r) (run_i r + 1))
                          (run_env r) (run_count r) (run_i r + 1) images'
                          (afterShot
                             (withState (apply (SetCountdown None))
                                (withState
                                   (apply (SetCountdown (Some (Num 0)))) w)))
                  with
                  | (o, w', l) =>
                      (o, w',
                       SetCountdown (Some (Num 0)) :: SetCountdown None
                         :: shotTrace (shots w) f ++ l)
                  end).
  { unfold intervalCallback. rewrite Hm. cbn [decr leZero].
    change (1 - 1) with 0. change (0 <=? 0) with true. cbv iota.
    unfold bind at 1. unfold setCountdown at 1. unfold perform at 1.
    unfold bind at 1. unfold setCountdown at 1. unfold perform at 1.
    unfold resumeAfterCountdown. unfold bind at 1. rewrite takeAndPush_eq.
    cbn [shots withState]. fold f. fold images'.
    destruct (loopFrom _ _ _ _ _ _) as [[o w'] l]. reflexivity. }
  rewrite Ecb. clear Ecb. unfold afterCapture.
  destruct (iterationsLeft (run_count r) (run_i r + 1)) as [|todo].
  - cbn [loopFrom]. eexists. split; [reflexivity|]. split.
    + cbn. rewrite runs_afterShot. cbn. rewrite Hr. reflexivity.
    + cbn. rewrite shots_afterShot. reflexivity.
  - cbn [loopFrom]. rewrite Hon.
    unfold secondsOf in Hs. rewrite Hs.
    eexists. split; [reflexivity|]. split.
    + cbn. rewrite runs_afterShot. cbn. rewrite Hr. reflexivity.
    + cbn. rewrite shots_afterShot. reflexivity.
Qed.

Lemma exec_cons_eq (e : Event) (l : list Event) (w w1 w2 : Sys)
    (t1 t2 : list Effect) :
  step e w = (tt, w1, t1) ->
  exec l w1 = (tt, w2, t2) ->
  exec (e :: l) w = (tt, w2, t1 ++ t2).
Proof.
  intros H1 H2. cbn [exec]. unfold bind. rewrite H1, H2. reflexivity.
Qed.

Lemma exec_app_eq (l1 l2 : list Event) :
  forall (w w1 w2 : Sys) (t1 t2 : list Effect),
    exec l1 w = (tt, w1, t1) ->
    exec l2 w1 = (tt, w2, t2) ->
    exec (l1 ++ l2) w = (tt, w2, t1 ++ t2).
Proof.
  induction l1 as [|e l1 IH]; intros w w1 w2 t1 t2 H1 H2.
  - cbn in H1. injection H1 as <- <-. exact H2.
  - cbn [exec app] in H1 |- *. unfold bind in H1 |- *.
    destruct (step e w) as [[[] wa] ta].
    destruct (exec l1 wa) as [[[] wb] tb] eqn:E1.
    injection H1 as <- <-.
    rewrite (IH wa wb w2 tb t2 E1 H2). rewrite app_assoc. reflexivity.
Qed.

(** One countdown from [S n] seconds and the capture that ends it. *)
Lemma countdown_cycle (s : Z) :
  forall (n : nat) (r : Run) (w : Sys),
    runs w = [r] ->
    run_remaining r = Num (Z.of_nat (S n)) ->
    timerOn (c_timer (run_env r)) = true ->
    secondsOf (c_timer (run_env r)) = Num s ->
    let f := c_filter (run_env r) in
    let images' := keep (run_images r) (snapshot (shots w) f) in
    exists w',
      exec (repeat tick (S n)) w
      = (tt, w',
         map (fun v => SetCountdown (Some (Num v))) (countDown n)
           ++ SetCountdown None
           :: shotTrace (shots w) f ++ fst (afterCapture r s images'))
      /\ runs w' = snd (afterCapture r s images')
      /\ shots w' = S (shots w).
Proof.
  induction n as [|n IH]; intros r w Hr Hm Hon Hs f images'.
  - destruct (tick_fire r w s Hr Hm Hon Hs) as (w' & E & Hruns & Hshots).
    exists w'. split; [|split; assumption].
    cbn [repeat]. rewrite (exec_cons_eq tick [] w w' w' _ [] E eq_refl).
    rewrite app_nil_r. reflexivity.
  - pose proof (tick_wait r w (Z.of_nat (S (S n))) Hr Hm ltac:(lia)) as E.
    replace (Z.of_nat (S (S n)) - 1) with (Z.of_nat (S n)) in E by lia.
    set (r1 := mkRun (run_env r) (run_count r) (run_i r) (run_images r)
                 (Num (Z.of_nat (S n)))) in *.
    match type of E with _ = (tt, ?x, _) => set (w1 := x) in * end.
    destruct (IH r1 w1 eq_refl eq_refl Hon Hs) as (w' & E' & Hruns & Hshots).
    exists w'. split; [|split; assumption].
    change (repeat tick (S (S n))) with (tick :: repeat tick (S n)).
    rewrite (exec_cons_eq _ _ _ _ _ _ _ E E'). reflexivity.
Qed.

Lemma photoTrace_timed (s : Z) (n k0 j : nat) (f : FilterType) :
  Z.to_nat s = S n ->
  photoTrace (countdownTrace s) k0 f j
  = [SetCurrentPhotoIndex (Z.of_nat j + 1); SetCountdown (Some (Num s))]
      ++ map (fun v => SetCountdown (Some (Num v))) (countDown n)
      ++ SetCountdown None :: shotTrace (k0 + j) f.
Proof.
  intros Hn. unfold photoTrace, countdownTrace. rewrite Hn.
  cbn [countDown map app]. replace (Z.of_nat (S n)) with s by lia.
  rewrite <- app_assoc. reflexivity.
Qed.

(** A run suspended at the start of the countdown of photo [j+1], with
    [todo'] more photos after it, ends after [s * (todo' + 1)] ticks. *)
Lemma timed_run_rest (s : Z) :
  1 <= s ->
  forall (todo' : nat) (r : Run) (w : Sys) (j k0 : nat),
    runs w = [r] ->
    run_remaining r = Num s ->
    timerOn (c_timer (run_env r)) = true ->
    secondsOf (c_timer (run_env r)) = Num s ->
    run_i r = Z.of_nat j ->
    iterationsLeft (run_count r) (run_i r + 1) = todo' ->
    shots w = (k0 + j)%nat ->
    let f := c_filter (run_env r) in
    exists w' tr,
      exec (repeat tick (Z.to_nat s * S todo')) w = (tt, w', tr)
      /\ runs w' = []
      /\ shots w' = (shots w + S todo')%nat
      /\ [SetCurrentPhotoIndex (Z.of_nat j + 1); SetCountdown (Some (Num s))]
           ++ tr
         = flat_map (photoTrace (countdownTrace s) k0 f) (seq j (S todo'))
             ++ finishTrace
                  (collected (shots w) (S todo') f (run_images r)).
Proof.
  intros Hs1.
  destruct (Z.to_nat s) as [|n] eqn:Hn; [lia|].
  induction todo' as [|t IH]; intros r w j k0 Hr Hm Hon Hs Hi Hleft Hk f.
  - assert (Hm' : run_remaining r = Num (Z.of_nat (S n)))
      by (rewrite Hm; f_equal; lia).
    destruct (countdown_cycle s n r w Hr Hm' Hon Hs)
      as (w' & E & Hruns & Hshots).
    unfold afterCapture in E, Hruns. rewrite Hleft in E, Hruns.
    cbn [fst snd] in E, Hruns.
    rewrite Nat.mul_1_r. eexists w', _. split; [exact E|].
    split; [exact Hruns|]. split; [lia|].
    cbn [seq flat_map]. rewrite app_nil_r.
    rewrite (photoTrace_timed s n k0 j f Hn), <- Hk.
    fold f. rewrite <- !app_assoc. cbn [app]. reflexivity.
  - assert (Hm' : run_remaining r = Num (Z.of_nat (S n)))
      by (rewrite Hm; f_equal; lia).
    destruct (countdown_cycle s n r w Hr Hm' Hon Hs)
      as (w1 & E & Hruns & Hshots).
    unfold afterCapture in E, Hruns. rewrite Hleft in E, Hruns.
    cbn [fst snd] in E, Hruns.
    set (images' := keep (run_images r)
                      (snapshot (shots w) (c_filter (run_env r)))) in *.
    set (r2 := mkRun (run_env r) (run_count r) (run_i r + 1) images'
                 (Num s)) in *.
    destruct (IH r2 w1 (S j) k0 Hruns eq_refl Hon Hs) as
      (w2 & tr2 & E2 & Hruns2 & Hshots2 & Htr2).
    { cbn [r2 run_i]. lia. }
    { cbn [r2 run_i run_count]. apply iterationsLeft_S. exact Hleft. }
    { lia. }
    replace (S n * S (S t))%nat with (S n + S n * S t)%nat by lia.
    rewrite repeat_app.
    eexists w2, _. split; [exact (exec_app_eq _ _ _ _ _ _ _ E E2)|].
    split; [exact Hruns2|]. split; [lia|].
    cbn [r2 run_env run_images] in Htr2.
    change (seq j (S (S t))) with (j :: seq (S j) (S t)).
    cbn [flat_map]. rewrite (photoTrace_timed s n k0 j f Hn), <- Hk.
    rewrite collected_S. rewrite <- Hshots. subst f images'.
    rewrite <- !app_assoc. rewrite <- Htr2.
    replace (run_i r + 1 + 1) with (Z.of_nat (S j) + 1) by lia.
    cbn [app]. rewrite <- !app_assoc. reflexivity.
Qed.

(** *** A whole run *)

Lemma click_off (w : Sys) :
  enabled (state w) ClickCapture = true ->
  timer (state w) = TimerOff ->
  let n := photosOf (photoCount (state w)) in
  exists w',
    step ClickCapture w
    = (tt, w', runTrace [] (shots w) n (filter (state w)))
    /\ runs w' = runs w
    /\ shots w' = (shots w + n)%nat.
Proof.
  intros Hen Hoff n. unfold step. rewrite Hen. cbn [invoke].
  unfold capturePhoto. unfold bind at 1. unfold setIsCapturing, perform.
  unfold bind at 1. unfold captureMultiplePhotos.
  destruct (loopFrom_off (render (state w))
              (parseInt (photoCountValue (c_photoCount (render (state w)))))
              Hoff n 0%nat [] (withState (apply (SetIsCapturing true)) w)
              (shots w))
    as (w' & E & Hr & Hs).
  { cbn. lia. }
  change (Z.of_nat 0) with 0 in E.
  cbn [render c_photoCount] in E |- *.
  unfold n, photosOf, countOf in E. rewrite E. fold n.
  exists w'. cbn [ret shots withState] in *. split; [|split; assumption].
  unfold runTrace. cbn [render c_filter]. rewrite app_nil_r. reflexivity.
Qed.

Lemma click_timed (w : Sys) (s : Z) :
  enabled (state w) ClickCapture = true ->
  timerOn (timer (state w)) = true ->
  secondsOf (timer (state w)) = Num s ->
  exists w',
    step ClickCapture w
    = (tt, w',
       [SetIsCapturing true; SetCurrentPhotoIndex 1;
        SetCountdown (Some (Num s))])
    /\ runs w'
       = runs w ++ [mkRun (render (state w))
                      (countOf (photoCount (state w))) 0 [] (Num s)]
    /\ shots w' = shots w.
Proof.
  intros Hen Hon Hs. unfold step. rewrite Hen. cbn [invoke].
  unfold capturePhoto, captureMultiplePhotos.
  cbn [render c_photoCount].
  assert (Hn : exists n', iterationsLeft
                 (parseInt (photoCountValue (photoCount (state w)))) 0 = S n')
    by (destruct (photoCount (state w)); eexists; reflexivity).
  destruct Hn as (n' & Hn). rewrite Hn. cbn [loopFrom c_timer render].
  rewrite Hon. unfold secondsOf in Hs. rewrite Hs.
  eexists. split; [reflexivity|]. split; reflexivity.
Qed.

Lemma exec_nil (w : Sys) : exec [] w = (tt, w, []).
Proof. reflexivity. Qed.

Lemma timer_cases (t : TimerType) :
  t = TimerOff
  \/ (timerOn t = true /\ exists s, secondsOf t = Num s /\ 1 <= s <= 10).
Proof.
  destruct t; [left; reflexivity| right ..]; (split; [reflexivity|]).
  - exists 3. split; [reflexivity|lia].
  - exists 5. split; [reflexivity|lia].
  - exists 10. split; [reflexivity|lia].
Qed.

Lemma photos_cases (p : PhotoCountType) :
  exists c, countOf p = Num c /\ 1 <= c <= 4 /\ photosOf p = Z.to_nat c.
Proof.
  destruct p; [exists 1|exists 2|exists 3|exists 4];
    (split; [reflexivity|split; [lia|reflexivity]]).
Qed.

(** From a page with no run pending and the capture button live, the
    click and the ticks that follow run the whole batch. *)
Lemma run_to_completion (w : Sys) :
  runs w = [] ->
  enabled (state w) ClickCapture = true ->
  let t := timer (state w) in
  let n := photosOf (photoCount (state w)) in
  exists w',
    exec (ClickCapture :: repeat tick (ticksNeeded t n)) w
    = (tt, w', runTrace (countdownOf t) (shots w) n (filter (state w)))
    /\ runs w' = []
    /\ shots w' = (shots w + n)%nat.
Proof.
  intros Hr Hen t n.
  destruct (timer_cases t) as [Hoff|(Hon & s & Hs & Hs1)].
  - destruct (click_off w Hen Hoff) as (w' & E & Hr' & Hs').
    unfold ticksNeeded, countdownOf. rewrite Hoff. cbn [timerOn repeat].
    change (timerOn TimerOff) with false. cbv iota. cbn [repeat].
    exists w'. split; [|split; [congruence|exact Hs']].
    rewrite (exec_cons_eq _ _ _ _ _ _ _ E (exec_nil w')).
    rewrite app_nil_r. reflexivity.
  - destruct (click_timed w s Hen Hon Hs) as (w1 & E & Hr1 & Hs1').
    rewrite Hr in Hr1. cbn [app] in Hr1.
    destruct (photos_cases (photoCount (state w))) as (c & Hc & Hc1 & Hn).
    fold n in Hn.
    assert (Hn' : exists n', n = S n') by (exists (Nat.pred n); lia).
    destruct Hn' as (n' & Hn').
    destruct (timed_run_rest s ltac:(lia) n' _ w1 0%nat (shots w) Hr1 eq_refl
                Hon Hs eq_refl)
      as (w2 & tr & E2 & Hr2 & Hs2 & Htr).
    { cbn [run_count run_i]. rewrite Hc. cbn [iterationsLeft]. lia. }
    { lia. }
    unfold ticksNeeded, countdownOf. fold t in Hon, Hs. rewrite Hon, Hs, Hn'.
    exists w2. split; [|split; [exact Hr2|lia]].
    rewrite (exec_cons_eq _ _ _ _ _ _ _ E E2).
    unfold runTrace. cbn [run_env render c_filter run_images] in Htr.
    rewrite Hs1' in Htr. rewrite <- Htr. reflexivity.
Qed.

Lemma replay_finish (pre : list Effect) (images : list string) (s : State) :
  let s' := replay (pre ++ finishTrace images) s in
  capturedImages s' = images
  /\ isCapturing s' = false
  /\ currentPhotoIndex s' = 0
  /\ countdown s' = None.
Proof. cbv zeta. rewrite replay_app. cbn. repeat split. Qed.

Lemma length_keep (images : list string) (image : option string) :
  List.length (keep images image)
  = (List.length images + if truthy image then 1 else 0)%nat.
Proof.
  unfold keep. destruct image as [s|]; cbn [truthy].
  - destruct (negb (s =? EmptyString)%string);
      [rewrite length_app; reflexivity|lia].
  - lia.
Qed.

Lemma length_collected (n : nat) (f : FilterType) :
  forall k images,
    List.length (collected k n f images)
    = (List.length images + successes k n f)%nat.
Proof.
  induction n as [|n IH]; intros k images.
  - cbn. lia.
  - rewrite collected_S, IH, length_keep. unfold successes.
    cbn [seq List.filter].
    destruct (truthy (snapshot k f)); cbn [List.length]; lia.
Qed.

Lemma successes_le (k n : nat) (f : FilterType) : (successes k n f <= n)%nat.
Proof.
  unfold successes.
  pose proof (filter_length_le (fun j => truthy (snapshot j f)) (seq k n)) as H.
  rewrite length_seq in H. exact H.
Qed.

Lemma successes_lt (n : nat) (f : FilterType) :
  forall k j,
    (j < n)%nat ->
    truthy (snapshot (k + j) f) = false ->
    (successes k n f < n)%nat.
Proof.
  induction n as [|n IH]; intros k j Hj Hbad; [lia|].
  unfold successes. cbn [seq List.filter].
  destruct j as [|j].
  - rewrite Nat.add_0_r in Hbad. rewrite Hbad.
    pose proof (successes_le (S k) n f) as H. unfold successes in H. lia.
  - assert (H : (successes (S k) n f < n)%nat).
    { apply (IH (S k) j); [lia|].
      replace (S k + j)%nat with (k + S j)%nat by lia. exact Hbad. }
    unfold successes in H.
    destruct (truthy (snapshot k f)); cbn [List.length]; lia.
Qed.

Lemma collected_all (n : nat) (f : FilterType) :
  forall k images,
    (forall j, (j < n)%nat -> truthy (snapshot (k + j) f) = true) ->
    collected k n f images = images ++ map (imageOf f) (seq k n).
Proof.
  induction n as [|n IH]; intros k images Hall.
  - cbn. rewrite app_nil_r. reflexivity.
  - rewrite collected_S, IH.
    + pose proof (Hall 0%nat ltac:(lia)) as H0.
      rewrite Nat.add_0_r in H0. unfold keep, imageOf. rewrite H0.
      cbn [seq map].
      destruct (snapshot k f) as [img|]; [|discriminate].
      rewrite <- app_assoc. reflexivity.
    + intros j Hj. replace (S k + j)%nat with (k + S j)%nat by lia.
      apply Hall. lia.
Qed.

Lemma collected_snoc (k n : nat) (f : FilterType) (images : list string) :
  collected k (S n) f images
  = keep (collected k n f images) (snapshot (k + n) f).
Proof.
  unfold collected. rewrite seq_S, map_app, fold_left_app. reflexivity.
Qed.

(** The page at the end of a run started from the capture button. *)
Lemma run_outcome (w : Sys) :
  runs w = [] ->
  enabled (state w) ClickCapture = true ->
  let t := timer (state w) in
  let n := photosOf (photoCount (state w)) in
  let f := filter (state w) in
  let R := exec (ClickCapture :: repeat tick (ticksNeeded t n)) w in
  traceOf R = runTrace (countdownOf t) (shots w) n f
  /\ runs (sysOf R) = []
  /\ shots (sysOf R) = (shots w + n)%nat
  /\ capturedImages (state (sysOf R)) = collected (shots w) n f []
  /\ isCapturing (state (sysOf R)) = false
  /\ currentPhotoIndex (state (sysOf R)) = 0
  /\ countdown (state (sysOf R)) = None.
Proof.
  intros Hr Hen t n f R.
  destruct (run_to_completion w Hr Hen) as (w' & E & Hr' & Hs').
  pose proof (traced_exec (ClickCapture :: repeat tick (ticksNeeded t n)) w)
    as Htr.
  fold t n in E. subst R. unfold sysOf, traceOf. rewrite E in Htr |- *.
  cbn [fst snd] in Htr |- *. fold f.
  split; [reflexivity|]. split; [exact Hr'|]. split; [exact Hs'|].
  rewrite Htr. unfold runTrace. rewrite app_comm_cons.
  apply replay_finish.
Qed.

(** *** The invariant of the page *)

Lemma Inv_initial : Inv initialSys.
Proof. cbn. repeat split. Qed.

Lemma enabled_capture (s : State) :
  enabled s ClickCapture = true ->
  capturedImages s = [] /\ isCapturing s = false.
Proof.
  cbn [enabled]. intros H. apply andb_prop in H. destruct H as [H1 H2].
  split.
  - destruct (capturedImages s); [reflexivity|discriminate].
  - destruct (isCapturing s); [discriminate|reflexivity].
Qed.

Lemma Inv_capture_idle (w : Sys) :
  Inv w -> enabled (state w) ClickCapture = true -> runs w = [].
Proof.
  intros HI Hen. apply enabled_capture in Hen. destruct Hen as [_ Hcap].
  unfold Inv in HI. destruct (runs w) as [|r [|r' rs]]; [reflexivity| |easy].
  destruct HI as (_ & _ & c & m & sec & H). decompose [and] H. congruence.
Qed.

Lemma step_state (e : Event) (w : Sys) :
  state (sysOf (step e w)) = replay (traceOf (step e w)) (state w).
Proof. apply traced_step. Qed.

Lemma replay_shotTrace (k : nat) (f : FilterType) (s : State) :
  let s' := replay (shotTrace k f) s in
  countdown s' = countdown s
  /\ currentPhotoIndex s' = currentPhotoIndex s
  /\ isCapturing s' = isCapturing s
  /\ capturedImages s' = capturedImages s.
Proof.
  unfold shotTrace. destruct (surfaceReady k); cbn; repeat split.
Qed.

Lemma Inv_tick_idle (n : nat) (w : Sys) :
  runs w = [] -> step (IntervalTick n) w = (tt, w, []).
Proof.
  intros Hr. unfold step. cbn [enabled invoke]. unfold fireInterval.
  rewrite Hr. destruct n; reflexivity.
Qed.

Lemma Inv_tick_other (n : nat) (r : Run) (w : Sys) :
  runs w = [r] -> step (IntervalTick (S n)) w = (tt, w, []).
Proof.
  intros Hr. unfold step. cbn [enabled invoke]. unfold fireInterval.
  rewrite Hr. destruct n; reflexivity.
Qed.

Lemma Inv_tick (r : Run) (w : Sys) :
  runs w = [r] -> Suspended r (state w) -> Inv (sysOf (step tick w)).
Proof.
  intros Hr (Hon & Hcnt & c & m & sec & Hc & Hc1 & Hi & Hsec & Hm & Hm1 & Hcd
             & Hidx & Hlen & Hcap & Himgs).
  destruct (Z.eq_dec m 1) as [->|Hne].
  - destruct (tick_fire r w sec Hr Hm Hon Hsec) as (w' & E & Hr' & Hs').
    pose proof (step_state tick w) as Hst.
    unfold sysOf, traceOf in *. rewrite E in Hst |- *. cbn [fst snd] in *.
    unfold Inv. rewrite Hr'. unfold afterCapture in Hst |- *.
    rewrite Hc. cbn [iterationsLeft].
    rewrite Hc in Hst. cbn [iterationsLeft] in Hst.
    destruct (Z.to_nat (c - (run_i r + 1))) as [|todo] eqn:Hleft;
      cbn [fst snd] in Hst |- *.
    + rewrite Hst.
      rewrite (app_comm_cons _ _ (SetCountdown None)).
      rewrite (app_comm_cons _ _ (SetCountdown (Some (Num 0)))).
      match goal with
      | |- Idle (replay (?pre ++ finishTrace ?imgs) ?s) =>
          destruct (replay_finish pre imgs s) as (_ & H1 & H2 & H3)
      end.
      repeat split; assumption.
    + rewrite Hst.
      match goal with
      | |- context [replay (?a :: ?b :: ?l) ?s] =>
          change (replay (a :: b :: l) s) with (replay ([a; b] ++ l) s)
      end.
      rewrite !replay_app.
      set (s1 := replay [SetCountdown (Some (Num 0)); SetCountdown None]
                   (state w)).
      destruct (replay_shotTrace (shots w) (c_filter (run_env r)) s1)
        as (_ & _ & Hcap' & Himgs').
      set (s2 := replay (shotTrace (shots w) (c_filter (run_env r))) s1) in *.
      assert (Hcap1 : isCapturing s1 = true) by exact Hcap.
      assert (Himgs1 : capturedImages s1 = []) by exact Himgs.
      split; [exact Hon|].
      cbn [run_count run_i run_env run_remaining run_images].
      split; [rewrite <- Hc; exact Hcnt|]. exists c, sec, sec.
      split; [reflexivity|]. split; [exact Hc1|]. split; [lia|].
      split; [exact Hsec|]. split; [reflexivity|]. split; [lia|].
      split; [reflexivity|]. split; [reflexivity|].
      split; [|split].
      * rewrite length_keep.
        destruct (truthy (snapshot (shots w) (c_filter (run_env r)))); lia.
      * cbn. congruence.
      * cbn. congruence.
  - pose proof (tick_wait r w m Hr Hm ltac:(lia)) as E.
    unfold sysOf. rewrite E. cbn [fst snd]. unfold Inv. cbn [runs state].
    split; [exact Hon|]. split; [exact Hcnt|]. exists c, (m - 1), sec.
    cbn. repeat split; try lia; assumption.
Qed.

Lemma Inv_frame (w w' : Sys) :
  runs w' = runs w ->
  countdown (state w') = countdown (state w) ->
  currentPhotoIndex (state w') = currentPhotoIndex (state w) ->
  isCapturing (state w') = isCapturing (state w) ->
  capturedImages (state w') = capturedImages (state w) ->
  Inv w -> Inv w'.
Proof.
  intros Hr H1 H2 H3 H4. unfold Inv, Idle, Suspended.
  rewrite Hr, H1, H2, H3, H4. exact (fun H => H).
Qed.

Lemma perform_Download (href download : string) (w : Sys) :
  perform (Download href download) w = (tt, w, [Download href download]).
Proof. destruct w. reflexivity. Qed.

(** The downloads of [forEachImage]: one per image, in order, numbered
    from [index + 1]. *)
Lemma forEachImage_eq (now : nat -> Z) (l : list string) :
  forall (index : nat) (w : Sys),
    forEachImage now index l w
    = (tt, w,
       map (fun p => Download (snd p)
                       (fileName (now (fst p)) (Z.of_nat (fst p) + 1)))
         (combine (seq index (List.length l)) l)).
Proof.
  induction l as [|image rest IH]; intros index w.
  - reflexivity.
  - cbn [forEachImage]. unfold bind. rewrite perform_Download, IH.
    reflexivity.
Qed.

Lemma downloadPhoto_eq (k : Closure) (now : nat -> Z) (w : Sys) :
  downloadPhoto k now w
  = (tt, w,
     map (fun p => Download (snd p)
                     (fileName (now (fst p)) (Z.of_nat (fst p) + 1)))
       (combine (seq 0 (List.length (c_capturedImages k)))
          (c_capturedImages k))).
Proof.
  unfold downloadPhoto.
  destruct (c_capturedImages k) as [|image rest] eqn:E.
  - reflexivity.
  - cbn [List.length Nat.eqb]. apply forEachImage_eq.
Qed.

Lemma Inv_click (w : Sys) : Inv w -> Inv (sysOf (step ClickCapture w)).
Proof.
  intros HI. destruct (enabled (state w) ClickCapture) eqn:Hen.
  - pose proof (Inv_capture_idle w HI Hen) as Hr.
    pose proof (step_state ClickCapture w) as Hst.
    destruct (timer_cases (timer (state w))) as [Hoff|(Hon & s & Hs & Hs1)].
    + destruct (click_off w Hen Hoff) as (w' & E & Hr' & _).
      unfold sysOf, traceOf in *. rewrite E in Hst |- *. cbn [fst snd] in *.
      unfold Inv. rewrite Hr', Hr, Hst. unfold runTrace.
      rewrite app_comm_cons.
      match goal with
      | |- Idle (replay (?pre ++ finishTrace ?imgs) ?s) =>
          destruct (replay_finish pre imgs s) as (_ & H1 & H2 & H3)
      end.
      repeat split; assumption.
    + destruct (click_timed w s Hen Hon Hs) as (w' & E & Hr' & _).
      unfold sysOf, traceOf in *. rewrite E in Hst |- *. cbn [fst snd] in *.
      unfold Inv. rewrite Hr', Hr. cbn [app]. rewrite Hst.
      destruct (photos_cases (photoCount (state w))) as (c & Hc & Hc1 & _).
      destruct (enabled_capture _ Hen) as [Himgs _].
      split; [exact Hon|]. split; [reflexivity|]. exists c, s, s.
      cbn [run_count run_i run_env run_remaining run_images render c_timer].
      split; [exact Hc|]. split; [exact Hc1|]. split; [lia|].
      split; [exact Hs|]. split; [reflexivity|]. split; [lia|].
      cbn. repeat split; try lia. exact Himgs.
  - unfold step. rewrite Hen. exact HI.
Qed.

Lemma Inv_step (e : Event) (w : Sys) : Inv w -> Inv (sysOf (step e w)).
Proof.
  intros HI. destruct e.
  - apply Inv_click. exact HI.
  - unfold step. destruct (enabled (state w) ClickRetake) eqn:Hen;
      [|exact HI].
    cbn [enabled] in Hen. cbn. unfold Inv in *. cbn.
    destruct (runs w) as [|r [|r' rs]]; [| |exact HI].
    + destruct HI as (H1 & H2 & _). repeat split; assumption.
    + destruct HI as (_ & _ & c & m & sec & H). decompose [and] H.
      match goal with
      | Himgs : capturedImages (state w) = [] |- _ =>
          rewrite Himgs in Hen; discriminate
      end.
  - unfold step. destruct (enabled (state w) (ClickDownload now));
      [|exact HI].
    cbn [invoke]. rewrite downloadPhoto_eq. exact HI.
  - unfold step. destruct (enabled (state w) (SelectFilter v)); [|exact HI].
    apply (Inv_frame w); try reflexivity. exact HI.
  - unfold step. destruct (enabled (state w) (SelectTimer v)); [|exact HI].
    apply (Inv_frame w); try reflexivity. exact HI.
  - unfold step. destruct (enabled (state w) (SelectPhotoCount v));
      [|exact HI].
    apply (Inv_frame w); try reflexivity. exact HI.
  - pose proof HI as HI'. unfold Inv in HI'.
    destruct (runs w) as [|r [|r' rs]] eqn:Hr; [| |contradiction].
    + rewrite (Inv_tick_idle n w Hr). exact HI.
    + destruct n as [|n].
      * apply (Inv_tick r w Hr HI').
      * rewrite (Inv_tick_other n r w Hr). exact HI.
  - unfold step. cbn [enabled invoke]. unfold flashOff.
    destruct (flashTimers w); [exact HI|].
    apply (Inv_frame w); try reflexivity. exact HI.
Qed.

Lemma Inv_exec (evs : list Event) :
  forall w, Inv w -> Inv (sysOf (exec evs w)).
Proof.
  induction evs as [|e rest IH]; intros w HI.
  - exact HI.
  - cbn [exec]. unfold bind.
    pose proof (Inv_step e w HI) as H1. unfold sysOf in *.
    destruct (step e w) as [[[] w1] t1]. cbn [fst snd] in H1.
    specialize (IH w1 H1).
    destruct (exec rest w1) as [[[] w2] t2]. exact IH.
Qed.

(** *** Projections of a trace *)

Lemma flat_map_flat_map {A B C : Type} (g : B -> list C) (h : A -> list B)
    (l : list A) :
  flat_map g (flat_map h l) = flat_map (fun a => flat_map g (h a)) l.
Proof.
  induction l as [|a l IH]; [reflexivity|].
  cbn [flat_map]. rewrite flat_map_app, IH. reflexivity.
Qed.

Lemma project_runTrace {A : Type} (g : Effect -> list A) (cd : list Effect)
    (k0 n : nat) (f : FilterType) :
  flat_map g (runTrace cd k0 n f)
  = g (SetIsCapturing true)
      ++ flat_map (fun j => g (SetCurrentPhotoIndex (Z.of_nat j + 1))
                            ++ flat_map g cd
                            ++ flat_map g (shotTrace (k0 + j) f)) (seq 0 n)
      ++ flat_map g (finishTrace (collected k0 n f [])).
Proof.
  unfold runTrace. cbn [flat_map]. f_equal.
  rewrite flat_map_app, flat_map_flat_map. f_equal.
  apply flat_map_ext. intros j. unfold photoTrace. cbn [flat_map].
  rewrite flat_map_app. reflexivity.
Qed.

Lemma flat_map_singleton {A B : Type} (h : A -> B) (l : list A) :
  flat_map (fun a => [h a]) l = map h l.
Proof. induction l as [|a l IH]; [reflexivity|]. cbn. rewrite IH. reflexivity. Qed.

Lemma map_offset_seq {B : Type} (h : nat -> B) (k0 n : nat) :
  map (fun j => h (k0 + j)%nat) (seq 0 n) = map h (seq k0 n).
Proof.
  revert k0. induction n as [|n IH]; intros k0; [reflexivity|].
  cbn [seq map]. rewrite Nat.add_0_r. f_equal.
  rewrite <- seq_shift, map_map. rewrite <- (IH (S k0)).
  apply map_ext. intros j. f_equal. lia.
Qed.

Lemma captures_shotTrace (k : nat) (f : FilterType) :
  captures (shotTrace k f) = [(k, snapshot k f)].
Proof. unfold shotTrace. destruct (surfaceReady k); reflexivity. Qed.

Lemma indexValues_shotTrace (k : nat) (f : FilterType) :
  indexValues (shotTrace k f) = [].
Proof. unfold shotTrace. destruct (surfaceReady k); reflexivity. Qed.

Lemma countdownValues_shotTrace (k : nat) (f : FilterType) :
  countdownValues (shotTrace k f) = [].
Proof. unfold shotTrace. destruct (surfaceReady k); reflexivity. Qed.

Lemma countdownOf_quiet (t : TimerType) :
  captures (countdownOf t) = [] /\ indexValues (countdownOf t) = [].
Proof. destruct t; split; reflexivity. Qed.

(** The calls of [takePicture] of a run: [n] calls, in call order. *)
Lemma captures_runTrace (t : TimerType) (k0 n : nat) (f : FilterType) :
  captures (runTrace (countdownOf t) k0 n f)
  = map (fun k => (k, snapshot k f)) (seq k0 n).
Proof.
  unfold captures at 1. rewrite project_runTrace.
  destruct (countdownOf_quiet t) as [Hq _]. unfold captures in Hq.
  rewrite Hq. cbn [app flat_map]. rewrite app_nil_r.
  rewrite <- (map_offset_seq (fun k => (k, snapshot k f))).
  rewrite <- flat_map_singleton. apply flat_map_ext. intros j.
  apply captures_shotTrace.
Qed.

(** The photo indices of a run: 1, 2, ..., [n], then the reset to 0. *)
Lemma indexValues_runTrace (t : TimerType) (k0 n : nat) (f : FilterType) :
  indexValues (runTrace (countdownOf t) k0 n f)
  = map (fun j => Z.of_nat j + 1) (seq 0 n) ++ [0].
Proof.
  unfold indexValues at 1. rewrite project_runTrace.
  destruct (countdownOf_quiet t) as [_ Hq]. unfold indexValues in Hq.
  rewrite Hq. cbn [app flat_map]. f_equal.
  rewrite <- flat_map_singleton. apply flat_map_ext. intros j.
  pose proof (indexValues_shotTrace (k0 + j) f) as H.
  unfold indexValues in H. rewrite H. reflexivity.
Qed.

(** A run without a timer gives no number to [setCountdown]. *)
Lemma countdownValues_runTrace_off (k0 n : nat) (f : FilterType) :
  countdownValues (runTrace [] k0 n f) = [].
Proof.
  unfold countdownValues at 1. rewrite project_runTrace.
  cbn [app flat_map]. rewrite app_nil_r.
  induction (seq 0 n) as [|j l IH]; [reflexivity|].
  cbn [flat_map]. rewrite IH, app_nil_r.
  apply countdownValues_shotTrace.
Qed.

Lemma countDown_values (n : nat) :
  countDown n = map (fun d => Z.of_nat n - Z.of_nat d) (seq 0 (S n)).
Proof.
  induction n as [|n IH]; [reflexivity|].
  cbn [countDown]. rewrite IH.
  change (seq 0 (S (S n))) with (0%nat :: seq 1 (S n)).
  cbn [map]. f_equal; try lia.
  rewrite <- seq_shift, map_map. apply map_ext. intros d. lia.
Qed.

Lemma count_occ_countDown (n : nat) (v : Z) :
  count_occ Z.eq_dec (countDown n) v
  = if (0 <=? v) && (v <=? Z.of_nat n) then 1%nat else 0%nat.
Proof.
  induction n as [|n IH].
  - cbn [countDown count_occ].
    destruct (Z.eq_dec 0 v) as [Heq|Hne];
      destruct (Z.leb_spec 0 v), (Z.leb_spec v (Z.of_nat 0)); cbn; lia.
  - cbn [countDown count_occ]. rewrite IH.
    destruct (Z.eq_dec (Z.of_nat (S n)) v) as [Heq|Hne];
      destruct (Z.leb_spec 0 v), (Z.leb_spec v (Z.of_nat n)),
        (Z.leb_spec v (Z.of_nat (S n))); cbn; lia.
Qed.

(** *** The countdown values of one task *)

Lemma countdownValues_app (l1 l2 : list Effect) :
  countdownValues (l1 ++ l2) = countdownValues l1 ++ countdownValues l2.
Proof. apply flat_map_app. Qed.

Lemma countdownValues_downloads (now : nat -> Z) (l : list (nat * string)) :
  countdownValues
    (map (fun p => Download (snd p)
                     (fileName (now (fst p)) (Z.of_nat (fst p) + 1))) l)
  = [].
Proof. induction l as [|p l IH]; [reflexivity|exact IH]. Qed.

Lemma step_countdown_shape (e : Event) (w : Sys) :
  Inv w -> CountdownShape w (traceOf (step e w)).
Proof.
  intros HI. unfold CountdownShape. destruct e.
  - destruct (enabled (state w) ClickCapture) eqn:Hen.
    + pose proof (Inv_capture_idle w HI Hen) as Hr.
      destruct (timer_cases (timer (state w))) as [Hoff|(Hon & s & Hs & Hs1)].
      * destruct (click_off w Hen Hoff) as (w' & E & _).
        left. unfold traceOf. rewrite E. cbn [snd].
        apply countdownValues_runTrace_off.
      * destruct (click_timed w s Hen Hon Hs) as (w' & E & _).
        right. left. unfold traceOf. rewrite E. cbn [snd].
        exists s, [SetIsCapturing true; SetCurrentPhotoIndex 1].
        split; [lia|]. split; reflexivity.
    + left. unfold step. rewrite Hen. reflexivity.
  - left. unfold step. destruct (enabled (state w) ClickRetake); reflexivity.
  - left. unfold step. destruct (enabled (state w) (ClickDownload now));
      [|reflexivity].
    cbn [invoke]. rewrite downloadPhoto_eq. unfold traceOf. cbn [snd].
    apply countdownValues_downloads.
  - left. unfold step.
    destruct (enabled (state w) (SelectFilter v)); reflexivity.
  - left. unfold step.
    destruct (enabled (state w) (SelectTimer v)); reflexivity.
  - left. unfold step.
    destruct (enabled (state w) (SelectPhotoCount v)); reflexivity.
  - unfold Inv in HI.
    destruct (runs w) as [|r [|r' rs]] eqn:Hr; [| |contradiction].
    + left. rewrite (Inv_tick_idle n w Hr). reflexivity.
    + destruct n as [|n];
        [|left; rewrite (Inv_tick_other n r w Hr); reflexivity].
      destruct HI as (Hon & Hcnt & c & m & sec & Hc & Hc1 & Hi & Hsec & Hm
                      & Hm1 & _).
      destruct (Z.eq_dec m 1) as [->|Hne].
      * destruct (tick_fire r w sec Hr Hm Hon Hsec) as (w' & E & _).
        right. right. fold tick. unfold traceOf. rewrite E. cbn [snd].
        eexists _, _. split; [reflexivity|].
        unfold afterCapture.
        destruct (iterationsLeft (run_count r) (run_i r + 1));
          [left; reflexivity|right].
        exists sec. split; [lia|reflexivity].
      * pose proof (tick_wait r w m Hr Hm ltac:(lia)) as E.
        right. left. fold tick. unfold traceOf. rewrite E. cbn [snd].
        exists (m - 1), []. split; [lia|]. split; reflexivity.
  - left. unfold step. cbn [enabled invoke]. unfold flashOff.
    destruct (flashTimers w); reflexivity.
Qed.

(** *** Independence from the selectors *)

Lemma SameRun_refl (w : Sys) : SameRun w w.
Proof. repeat split. Qed.

Lemma SameRun_trans (w1 w2 w3 : Sys) :
  SameRun w1 w2 -> SameRun w2 w3 -> SameRun w1 w3.
Proof.
  unfold SameRun. intros H1 H2. decompose [and] H1. decompose [and] H2.
  repeat split; congruence.
Qed.

Lemma blind_ret {A : Type} (a : A) : Blind (ret a).
Proof. intros w1 w2 H. repeat split; apply H. Qed.

Lemma blind_bind {A B : Type} (m : M A) (f : A -> M B) :
  Blind m -> (forall a, Blind (f a)) -> Blind (bind m f).
Proof.
  intros Hm Hf w1 w2 H. unfold bind.
  specialize (Hm w1 w2 H).
  destruct (m w1) as [[a1 u1] l1], (m w2) as [[a2 u2] l2].
  cbn [fst snd] in Hm. destruct Hm as (<- & <- & Hu).
  specialize (Hf a1 u1 u2 Hu).
  destruct (f a1 u1) as [[b1 v1] k1], (f a1 u2) as [[b2 v2] k2].
  cbn [fst snd] in Hf |- *. destruct Hf as (<- & <- & Hv).
  repeat split; apply Hv.
Qed.

Lemma blind_perform (e : Effect) : runEffect e = true -> Blind (perform e).
Proof.
  intros He w1 w2 H. unfold SameRun in H. decompose [and] H.
  split; [reflexivity|]. split; [reflexivity|].
  destruct e; try discriminate; unfold SameRun; cbn; repeat split;
    assumption.
Qed.

Lemma blind_takePicture (k : Closure) : Blind (takePicture k).
Proof.
  intros w1 w2 H. rewrite !takePicture_eq. cbn [fst snd].
  unfold SameRun in H. decompose [and] H.
  match goal with Hs : shots w1 = shots w2 |- _ => rewrite Hs end.
  split; [reflexivity|]. split; [reflexivity|].
  unfold afterShot.
  match goal with Hs : shots w1 = shots w2 |- _ => rewrite Hs end.
  destruct (surfaceReady (shots w2)); unfold SameRun; cbn; repeat split;
    congruence.
Qed.

Lemma blind_loopFrom (todo : nat) (k : Closure) (count : number) :
  forall i images, Blind (loopFrom todo k count i images).
Proof.
  induction todo as [|todo IH]; intros i images; cbn [loopFrom].
  - unfold finishRun.
    repeat (apply blind_bind; [apply blind_perform; reflexivity|intros _]).
    apply blind_ret.
  - apply blind_bind; [apply blind_perform; reflexivity|intros _].
    destruct (timerOn (c_timer k)).
    + apply blind_bind; [apply blind_perform; reflexivity|intros _].
      apply blind_ret.
    + apply blind_bind; [|intros a; apply IH].
      unfold takeAndPush.
      apply blind_bind; [apply blind_takePicture|intros a; apply blind_ret].
Qed.

Lemma blind_intervalCallback (r : Run) : Blind (intervalCallback r).
Proof.
  unfold intervalCallback.
  apply blind_bind; [apply blind_perform; reflexivity|intros _].
  destruct (leZero (decr (run_remaining r))); [|apply blind_ret].
  apply blind_bind; [apply blind_perform; reflexivity|intros _].
  unfold resumeAfterCountdown.
  apply blind_bind; [|intros a; apply blind_loopFrom].
  unfold takeAndPush.
  apply blind_bind; [apply blind_takePicture|intros a; apply blind_ret].
Qed.

Lemma blind_fireInterval (n : nat) : Blind (fireInterval n).
Proof.
  intros w1 w2 H. unfold fireInterval.
  assert (Hr : runs w1 = runs w2) by apply H. rewrite Hr.
  destruct (nth_error (runs w2) n) as [r|].
  - pose proof (blind_intervalCallback r w1 w2 H) as Hb.
    destruct (intervalCallback r w1) as [[o1 u1] l1],
      (intervalCallback r w2) as [[o2 u2] l2].
    cbn [fst snd] in Hb |- *. destruct Hb as (<- & <- & Hu).
    unfold SameRun in Hu |- *. decompose [and] Hu.
    cbn. repeat split; congruence.
  - repeat split; apply H.
Qed.

Lemma blind_invoke (e : Event) :
  isCapture e = false -> isSelector e = false -> Blind (invoke e).
Proof.
  intros Hc Hs. destruct e; try discriminate.
  - change (Blind retakePhoto). unfold retakePhoto.
    apply blind_bind; [apply blind_perform; reflexivity|intros _].
    apply blind_perform. reflexivity.
  - intros w1 w2 H. cbn [invoke]. rewrite !downloadPhoto_eq.
    cbn [fst snd render c_capturedImages].
    assert (E : capturedImages (state w1) = capturedImages (state w2))
      by apply H.
    rewrite E. repeat split; apply H.
  - intros w1 w2 H. apply blind_fireInterval. exact H.
  - intros w1 w2 H. cbn [invoke]. unfold flashOff.
    assert (E : flashTimers w1 = flashTimers w2) by apply H. rewrite E.
    destruct (flashTimers w2).
    + repeat split; apply H.
    + unfold SameRun in H |- *. decompose [and] H.
      cbn. repeat split; congruence.
Qed.

Lemma selector_invoke (e : Event) (w : Sys) :
  isSelector e = true ->
  SameRun (sysOf (invoke e w)) w
  /\ List.filter runEffect (traceOf (invoke e w)) = [].
Proof.
  intros Hs. destruct e; try discriminate; cbn; repeat split.
Qed.

Lemma selectors_erased (evs : list Event) :
  forall w1 w2,
    SameRun w1 w2 ->
    forallb (fun e => negb (isCapture e)) evs = true ->
    let R1 := invokeAll evs w1 in
    let R2 := invokeAll (List.filter (fun e => negb (isSelector e)) evs) w2 in
    SameRun (sysOf R1) (sysOf R2)
    /\ List.filter runEffect (traceOf R1)
       = List.filter runEffect (traceOf R2).
Proof.
  induction evs as [|e rest IH]; intros w1 w2 H Hno.
  - split; [exact H|reflexivity].
  - cbn [forallb] in Hno. apply andb_prop in Hno. destruct Hno as [He Hno].
    apply negb_true_iff in He.
    cbn [List.filter invokeAll].
    destruct (isSelector e) eqn:Hs; cbn [negb].
    + destruct (selector_invoke e w1 Hs) as [Hsame Htr].
      unfold bind. unfold sysOf, traceOf in Hsame, Htr.
      destruct (invoke e w1) as [[[] u1] l1]. cbn [fst snd] in Hsame, Htr.
      specialize (IH u1 w2 (SameRun_trans _ _ _ Hsame H) Hno).
      cbv zeta in IH. unfold sysOf, traceOf in IH |- *.
      destruct (invokeAll rest u1) as [[[] v1] k1]. cbn [fst snd] in IH |- *.
      rewrite filter_app, Htr. exact IH.
    + cbn [invokeAll]. unfold bind.
      pose proof (blind_invoke e He Hs w1 w2 H) as Hb.
      destruct (invoke e w1) as [[[] u1] l1], (invoke e w2) as [[[] u2] l2].
      cbn [fst snd] in Hb. destruct Hb as (_ & <- & Hu).
      specialize (IH u1 u2 Hu Hno). cbv zeta in IH.
      unfold sysOf, traceOf in IH |- *.
      destruct (invokeAll rest u1) as [[[] v1] k1],
        (invokeAll (List.filter (fun e0 => negb (isSelector e0)) rest) u2)
          as [[[] v2] k2].
      cbn [fst snd] in IH |- *. destruct IH as [Hv Hk].
      split; [exact Hv|]. rewrite !filter_app, Hk. reflexivity.
Qed.

Lemma captures_filter (tr : list Effect) :
  captures (List.filter runEffect tr) = captures tr.
Proof.
  induction tr as [|x tr IH]; [reflexivity|].
  destruct x; cbn [List.filter runEffect]; unfold captures in *;
    cbn [flat_map app]; rewrite ?IH; reflexivity.
Qed.

Lemma countdownValues_filter (tr : list Effect) :
  countdownValues (List.filter runEffect tr) = countdownValues tr.
Proof.
  induction tr as [|x tr IH]; [reflexivity|].
  destruct x; cbn [List.filter runEffect]; unfold countdownValues in *;
    cbn [flat_map app]; rewrite ?IH; reflexivity.
Qed.

Lemma nth_error_combine_seq {A : Type} (l : list A) :
  forall (start k : nat) (x : A),
    nth_error l k = Some x ->
    nth_error (combine (seq start (List.length l)) l) k
    = Some ((start + k)%nat, x).
Proof.
  induction l as [|y l IH]; intros start k x Hk.
  - destruct k; discriminate.
  - destruct k as [|k].
    + cbn in Hk |- *. injection Hk as ->. rewrite Nat.add_0_r. reflexivity.
    + cbn [List.length seq combine nth_error] in Hk |- *.
      rewrite (IH (S start) k x Hk). f_equal. f_equal. lia.
Qed.

(** *** The page at each task boundary of a run *)

Lemma exec_snoc (l : list Event) (e : Event) :
  forall w, sysOf (exec (l ++ [e]) w) = sysOf (step e (sysOf (exec l w))).
Proof.
  induction l as [|a l IH]; intros w; cbn [app exec]; unfold bind.
  - unfold sysOf, ret. cbn [fst snd].
    destruct (step e w) as [[[] w1] t1]. reflexivity.
  - destruct (step a w) as [[[] w1] t1]. specialize (IH w1).
    unfold sysOf in *.
    destruct (exec (l ++ [e]) w1) as [[[] w2] t2],
      (exec l w1) as [[[] w3] t3].
    exact IH.
Qed.

Lemma Counting_wait (w0 w : Sys) (i : nat) (m : Z) :
  Counting w0 i m w -> 2 <= m ->
  Counting w0 i (m - 1) (sysOf (step tick w)).
Proof.
  intros (Hr & Hcd & Hidx & Hcap & Himgs & Hs) Hm.
  pose proof (tick_wait _ w m Hr eq_refl Hm) as E.
  unfold sysOf. rewrite E. cbn [fst snd].
  unfold Counting. cbn. repeat split; assumption.
Qed.

Lemma Counting_fire (w0 w : Sys) (i : nat) (s : Z) :
  Counting w0 i 1 w ->
  timerOn (timer (state w0)) = true ->
  secondsOf (timer (state w0)) = Num s ->
  (S i < photosOf (photoCount (state w0)))%nat ->
  Counting w0 (S i) s (sysOf (step tick w)).
Proof.
  intros (Hr & Hcd & Hidx & Hcap & Himgs & Hs) Hon Hsec Hi.
  destruct (tick_fire _ w s Hr eq_refl Hon Hsec) as (w' & E & Hr' & Hs').
  pose proof (step_state tick w) as Hst.
  unfold sysOf, traceOf in *. rewrite E in Hst |- *. cbn [fst snd] in *.
  unfold afterCapture in Hst, Hr'.
  cbn [run_count run_i run_env run_images render c_filter] in Hst, Hr'.
  destruct (photos_cases (photoCount (state w0))) as (c & Hc & Hc1 & Hn).
  rewrite Hc in Hst, Hr'. cbn [iterationsLeft] in Hst, Hr'.
  destruct (Z.to_nat (c - (Z.of_nat i + 1))) as [|todo] eqn:Hleft; [lia|].
  cbn [fst snd] in Hst, Hr'.
  match type of Hst with
  | _ = replay (?a :: ?b :: ?l) ?st =>
      change (replay (a :: b :: l) st) with (replay ([a; b] ++ l) st) in Hst
  end.
  rewrite !replay_app in Hst.
  set (s1 := replay [SetCountdown (Some (Num 0)); SetCountdown None]
               (state w)) in *.
  destruct (replay_shotTrace (shots w) (filter (state w0)) s1)
    as (_ & _ & Hcap' & Himgs').
  set (s2 := replay (shotTrace (shots w) (filter (state w0))) s1) in *.
  assert (Hcap1 : isCapturing s1 = true) by exact Hcap.
  assert (Himgs1 : capturedImages s1 = []) by exact Himgs.
  unfold Counting. rewrite Hr', Hst, Hc.
  split.
  { rewrite Hs, collected_snoc.
    replace (Z.of_nat i + 1) with (Z.of_nat (S i)) by lia. reflexivity. }
  split; [reflexivity|]. split; [cbn; lia|].
  split; [cbn; congruence|]. split; [cbn; congruence|]. lia.
Qed.

Lemma Counting_start (w : Sys) (s : Z) :
  runs w = [] ->
  enabled (state w) ClickCapture = true ->
  timerOn (timer (state w)) = true ->
  secondsOf (timer (state w)) = Num s ->
  Counting w 0 s (sysOf (step ClickCapture w)).
Proof.
  intros Hr Hen Hon Hs.
  destruct (click_timed w s Hen Hon Hs) as (w' & E & Hr' & Hs').
  pose proof (step_state ClickCapture w) as Hst.
  unfold sysOf, traceOf in *. rewrite E in Hst |- *. cbn [fst snd] in *.
  destruct (enabled_capture _ Hen) as [Himgs _].
  unfold Counting. rewrite Hr', Hr, Hst. cbn.
  repeat split; try assumption. lia.
Qed.

Lemma Counting_reached (w : Sys) (s : Z) :
  runs w = [] ->
  enabled (state w) ClickCapture = true ->
  timerOn (timer (state w)) = true ->
  secondsOf (timer (state w)) = Num s ->
  forall i,
    (i < photosOf (photoCount (state w)))%nat ->
    forall d,
      (d < Z.to_nat s)%nat ->
      Counting w i (s - Z.of_nat d)
        (sysOf (exec (ClickCapture :: repeat tick (i * Z.to_nat s + d)) w)).
Proof.
  intros Hr Hen Hon Hs.
  assert (Hwait : forall k d,
             (S d < Z.to_nat s)%nat ->
             Counting w k (s - Z.of_nat d)
               (sysOf (exec (ClickCapture
                               :: repeat tick (k * Z.to_nat s + d)) w)) ->
             Counting w k (s - Z.of_nat (S d))
               (sysOf (exec (ClickCapture
                               :: repeat tick (k * Z.to_nat s + S d)) w))).
  { intros k d Hd H.
    replace (k * Z.to_nat s + S d)%nat with (S (k * Z.to_nat s + d)) by lia.
    cbn [repeat]. rewrite repeat_cons, app_comm_cons, exec_snoc.
    replace (s - Z.of_nat (S d)) with (s - Z.of_nat d - 1) by lia.
    apply Counting_wait; [exact H|lia]. }
  induction i as [|i IHi]; intros Hi.
  - induction d as [|d IHd]; intros Hd.
    + cbn [Nat.mul Nat.add repeat]. rewrite Z.sub_0_r.
      change [ClickCapture] with ([] ++ [ClickCapture]).
      rewrite exec_snoc. apply Counting_start; assumption.
    + apply Hwait; [exact Hd|]. apply IHd. lia.
  - induction d as [|d IHd]; intros Hd.
    + destruct (Z.to_nat s) as [|p] eqn:Hp; [lia|].
      specialize (IHi ltac:(lia) p ltac:(lia)).
      replace (S i * S p + 0)%nat with (S (i * S p + p)) by lia.
      cbn [repeat]. rewrite repeat_cons, app_comm_cons, exec_snoc.
      rewrite Z.sub_0_r.
      apply Counting_fire; try assumption.
      replace (s - Z.of_nat p) with 1 in IHi by lia. exact IHi.
    + apply Hwait; [exact Hd|]. apply IHd. lia.
Qed.

Lemma pending_until_last_tick (w : Sys) :
  runs w = [] ->
  enabled (state w) ClickCapture = true ->
  let t := timer (state w) in
  let n := photosOf (photoCount (state w)) in
  forall k,
    (k < ticksNeeded t n)%nat ->
    exists i m,
      (i < n)%nat /\ 1 <= m
      /\ Counting w i m (sysOf (exec (ClickCapture :: repeat tick k) w)).
Proof.
  intros Hr Hen t n k Hk.
  destruct (timer_cases t) as [Hoff|(Hon & s & Hs & Hs1)].
  - unfold ticksNeeded in Hk. rewrite Hoff in Hk.
    change (timerOn TimerOff) with false in Hk. cbv iota in Hk. lia.
  - unfold ticksNeeded in Hk. rewrite Hon, Hs in Hk.
    set (p := Z.to_nat s) in *.
    assert (Hp : (0 < p)%nat) by (subst p; lia).
    pose proof (Nat.div_mod_eq k p) as Hdm.
    pose proof (Nat.mod_upper_bound k p ltac:(lia)) as Hmod.
    assert (Hdiv : (k / p < n)%nat)
      by (apply Nat.Div0.div_lt_upper_bound; exact Hk).
    exists (k / p)%nat, (s - Z.of_nat (k mod p)).
    split; [exact Hdiv|]. split; [subst p; lia|].
    replace k with (k / p * p + k mod p)%nat at 3 by lia.
    apply (Counting_reached w s Hr Hen Hon Hs (k / p)%nat Hdiv (k mod p)%nat
             Hmod).
Qed.

Lemma snapshot_unready (k : nat) (f : FilterType) :
  surfaceReady k = false -> snapshot k f = None.
Proof.
  unfold snapshot, surfaceReady. intros H.
  destruct (videoRef (refsAt k)); [|reflexivity].
  destruct (canvasRef (refsAt k)); [|reflexivity].
  rewrite H. reflexivity.
Qed.

Lemma collected_none (n : nat) (f : FilterType) :
  forall k images,
    (forall j, (j < n)%nat -> surfaceReady (k + j) = false) ->
    collected k n f images = images
    /\ map (fun i => (i, snapshot i f)) (seq k n)
       = map (fun i => (i, @None string)) (seq k n).
Proof.
  induction n as [|n IH]; intros k images Hall; [split; reflexivity|].
  pose proof (Hall 0%nat ltac:(lia)) as H0. rewrite Nat.add_0_r in H0.
  destruct (IH (S k) images) as [Hc Hm].
  { intros j Hj. replace (S k + j)%nat with (k + S j)%nat by lia.
    apply Hall. lia. }
  rewrite collected_S. cbn [seq map].
  rewrite (snapshot_unready k f H0), Hm. unfold keep. cbn [truthy].
  split; [exact Hc|reflexivity].
Qed.

Lemma stepUnmounted_state (e : Event) (w : Sys) :
  state (sysOf (stepUnmounted e w)) = state w.
Proof.
  destruct e; try reflexivity; unfold stepUnmounted, unmounted, sysOf.
  - destruct (fireIntervalUnmounted n w) as [[a w'] l]. reflexivity.
  - destruct (flashOff w) as [[a w'] l]. reflexivity.
Qed.

Lemma cam_frozen (evs : list CamEvent) :
  forall c,
    cam_gone c = true ->
    cam_gone (cam_run evs c) = true
    /\ state (cam_page (cam_run evs c)) = state (cam_page c).
Proof.
  induction evs as [|ev rest IH]; intros c Hg; [split; [exact Hg|reflexivity]|].
  cbn [cam_run].
  assert (H : cam_gone (cam_step ev c) = true
              /\ state (cam_page (cam_step ev c)) = state (cam_page c)).
  { destruct ev as [e|o| |]; cbn [cam_step]; rewrite ?Hg.
    - split; [reflexivity|apply stepUnmounted_state].
    - destruct (cam_settled c); [|destruct o];
        (split; [first [exact Hg|reflexivity]|reflexivity]).
    - split; [first [exact Hg|reflexivity]|reflexivity].
    - split; [first [exact Hg|reflexivity]|reflexivity]. }
  destruct H as [Hg' Hst]. destruct (IH _ Hg') as [Hg'' Hst'].
  split; [exact Hg''|]. rewrite Hst'. exact Hst.
Qed.

(** ** The claims *)

(** C1, amended. For every photo count in [1,4] and every run started from
    the capture button in which every call of [takePicture] returns an
    image, the run ends with a batch of exactly that many images; the
    calls are made in increasing order and the batch lists their images in
    the same order, the image of call [k] before that of call [k+1]. *)
Theorem batch_of_successful_run (w : Sys) :
  runs w = [] ->
  enabled (state w) ClickCapture = true ->
  let t := timer (state w) in
  let n := photosOf (photoCount (state w)) in
  let f := filter (state w) in
  (forall j, (j < n)%nat -> truthy (snapshot (shots w + j) f) = true) ->
  let R := exec (ClickCapture :: repeat tick (ticksNeeded t n)) w in
  (1 <= n <= 4)%nat
  /\ runs (sysOf R) = []
  /\ isCapturing (state (sysOf R)) = false
  /\ captures (traceOf R) = map (fun k => (k, snapshot k f)) (seq (shots w) n)
  /\ capturedImages (state (sysOf R)) = map (imageOf f) (seq (shots w) n)
  /\ List.length (capturedImages (state (sysOf R))) = n.
Proof.
  intros Hr Hen t n f Hall R.
  destruct (run_outcome w Hr Hen)
    as (Htr & Hruns & _ & Himgs & Hcap & _ & _).
  fold t n f R in Htr, Hruns, Himgs, Hcap.
  destruct (photos_cases (photoCount (state w))) as (c & _ & Hc & Hn).
  fold n in Hn.
  split; [lia|]. split; [exact Hruns|]. split; [exact Hcap|].
  split; [rewrite Htr; apply captures_runTrace|].
  assert (E : capturedImages (state (sysOf R))
              = map (imageOf f) (seq (shots w) n)).
  { rewrite Himgs. apply (collected_all n f (shots w) [] Hall). }
  split; [exact E|]. rewrite E, length_map, length_seq. reflexivity.
Qed.

(** C3, amended. When a call of [takePicture] finds the frame-grabbing
    surface missing, that call returns nothing and adds no image, and the
    run does not abort: it stays pending, with the page capturing, up to
    its last tick, all its calls are made, and only then the page goes
    back to rest, with the images of the calls that succeeded. On the
    mounted page the surface is the same at every call of a run: then
    every call fails, the batch handed to the page is empty and the page
    stays in live mode with the capture button live, so a smaller batch is
    never shown. Once the page has unmounted no setter changes it. *)
Theorem failed_capture_is_skipped (w : Sys) (j : nat) :
  runs w = [] ->
  enabled (state w) ClickCapture = true ->
  let t := timer (state w) in
  let n := photosOf (photoCount (state w)) in
  let f := filter (state w) in
  (j < n)%nat ->
  surfaceReady (shots w + j) = false ->
  let R := exec (ClickCapture :: repeat tick (ticksNeeded t n)) w in
  In ((shots w + j)%nat, None) (captures (traceOf R))
  /\ List.length (captures (traceOf R)) = n
  /\ (forall k, (k < ticksNeeded t n)%nat ->
        let wk := sysOf (exec (ClickCapture :: repeat tick k) w) in
        runs wk <> [] /\ isCapturing (state wk) = true
        /\ capturedImages (state wk) = [])
  /\ runs (sysOf R) = []
  /\ isCapturing (state (sysOf R)) = false
  /\ currentPhotoIndex (state (sysOf R)) = 0
  /\ countdown (state (sysOf R)) = None
  /\ capturedImages (state (sysOf R)) = collected (shots w) n f []
  /\ (List.length (capturedImages (state (sysOf R))) < n)%nat
  /\ ((forall k, (k < n)%nat ->
         surfaceReady (shots w + k) = surfaceReady (shots w + j)) ->
      captures (traceOf R) = map (fun k => (k, None)) (seq (shots w) n)
      /\ capturedImages (state (sysOf R)) = []
      /\ enabled (state (sysOf R)) ClickCapture = true
      /\ enabled (state (sysOf R)) ClickRetake = false)
  /\ (forall (c : Cam) (evs : list CamEvent),
        cam_gone c = true ->
        state (cam_page (cam_run evs c)) = state (cam_page c)).
Proof.
  intros Hr Hen t n f Hj Hbad R.
  destruct (run_outcome w Hr Hen)
    as (Htr & Hruns & _ & Himgs & Hcap & Hidx & Hcd).
  fold t n f R in Htr, Hruns, Himgs, Hcap, Hidx, Hcd.
  pose proof (snapshot_unready (shots w + j) f Hbad) as Hnone.
  rewrite Htr, captures_runTrace.
  split.
  { rewrite <- Hnone.
    apply (in_map (fun k => (k, snapshot k f))).
    apply in_seq. lia. }
  split; [rewrite length_map, length_seq; reflexivity|].
  split.
  { intros k Hk wk.
    destruct (pending_until_last_tick w Hr Hen k Hk)
      as (i & m & _ & _ & Hrun & _ & _ & Hc & Hi & _).
    fold wk in Hrun, Hc, Hi. rewrite Hrun.
    split; [discriminate|]. split; [exact Hc|exact Hi]. }
  split; [exact Hruns|]. split; [exact Hcap|]. split; [exact Hidx|].
  split; [exact Hcd|]. split; [exact Himgs|].
  split.
  { rewrite Himgs, length_collected. cbn [List.length].
    apply (successes_lt n f (shots w) j Hj).
    rewrite Hnone. reflexivity. }
  split.
  { intros Hsame.
    destruct (collected_none n f (shots w) []) as [Hc Hm].
    { intros k Hk. rewrite (Hsame k Hk). exact Hbad. }
    split; [exact Hm|].
    assert (E : capturedImages (state (sysOf R)) = [])
      by (rewrite Himgs; exact Hc).
    split; [exact E|]. cbn [enabled]. rewrite E, Hcap. split; reflexivity. }
  intros c evs Hg. apply (cam_frozen evs c Hg).
Qed.

(** C4, amended. With a timer of [s > 0] seconds, the effects of a run
    are, for each photo in turn, its index, then one countdown in which
    [setCountdown] is given [s], [s-1], ..., [0] (each value once, so [s]
    and [0] once each), then the overlay cleared and the call of
    [takePicture]; this holds for every photo of the batch, not only the
    first. At the task boundaries the cell, which is what the overlay
    shows, holds [s], [s-1], ..., [1] before each photo, one value for a
    second each; it is what the setters made it, and it never holds 0:
    the task that sets 0 clears the cell and takes the photo. *)
Theorem countdown_before_every_photo (w : Sys) (s : Z) :
  runs w = [] ->
  enabled (state w) ClickCapture = true ->
  timerOn (timer (state w)) = true ->
  secondsOf (timer (state w)) = Num s ->
  let t := timer (state w) in
  let n := photosOf (photoCount (state w)) in
  let f := filter (state w) in
  let R := exec (ClickCapture :: repeat tick (ticksNeeded t n)) w in
  0 < s
  /\ traceOf R
     = SetIsCapturing true
         :: flat_map
              (fun j =>
                 SetCurrentPhotoIndex (Z.of_nat j + 1)
                   :: (map (fun v => SetCountdown (Some (Num v)))
                         (countDown (Z.to_nat s))
                       ++ [SetCountdown None])
                   ++ shotTrace (shots w + j) f)
              (seq 0 n)
         ++ finishTrace (collected (shots w) n f [])
  /\ countDown (Z.to_nat s)
     = map (fun d => s - Z.of_nat d) (seq 0 (S (Z.to_nat s)))
  /\ count_occ Z.eq_dec (countDown (Z.to_nat s)) s = 1%nat
  /\ count_occ Z.eq_dec (countDown (Z.to_nat s)) 0 = 1%nat
  /\ (forall i d,
        (i < n)%nat -> (d < Z.to_nat s)%nat ->
        let wk := sysOf (exec (ClickCapture
                                 :: repeat tick (i * Z.to_nat s + d)) w) in
        countdown (state wk) = Some (Num (s - Z.of_nat d))
        /\ currentPhotoIndex (state wk) = Z.of_nat i + 1
        /\ shots wk = (shots w + i)%nat)
  /\ (forall k,
        (k <= ticksNeeded t n)%nat ->
        let Rk := exec (ClickCapture :: repeat tick k) w in
        state (sysOf Rk) = replay (traceOf Rk) (state w)
        /\ countdown (state (sysOf Rk)) <> Some (Num 0))
  /\ countdown (state (sysOf R)) = None
  /\ shots (sysOf R) = (shots w + n)%nat.
Proof.
  intros Hr Hen Hon Hs t n f R.
  destruct (run_outcome w Hr Hen) as (Htr & _ & Hshots & _ & _ & _ & Hcd).
  fold t n f R in Htr, Hshots, Hcd.
  assert (Hs1 : 1 <= s).
  { destruct (timer_cases t) as [Hoff|(_ & s' & Hs' & Hs1)].
    - fold t in Hon. rewrite Hoff in Hon. discriminate.
    - fold t in Hs. rewrite Hs in Hs'. injection Hs' as <-. lia. }
  split; [lia|]. split.
  { rewrite Htr. unfold countdownOf. fold t in Hon, Hs. rewrite Hon, Hs.
    reflexivity. }
  split.
  { rewrite countDown_values. apply map_ext. intros d. lia. }
  split; [|split].
  1, 2: rewrite count_occ_countDown;
    destruct (Z.leb_spec 0 s), (Z.leb_spec s (Z.of_nat (Z.to_nat s))),
      (Z.leb_spec 0 (Z.of_nat (Z.to_nat s))); cbn; try lia; reflexivity.
  split.
  { intros i d Hi Hd wk.
    destruct (Counting_reached w s Hr Hen Hon Hs i Hi d Hd)
      as (_ & Hc & Hidx & _ & _ & Hsh).
    fold wk in Hc, Hidx, Hsh.
    split; [exact Hc|]. split; [exact Hidx|exact Hsh]. }
  split.
  { intros k Hk Rk. split; [apply traced_exec|].
    destruct (Nat.eq_dec k (ticksNeeded t n)) as [->|Hne].
    - subst Rk. fold R. rewrite Hcd. discriminate.
    - destruct (pending_until_last_tick w Hr Hen k ltac:(fold t n; lia))
        as (i & m & _ & Hm & _ & Hc & _).
      fold Rk in Hc. rewrite Hc. intros E. injection E as E. lia. }
  split; [exact Hcd|exact Hshots].
Qed.

(** C6. With the timer off, the click on the capture button runs the whole
    batch inside its own task: nothing is left pending, every photo index
    is followed at once by the call of [takePicture], and no number is
    ever given to [setCountdown]; the cell stays empty. *)
Theorem no_countdown_without_timer (w : Sys) :
  runs w = [] ->
  enabled (state w) ClickCapture = true ->
  timer (state w) = TimerOff ->
  let n := photosOf (photoCount (state w)) in
  let f := filter (state w) in
  let R := step ClickCapture w in
  runs (sysOf R) = []
  /\ traceOf R
     = SetIsCapturing true
         :: flat_map
              (fun j =>
                 SetCurrentPhotoIndex (Z.of_nat j + 1)
                   :: shotTrace (shots w + j) f)
              (seq 0 n)
         ++ finishTrace (collected (shots w) n f [])
  /\ countdownValues (traceOf R) = []
  /\ List.length (captures (traceOf R)) = n
  /\ countdown (state (sysOf R)) = None.
Proof.
  intros Hr Hen Hoff n f R.
  destruct (click_off w Hen Hoff) as (w' & E & Hr' & _).
  pose proof (step_state ClickCapture w) as Hst.
  subst R. fold n f in E. unfold sysOf, traceOf in *.
  rewrite E in Hst |- *. cbn [fst snd] in *.
  split; [congruence|]. split; [reflexivity|].
  split; [apply countdownValues_runTrace_off|].
  split.
  { pose proof (captures_runTrace TimerOff (shots w) n f) as H.
    change (countdownOf TimerOff) with (@nil Effect) in H.
    rewrite H, length_map, length_seq. reflexivity. }
  rewrite Hst. unfold runTrace. rewrite app_comm_cons.
  apply replay_finish.
Qed.

(** C10. Every run ends, after at most forty ticks, and its last effects
    are the resets: the batch is stored, [isCapturing] becomes false,
    [currentPhotoIndex] 0 and [countdown] null, whatever the calls of
    [takePicture] returned. *)
Theorem run_ends_with_reset (w : Sys) :
  runs w = [] ->
  enabled (state w) ClickCapture = true ->
  let t := timer (state w) in
  let n := photosOf (photoCount (state w)) in
  let R := exec (ClickCapture :: repeat tick (ticksNeeded t n)) w in
  (ticksNeeded t n <= 40)%nat
  /\ runs (sysOf R) = []
  /\ isCapturing (state (sysOf R)) = false
  /\ currentPhotoIndex (state (sysOf R)) = 0
  /\ countdown (state (sysOf R)) = None
  /\ exists pre images,
      traceOf R
      = pre ++ [SetCapturedImages images; SetIsCapturing false;
                SetCurrentPhotoIndex 0; SetCountdown None].
Proof.
  intros Hr Hen t n R.
  destruct (run_outcome w Hr Hen)
    as (Htr & Hruns & _ & _ & Hcap & Hidx & Hcd).
  fold t n R in Htr, Hruns, Hcap, Hidx, Hcd.
  split.
  { unfold n, t.
    destruct (timer (state w)), (photoCount (state w)); vm_compute;
      repeat constructor. }
  split; [exact Hruns|]. split; [exact Hcap|]. split; [exact Hidx|].
  split; [exact Hcd|].
  rewrite Htr. unfold runTrace. rewrite app_comm_cons.
  eexists _, _. reflexivity.
Qed.

(** C2, amended. While a run is pending the capture button is disabled:
    a click on it calls no handler, so the state of the page and of the
    pending run is left as it is and no second run starts; there is never
    more than one run pending. ([capturePhoto] itself has no guard and
    signals no condition.) *)
Theorem click_ignored_while_capturing (evs : list Event) :
  let w := sysOf (exec evs initialSys) in
  runs w <> [] ->
  isCapturing (state w) = true
  /\ enabled (state w) ClickCapture = false
  /\ step ClickCapture w = (tt, w, [])
  /\ List.length (runs w) = 1%nat.
Proof.
  intros w Hr.
  pose proof (Inv_exec evs initialSys Inv_initial) as HI. fold w in HI.
  unfold Inv in HI. destruct (runs w) as [|r [|r' rs]] eqn:E;
    [contradiction| |contradiction].
  destruct HI as (_ & _ & c & m & sec & H). decompose [and] H.
  assert (Hen : enabled (state w) ClickCapture = false).
  { cbn [enabled].
    match goal with Hcap : isCapturing (state w) = true |- _ =>
      rewrite Hcap end.
    apply andb_false_r. }
  split; [assumption|]. split; [exact Hen|].
  split; [unfold step; rewrite Hen; reflexivity|reflexivity].
Qed.

(** C5. At every task boundary the countdown cell is empty or holds a
    number that is at least 1; every number given to [setCountdown] is a
    non-negative integer; and a task that gives it 0 is the interval
    callback that, in that same task, clears the cell and calls
    [takePicture]. *)
Theorem countdown_zero_is_transient (evs : list Event) (e : Event) :
  let w := sysOf (exec evs initialSys) in
  let tr := traceOf (step e w) in
  (countdown (state w) = None
   \/ exists m, countdown (state w) = Some (Num m) /\ 1 <= m)
  /\ Forall (fun v => exists z, v = Num z /\ 0 <= z) (countdownValues tr)
  /\ (In (Num 0) (countdownValues tr) ->
      exists f rest,
        tr = SetCountdown (Some (Num 0)) :: SetCountdown None
               :: shotTrace (shots w) f ++ rest).
Proof.
  intros w tr.
  pose proof (Inv_exec evs initialSys Inv_initial) as HI. fold w in HI.
  split.
  { unfold Inv in HI. destruct (runs w) as [|r [|r' rs]]; [| |contradiction].
    - left. apply HI.
    - right. destruct HI as (_ & _ & c & m & sec & H). decompose [and] H.
      exists m. split; [assumption|lia]. }
  destruct (step_countdown_shape e w HI)
    as [Hnone|[(m & pre & Hm & Htr & Hpre)|(f & rest & Htr & Hrest)]];
    fold tr in Hnone || fold tr in Htr.
  - rewrite Hnone. split; [constructor|]. intros [].
  - rewrite Htr, countdownValues_app, Hpre. cbn.
    split.
    + constructor; [|constructor]. exists m. split; [reflexivity|lia].
    + intros [H|[]]. injection H as H. lia.
  - split.
    + rewrite Htr.
      change (SetCountdown (Some (Num 0)) :: SetCountdown None
                :: shotTrace (shots w) f ++ rest)
        with ([SetCountdown (Some (Num 0)); SetCountdown None]
                ++ shotTrace (shots w) f ++ rest).
      rewrite !countdownValues_app, countdownValues_shotTrace.
      cbn [countdownValues flat_map app].
      constructor; [exists 0; split; [reflexivity|lia]|].
      destruct Hrest as [->|(sec & Hsec & ->)]; [constructor|].
      constructor; [|constructor]. exists sec. split; [reflexivity|lia].
    + intros _. exists f, rest. exact Htr.
Qed.

(** C7. In every state the page can reach, a pending run for [c] photos
    has its photo index in [1, c], one more than the photos taken so far,
    and holds fewer images than that index; and over a whole run the index
    takes the values 1, 2, ..., [c], each one more than the one before
    (then the reset to 0), and the batch has at most [c] images. *)
Theorem index_and_results_bounded (evs : list Event) :
  let w := sysOf (exec evs initialSys) in
  (forall r, In r (runs w) ->
     exists c,
       run_count r = Num c
       /\ run_count r = countOf (c_photoCount (run_env r))
       /\ 1 <= currentPhotoIndex (state w) <= c
       /\ currentPhotoIndex (state w) = run_i r + 1
       /\ Z.of_nat (List.length (run_images r)) < currentPhotoIndex (state w))
  /\ (enabled (state w) ClickCapture = true ->
      let t := timer (state w) in
      let n := photosOf (photoCount (state w)) in
      let R := exec (ClickCapture :: repeat tick (ticksNeeded t n)) w in
      countOf (photoCount (state w)) = Num (Z.of_nat n)
      /\ indexValues (traceOf R) = map (fun j => Z.of_nat j + 1) (seq 0 n) ++ [0]
      /\ (List.length (capturedImages (state (sysOf R))) <= n)%nat).
Proof.
  intros w.
  pose proof (Inv_exec evs initialSys Inv_initial) as HI. fold w in HI.
  split.
  - intros r Hin. unfold Inv in HI.
    destruct (runs w) as [|r0 [|r' rs]]; [destruct Hin| |contradiction].
    destruct Hin as [<-|[]].
    destruct HI as (_ & Hcnt & c & m & sec & H). decompose [and] H.
    exists c. repeat split; try assumption; lia.
  - intros Hen t n R.
    pose proof (Inv_capture_idle w HI Hen) as Hr.
    destruct (run_outcome w Hr Hen) as (Htr & _ & _ & Himgs & _).
    fold t n R in Htr, Himgs.
    destruct (photos_cases (photoCount (state w))) as (c & Hc & Hc1 & Hn).
    fold n in Hn.
    split; [rewrite Hc; f_equal; lia|].
    split; [rewrite Htr; apply indexValues_runTrace|].
    rewrite Himgs, length_collected. cbn [List.length].
    apply successes_le.
Qed.

(** C8. The run closes over the filter, the timer and the count of the
    render in which the capture button was clicked. Whatever selector
    handlers are called afterwards (also those the page disables), the run
    is the same as without them: the same pending run, the same calls of
    [takePicture] with the same images, the same countdown values, the
    same batch; only the selector cells differ. *)
Theorem selectors_read_at_click (w : Sys) (evs : list Event) :
  forallb (fun e => negb (isCapture e)) evs = true ->
  let R1 := invokeAll (ClickCapture :: evs) w in
  let R2 := invokeAll
              (ClickCapture
                 :: List.filter (fun e => negb (isSelector e)) evs) w in
  SameRun (sysOf R1) (sysOf R2)
  /\ List.filter runEffect (traceOf R1) = List.filter runEffect (traceOf R2)
  /\ captures (traceOf R1) = captures (traceOf R2)
  /\ countdownValues (traceOf R1) = countdownValues (traceOf R2).
Proof.
  intros Hno R1 R2.
  assert (Hmain : SameRun (sysOf R1) (sysOf R2)
                  /\ List.filter runEffect (traceOf R1)
                     = List.filter runEffect (traceOf R2)).
  { subst R1 R2. cbn [invokeAll]. unfold bind.
    destruct (invoke ClickCapture w) as [[[] u] l].
    pose proof (selectors_erased evs u u (SameRun_refl u) Hno) as H.
    cbv zeta in H. unfold sysOf, traceOf in H |- *.
    destruct (invokeAll evs u) as [[[] v1] k1],
      (invokeAll (List.filter (fun e => negb (isSelector e)) evs) u)
        as [[[] v2] k2].
    cbn [fst snd] in H |- *. destruct H as [Hv Hk].
    split; [exact Hv|]. rewrite !filter_app, Hk. reflexivity. }
  destruct Hmain as [Hsame Htr]. split; [exact Hsame|].
  split; [exact Htr|].
  split.
  - rewrite <- (captures_filter (traceOf R1)),
      <- (captures_filter (traceOf R2)), Htr. reflexivity.
  - rewrite <- (countdownValues_filter (traceOf R1)),
      <- (countdownValues_filter (traceOf R2)), Htr. reflexivity.
Qed.

(** C9. In review mode the download button hands each image of the batch
    to the download mechanism once, in batch order; the k-th image
    (counted from 1) is saved as
    [vintage-photo-<timestamp>-<k>.png], the timestamp being what
    [Date.now()] returns at that image and [<k>] the decimal numeral of
    its position, and the page and the sequencing state are left as they
    are. *)
Theorem download_each_image_in_order (w : Sys) (now : nat -> Z) :
  capturedImages (state w) <> [] ->
  let R := step (ClickDownload now) w in
  sysOf R = w
  /\ List.length (traceOf R) = List.length (capturedImages (state w))
  /\ (forall k image,
        nth_error (capturedImages (state w)) k = Some image ->
        exists timestamp index,
          nth_error (traceOf R) k
          = Some (Download image
                    ("vintage-photo-" ++ timestamp ++ "-" ++ index ++ ".png"))
          /\ timestamp = showZ (now k)
          /\ index = showZ (Z.of_nat k + 1)
          /\ parseInt index = Num (Z.of_nat k + 1)).
Proof.
  intros Hne R.
  assert (E : R = (tt, w,
                   map (fun p => Download (snd p)
                                   (fileName (now (fst p))
                                      (Z.of_nat (fst p) + 1)))
                     (combine (seq 0 (List.length (capturedImages (state w))))
                        (capturedImages (state w))))).
  { subst R. unfold step. cbn [enabled].
    destruct (capturedImages (state w)) as [|x l] eqn:Himgs;
      [contradiction|].
    cbn [List.length Nat.eqb negb invoke]. rewrite downloadPhoto_eq.
    cbn [render c_capturedImages]. rewrite Himgs. reflexivity. }
  rewrite E. unfold sysOf, traceOf. cbn [fst snd].
  split; [reflexivity|]. split.
  - rewrite length_map, length_combine, length_seq. apply Nat.min_id.
  - intros k image Hk.
    exists (showZ (now k)), (showZ (Z.of_nat k + 1)).
    split; [|split; [reflexivity|split; [reflexivity|]]].
    + rewrite nth_error_map.
      rewrite (nth_error_combine_seq _ 0%nat k image Hk). reflexivity.
    + apply parseInt_showZ. lia.
Qed.

(** ** Further properties of the page *)

(** X1. In a run with a timer of [s] seconds, after the click and
    [i * s + (s - m)] ticks (photo [i+1] of the batch, [1 <= m <= s]) the
    run is still pending, the overlay shows the countdown [m] and the
    photo index [i+1], the page is still in live mode, and exactly [i]
    calls of [takePicture] have been made, whose images the run holds. *)
Theorem countdown_progress (w : Sys) (s : Z) (i : nat) (m : Z) :
  runs w = [] ->
  enabled (state w) ClickCapture = true ->
  timerOn (timer (state w)) = true ->
  secondsOf (timer (state w)) = Num s ->
  (i < photosOf (photoCount (state w)))%nat ->
  1 <= m <= s ->
  let k := (i * Z.to_nat s + Z.to_nat (s - m))%nat in
  let w' := sysOf (exec (ClickCapture :: repeat tick k) w) in
  (k < ticksNeeded (timer (state w)) (photosOf (photoCount (state w))))%nat
  /\ runs w'
     = [mkRun (render (state w)) (countOf (photoCount (state w)))
          (Z.of_nat i) (collected (shots w) i (filter (state w)) []) (Num m)]
  /\ countdown (state w') = Some (Num m)
  /\ currentPhotoIndex (state w') = Z.of_nat i + 1
  /\ isCapturing (state w') = true
  /\ capturedImages (state w') = []
  /\ shots w' = (shots w + i)%nat.
Proof.
  intros Hr Hen Hon Hs Hi Hm k w'.
  split.
  { unfold ticksNeeded. rewrite Hon, Hs. subst k. nia. }
  pose proof (Counting_reached w s Hr Hen Hon Hs i Hi (Z.to_nat (s - m))
                ltac:(lia)) as H.
  replace (s - Z.of_nat (Z.to_nat (s - m))) with m in H by lia.
  exact H.
Qed.

Lemma exec_cons_parts (e : Event) (l : list Event) (w : Sys) :
  exec (e :: l) w
  = (tt, sysOf (exec l (sysOf (step e w))),
     traceOf (step e w) ++ traceOf (exec l (sysOf (step e w)))).
Proof.
  cbn [exec]. unfold bind, sysOf, traceOf.
  destruct (step e w) as [[[] w1] t1]. cbn [fst snd].
  destruct (exec l w1) as [[[] w2] t2]. reflexivity.
Qed.

(** X2. The mode of the page after a run: the batch has as many images as
    calls of [takePicture] that returned one; when none did the page stays
    in live mode with the capture button live again, otherwise it shows
    the batch with retake and download and no capture button. *)
Theorem mode_after_run (w : Sys) :
  runs w = [] ->
  enabled (state w) ClickCapture = true ->
  let t := timer (state w) in
  let n := photosOf (photoCount (state w)) in
  let f := filter (state w) in
  let w' := sysOf (exec (ClickCapture :: repeat tick (ticksNeeded t n)) w) in
  let got := successes (shots w) n f in
  List.length (capturedImages (state w')) = got
  /\ enabled (state w') ClickCapture = (got =? 0)%nat
  /\ enabled (state w') ClickRetake = negb (got =? 0)%nat
  /\ (forall now, enabled (state w') (ClickDownload now) = negb (got =? 0)%nat)
  /\ (forall v, enabled (state w') (SelectFilter v) = (got =? 0)%nat).
Proof.
  intros Hr Hen t n f w' got.
  destruct (run_outcome w Hr Hen) as (_ & _ & _ & Himgs & Hcap & _).
  fold t n f in Himgs, Hcap. fold w' in Himgs, Hcap.
  assert (Hlen : List.length (capturedImages (state w')) = got).
  { rewrite Himgs, length_collected. reflexivity. }
  cbn [enabled]. rewrite Hlen, Hcap. cbn [negb].
  rewrite andb_true_r. repeat split.
Qed.

Lemma batch_bound_step (e : Event) (w : Sys) :
  Inv w ->
  (List.length (capturedImages (state w)) <= 4)%nat ->
  (List.length (capturedImages (state (sysOf (step e w)))) <= 4)%nat.
Proof.
  intros HI Hb.
  pose proof (Inv_step e w HI) as HI'.
  destruct (runs (sysOf (step e w))) as [|r' [|r'' rs']] eqn:Hr';
    unfold Inv in HI'; rewrite Hr' in HI'; [| |contradiction].
  2:{ destruct HI' as (_ & _ & c & m & sec & H). decompose [and] H.
      match goal with
      | Himgs : capturedImages _ = [] |- _ => rewrite Himgs
      end.
      cbn. lia. }
  clear HI'. destruct e.
  - destruct (enabled (state w) ClickCapture) eqn:Hen;
      [|unfold step; rewrite Hen; exact Hb].
    pose proof (Inv_capture_idle w HI Hen) as Hr.
    pose proof (step_state ClickCapture w) as Hst.
    destruct (timer_cases (timer (state w))) as [Hoff|(Hon & s & Hs & Hs1)].
    + destruct (click_off w Hen Hoff) as (w' & E & _).
      unfold sysOf, traceOf in *. rewrite E in Hst |- *. cbn [fst snd] in *.
      rewrite Hst. unfold runTrace. rewrite app_comm_cons.
      match goal with
      | |- context [replay (?pre ++ finishTrace ?imgs) ?st] =>
          destruct (replay_finish pre imgs st) as (Hi & _)
      end.
      rewrite Hi, length_collected. cbn [List.length].
      pose proof (successes_le (shots w) (photosOf (photoCount (state w)))
                    (filter (state w))) as Hle.
      destruct (photos_cases (photoCount (state w))) as (c & _ & Hc & Hn).
      lia.
    + destruct (click_timed w s Hen Hon Hs) as (w' & E & Hrw & _).
      unfold sysOf in Hr'. rewrite E in Hr'. cbn [fst snd] in Hr'.
      rewrite Hrw, Hr in Hr'. discriminate.
  - unfold step. destruct (enabled (state w) ClickRetake); [|exact Hb].
    cbn. lia.
  - unfold step. destruct (enabled (state w) (ClickDownload now));
      [|exact Hb].
    cbn [invoke]. rewrite downloadPhoto_eq. exact Hb.
  - unfold step. destruct (enabled (state w) (SelectFilter v)); exact Hb.
  - unfold step. destruct (enabled (state w) (SelectTimer v)); exact Hb.
  - unfold step. destruct (enabled (state w) (SelectPhotoCount v));
      exact Hb.
  - unfold Inv in HI.
    destruct (runs w) as [|r [|r2 rs]] eqn:Hr; [| |contradiction].
    + rewrite (Inv_tick_idle n w Hr). exact Hb.
    + destruct n as [|n]; [|rewrite (Inv_tick_other n r w Hr); exact Hb].
      destruct HI as (Hon & Hcnt & c & m & sec & Hc & Hc1 & Hi & Hsec & Hm
                      & Hm1 & Hcd & Hidx & Hlen & Hcap & Himgs).
      destruct (Z.eq_dec m 1) as [->|Hne].
      * destruct (tick_fire r w sec Hr Hm Hon Hsec) as (w' & E & Hrw & _).
        pose proof (step_state tick w) as Hst.
        fold tick in Hr' |- *.
        unfold sysOf, traceOf in *. rewrite E in Hst, Hr' |- *.
        cbn [fst snd] in *.
        unfold afterCapture in Hst, Hrw.
        destruct (iterationsLeft (run_count r) (run_i r + 1));
          cbn [fst snd] in Hst, Hrw; [|rewrite Hrw in Hr'; discriminate].
        rewrite Hst.
        rewrite (app_comm_cons _ _ (SetCountdown None)).
        rewrite (app_comm_cons _ _ (SetCountdown (Some (Num 0)))).
        match goal with
        | |- context [replay (?pre ++ finishTrace ?imgs) ?st] =>
            destruct (replay_finish pre imgs st) as (Him & _)
        end.
        rewrite Him, length_keep.
        destruct (truthy (snapshot (shots w) (c_filter (run_env r)))); lia.
      * pose proof (tick_wait r w m Hr Hm ltac:(lia)) as E.
        fold tick in Hr'. unfold sysOf in Hr'. rewrite E in Hr'.
        discriminate.
  - unfold step. cbn [enabled invoke]. unfold flashOff.
    destruct (flashTimers w); exact Hb.
Qed.

Lemma batch_bound_exec (evs : list Event) :
  forall w,
    Inv w ->
    (List.length (capturedImages (state w)) <= 4)%nat ->
    (List.length (capturedImages (state (sysOf (exec evs w)))) <= 4)%nat.
Proof.
  induction evs as [|e rest IH]; intros w HI Hb.
  - exact Hb.
  - rewrite exec_cons_parts. unfold sysOf at 1. cbn [fst snd].
    apply IH; [apply Inv_step; exact HI|apply batch_bound_step; assumption].
Qed.

(** X3. In every state the page can reach the batch shown has at most four
    images, and whenever it shows a batch no run is pending: the
    sequencing cells are at rest, the capture button and the selectors are
    not rendered, retake and download are. *)
Theorem review_means_idle (evs : list Event) :
  let w := sysOf (exec evs initialSys) in
  (List.length (capturedImages (state w)) <= 4)%nat
  /\ (capturedImages (state w) <> [] ->
      runs w = []
      /\ isCapturing (state w) = false
      /\ countdown (state w) = None
      /\ currentPhotoIndex (state w) = 0
      /\ enabled (state w) ClickCapture = false
      /\ enabled (state w) ClickRetake = true
      /\ (forall v, enabled (state w) (SelectFilter v) = false)
      /\ (forall v, enabled (state w) (SelectTimer v) = false)
      /\ (forall v, enabled (state w) (SelectPhotoCount v) = false)).
Proof.
  intros w.
  split.
  { apply batch_bound_exec; [exact Inv_initial|cbn; lia]. }
  intros Hne.
  pose proof (Inv_exec evs initialSys Inv_initial) as HI. fold w in HI.
  unfold Inv in HI. destruct (runs w) as [|r [|r' rs]]; [| |contradiction].
  - destruct HI as (H1 & H2 & H3).
    cbn [enabled]. destruct (capturedImages (state w)); [contradiction|].
    cbn. repeat split; assumption.
  - destruct HI as (_ & _ & c & m & sec & H). decompose [and] H.
    contradiction.
Qed.

(** X4. Retake from a shown batch clears it and the photo index and keeps
    the filter, the timer and the count; a capture started right after
    runs a whole new batch that holds only the images of its own calls of
    [takePicture]. *)
Theorem retake_then_capture (evs : list Event) :
  let w := sysOf (exec evs initialSys) in
  capturedImages (state w) <> [] ->
  let w1 := sysOf (step ClickRetake w) in
  let t := timer (state w) in
  let n := photosOf (photoCount (state w)) in
  let f := filter (state w) in
  let R := exec (ClickRetake :: ClickCapture
                   :: repeat tick (ticksNeeded t n)) w in
  capturedImages (state w1) = []
  /\ currentPhotoIndex (state w1) = 0
  /\ filter (state w1) = f /\ timer (state w1) = t
  /\ photoCount (state w1) = photoCount (state w)
  /\ enabled (state w1) ClickCapture = true
  /\ runs (sysOf R) = []
  /\ captures (traceOf R) = map (fun k => (k, snapshot k f)) (seq (shots w) n)
  /\ capturedImages (state (sysOf R)) = collected (shots w) n f [].
Proof.
  intros w Hne w1 t n f R.
  pose proof (Inv_exec evs initialSys Inv_initial) as HI. fold w in HI.
  assert (Hidle : runs w = [] /\ isCapturing (state w) = false).
  { unfold Inv in HI. destruct (runs w) as [|r [|r' rs]]; [| |contradiction].
    - split; [reflexivity|apply HI].
    - destruct HI as (_ & _ & c & m & sec & H). decompose [and] H.
      contradiction. }
  destruct Hidle as [Hr Hcap].
  assert (Hen : enabled (state w) ClickRetake = true).
  { cbn [enabled]. destruct (capturedImages (state w)); [contradiction|].
    reflexivity. }
  assert (E1 : step ClickRetake w
               = (tt,
                  withState (apply (SetCurrentPhotoIndex 0))
                    (withState (apply (SetCapturedImages [])) w),
                  [SetCapturedImages []; SetCurrentPhotoIndex 0])).
  { unfold step. rewrite Hen. reflexivity. }
  assert (Hw1 : w1 = withState (apply (SetCurrentPhotoIndex 0))
                       (withState (apply (SetCapturedImages [])) w)).
  { subst w1. rewrite E1. reflexivity. }
  assert (Hen1 : enabled (state w1) ClickCapture = true).
  { rewrite Hw1. cbn. rewrite Hcap. reflexivity. }
  assert (Hr1 : runs w1 = []) by (rewrite Hw1; exact Hr).
  split; [rewrite Hw1; reflexivity|]. split; [rewrite Hw1; reflexivity|].
  split; [rewrite Hw1; reflexivity|]. split; [rewrite Hw1; reflexivity|].
  split; [rewrite Hw1; reflexivity|]. split; [exact Hen1|].
  destruct (run_outcome w1 Hr1 Hen1) as (Htr & Hruns & _ & Himgs & _).
  assert (Hsel : timer (state w1) = t
                 /\ photosOf (photoCount (state w1)) = n
                 /\ filter (state w1) = f /\ shots w1 = shots w)
    by (rewrite Hw1; repeat split).
  destruct Hsel as (Ht & Hn & Hf & Hs).
  rewrite ?Ht, ?Hn, ?Hf, ?Hs in Htr.
  rewrite ?Ht, ?Hn, ?Hf, ?Hs in Hruns.
  rewrite ?Ht, ?Hn, ?Hf, ?Hs in Himgs.
  subst R. rewrite exec_cons_parts. unfold sysOf at 1 3, traceOf at 1.
  cbn [fst snd]. fold w1.
  split; [exact Hruns|]. split; [|exact Himgs].
  rewrite E1. unfold traceOf at 1. cbn [snd].
  unfold captures. rewrite flat_map_app. cbn [flat_map app].
  fold (captures (traceOf (exec (ClickCapture
                                  :: repeat tick (ticksNeeded t n)) w1))).
  rewrite Htr. apply captures_runTrace.
Qed.

Lemma preserves_ret {A : Type} (P : Sys -> Prop) (a : A) :
  Preserves P (ret a).
Proof. intros w H. exact H. Qed.

Lemma preserves_bind {A B : Type} (P : Sys -> Prop) (m : M A)
    (k : A -> M B) :
  Preserves P m -> (forall a, Preserves P (k a)) -> Preserves P (bind m k).
Proof.
  intros Hm Hk w H. unfold bind. specialize (Hm w H).
  destruct (m w) as [[a w1] l1]. cbn [fst snd] in Hm.
  specialize (Hk a w1 Hm). destruct (k a w1) as [[b w2] l2]. exact Hk.
Qed.

Lemma preserves_loopFrom (P : Sys -> Prop) :
  (forall e, runEffect e = true ->
             match e with SetShowFlash _ => False | _ => True end ->
             Preserves P (perform e)) ->
  (forall k, Preserves P (takePicture k)) ->
  forall todo k count i images, Preserves P (loopFrom todo k count i images).
Proof.
  intros Hp Ht. induction todo as [|todo IH]; intros k count i images;
    cbn [loopFrom].
  - unfold finishRun.
    repeat (apply preserves_bind;
            [apply Hp; [reflexivity|exact I]|intros _]).
    apply preserves_ret.
  - apply preserves_bind; [apply Hp; [reflexivity|exact I]|intros _].
    destruct (timerOn (c_timer k)).
    + apply preserves_bind; [apply Hp; [reflexivity|exact I]|intros _].
      apply preserves_ret.
    + apply preserves_bind; [|intros a; apply IH].
      unfold takeAndPush.
      apply preserves_bind; [apply Ht|intros a; apply preserves_ret].
Qed.

Lemma preserves_intervalCallback (P : Sys -> Prop) (r : Run) :
  (forall e, runEffect e = true ->
             match e with SetShowFlash _ => False | _ => True end ->
             Preserves P (perform e)) ->
  (forall k, Preserves P (takePicture k)) ->
  Preserves P (intervalCallback r).
Proof.
  intros Hp Ht. unfold intervalCallback.
  apply preserves_bind; [apply Hp; [reflexivity|exact I]|intros _].
  destruct (leZero (decr (run_remaining r))); [|apply preserves_ret].
  apply preserves_bind; [apply Hp; [reflexivity|exact I]|intros _].
  unfold resumeAfterCountdown.
  apply preserves_bind; [|intros a; apply preserves_loopFrom; assumption].
  unfold takeAndPush.
  apply preserves_bind; [apply Ht|intros a; apply preserves_ret].
Qed.

Lemma flash_perform (e : Effect) :
  match e with SetShowFlash _ => False | _ => True end ->
  Preserves FlashSafe (perform e).
Proof.
  intros He w H. destruct e; try contradiction; exact H.
Qed.

Lemma flash_takePicture (k : Closure) : Preserves FlashSafe (takePicture k).
Proof.
  intros w H. rewrite takePicture_eq. cbn [fst snd].
  unfold afterShot, FlashSafe in *.
  destruct (surfaceReady (shots w)); cbn; [lia|exact H].
Qed.

Lemma flash_step (e : Event) : Preserves FlashSafe (step e).
Proof.
  assert (Hp : forall x, runEffect x = true ->
                 match x with SetShowFlash _ => False | _ => True end ->
                 Preserves FlashSafe (perform x))
    by (intros x _ Hx; apply flash_perform; exact Hx).
  intros w H. unfold step.
  destruct (enabled (state w) e); [|exact H]. destruct e; cbn [invoke].
  - unfold capturePhoto.
    apply preserves_bind; [apply flash_perform; exact I|intros _| exact H].
    apply preserves_bind;
      [apply preserves_loopFrom; [exact Hp|exact flash_takePicture]|].
    intros [r|]; [|apply preserves_ret]. intros u Hu. exact Hu.
  - unfold retakePhoto.
    apply preserves_bind; [apply flash_perform; exact I|intros _|exact H].
    apply flash_perform. exact I.
  - rewrite downloadPhoto_eq. exact H.
  - exact H.
  - exact H.
  - exact H.
  - unfold fireInterval. destruct (nth_error (runs w) n) as [r|]; [|exact H].
    pose proof (preserves_intervalCallback FlashSafe r Hp flash_takePicture
                  w H) as Hi.
    destruct (intervalCallback r w) as [[o u] l]. exact Hi.
  - unfold flashOff. destruct (flashTimers w) as [|p]; [exact H|].
    intros Hf. discriminate Hf.
Qed.

Lemma flash_exec (evs : list Event) : Preserves FlashSafe (exec evs).
Proof.
  induction evs as [|e rest IH]; cbn [exec].
  - apply preserves_ret.
  - apply preserves_bind; [apply flash_step|intros _; exact IH].
Qed.

Lemma flash_drained (n : nat) :
  forall w,
    flashTimers w = n ->
    FlashSafe w ->
    let w' := sysOf (exec (repeat FlashTimeout n) w) in
    showFlash (state w') = false /\ flashTimers w' = 0%nat.
Proof.
  induction n as [|n IH]; intros w Hn Hsafe.
  - cbn. split; [|exact Hn]. unfold FlashSafe in Hsafe.
    destruct (showFlash (state w)); [|reflexivity].
    specialize (Hsafe eq_refl). lia.
  - cbn [repeat]. cbv zeta. rewrite exec_cons_parts.
    unfold sysOf at 1 3. cbn [fst snd].
    apply IH.
    + unfold step, sysOf. cbn [enabled invoke]. unfold flashOff.
      rewrite Hn. reflexivity.
    + apply (flash_step FlashTimeout). exact Hsafe.
Qed.

(** X5. The flash never sticks: in every state the page can reach, a flash
    that shows has a timeout pending that hides it, and once the pending
    timeouts have fired the flash is off and none is left. *)
Theorem flash_never_sticks (evs : list Event) :
  let w := sysOf (exec evs initialSys) in
  let w' := sysOf (exec (repeat FlashTimeout (flashTimers w)) w) in
  (showFlash (state w) = true -> (0 < flashTimers w)%nat)
  /\ showFlash (state w') = false
  /\ flashTimers w' = 0%nat.
Proof.
  intros w w'.
  assert (Hsafe : FlashSafe w).
  { apply (flash_exec evs initialSys). intros H. discriminate H. }
  split; [exact Hsafe|].
  apply (flash_drained (flashTimers w) w eq_refl Hsafe).
Qed.

Lemma selectors_perform (f : FilterType) (t : TimerType)
    (p : PhotoCountType) (e : Effect) :
  runEffect e = true ->
  Preserves (fun w => filter (state w) = f /\ timer (state w) = t
                      /\ photoCount (state w) = p) (perform e).
Proof.
  intros He w H. destruct e; try discriminate; exact H.
Qed.

Lemma selectors_takePicture (f : FilterType) (t : TimerType)
    (p : PhotoCountType) (k : Closure) :
  Preserves (fun w => filter (state w) = f /\ timer (state w) = t
                      /\ photoCount (state w) = p) (takePicture k).
Proof.
  intros w H. rewrite takePicture_eq. cbn [fst snd]. unfold afterShot.
  destruct (surfaceReady (shots w)); exact H.
Qed.

(** A task that is not a selector's leaves the selector cells alone. *)
Lemma selectors_kept (e : Event) (w : Sys) :
  isSelector e = false ->
  filter (state (sysOf (step e w))) = filter (state w)
  /\ timer (state (sysOf (step e w))) = timer (state w)
  /\ photoCount (state (sysOf (step e w))) = photoCount (state w).
Proof.
  intros Hs.
  set (P := fun u : Sys => filter (state u) = filter (state w)
                           /\ timer (state u) = timer (state w)
                           /\ photoCount (state u) = photoCount (state w)).
  assert (Hp : forall x, runEffect x = true ->
                 match x with SetShowFlash _ => False | _ => True end ->
                 Preserves P (perform x))
    by (intros x Hx _; apply selectors_perform; exact Hx).
  assert (Ht : forall k, Preserves P (takePicture k))
    by (intros k; apply selectors_takePicture).
  assert (H0 : P w) by (repeat split).
  change (P (sysOf (step e w))). unfold step, sysOf.
  destruct (enabled (state w) e); [|exact H0].
  destruct e; try discriminate; cbn [invoke].
  - unfold capturePhoto.
    apply preserves_bind;
      [apply selectors_perform; reflexivity|intros _|exact H0].
    apply preserves_bind; [apply preserves_loopFrom; assumption|].
    intros [r|]; [|apply preserves_ret]. intros u Hu. exact Hu.
  - unfold retakePhoto.
    apply preserves_bind;
      [apply selectors_perform; reflexivity|intros _|exact H0].
    apply selectors_perform. reflexivity.
  - rewrite downloadPhoto_eq. exact H0.
  - unfold fireInterval. destruct (nth_error (runs w) n) as [r|]; [|exact H0].
    pose proof (preserves_intervalCallback P r Hp Ht w H0) as Hi.
    destruct (intervalCallback r w) as [[o u] l]. exact Hi.
  - unfold flashOff. destruct (flashTimers w); exact H0.
Qed.

Lemma SelectorsMatch_step (e : Event) (w : Sys) :
  Inv w -> SelectorsMatch w -> SelectorsMatch (sysOf (step e w)).
Proof.
  intros HI HM.
  destruct (isSelector e) eqn:Hsel.
  - destruct e; try discriminate.
    + unfold step. destruct (enabled (state w) (SelectFilter v));
        exact HM.
    + destruct (enabled (state w) (SelectTimer v)) eqn:Hen;
        [|unfold step; rewrite Hen; exact HM].
      assert (Hr : runs w = []).
      { apply Inv_capture_idle; [exact HI|exact Hen]. }
      unfold step. rewrite Hen. intros r Hin. cbn in Hin.
      rewrite Hr in Hin. destruct Hin.
    + destruct (enabled (state w) (SelectPhotoCount v)) eqn:Hen;
        [|unfold step; rewrite Hen; exact HM].
      assert (Hr : runs w = []).
      { apply Inv_capture_idle; [exact HI|exact Hen]. }
      unfold step. rewrite Hen. intros r Hin. cbn in Hin.
      rewrite Hr in Hin. destruct Hin.
  - destruct (selectors_kept e w Hsel) as (_ & Ht & Hp).
    intros r' Hin. rewrite Ht, Hp.
    assert (Henv : (exists r, In r (runs w) /\ run_env r' = run_env r)
                   \/ run_env r' = render (state w)).
    { destruct e; try discriminate.
      - destruct (enabled (state w) ClickCapture) eqn:Hen.
        + pose proof (Inv_capture_idle w HI Hen) as Hr.
          destruct (timer_cases (timer (state w)))
            as [Hoff|(Hon & s & Hs & _)].
          * destruct (click_off w Hen Hoff) as (w' & E & Hr' & _).
            unfold sysOf in Hin. rewrite E in Hin. cbn [fst snd] in Hin.
            rewrite Hr', Hr in Hin. destruct Hin.
          * destruct (click_timed w s Hen Hon Hs) as (w' & E & Hr' & _).
            unfold sysOf in Hin. rewrite E in Hin. cbn [fst snd] in Hin.
            rewrite Hr', Hr in Hin. destruct Hin as [<-|[]].
            right. reflexivity.
        + unfold step in Hin. rewrite Hen in Hin.
          left. exists r'. split; [exact Hin|reflexivity].
      - unfold step in Hin.
        destruct (enabled (state w) ClickRetake);
          left; exists r'; split; try reflexivity; exact Hin.
      - unfold step in Hin.
        destruct (enabled (state w) (ClickDownload now));
          [cbn [invoke] in Hin; rewrite downloadPhoto_eq in Hin|];
          left; exists r'; split; try reflexivity; exact Hin.
      - unfold Inv in HI.
        destruct (runs w) as [|r [|r2 rs]] eqn:Hr; [| |contradiction].
        + rewrite (Inv_tick_idle n w Hr) in Hin. cbn in Hin.
          rewrite Hr in Hin. destruct Hin.
        + destruct n as [|n].
          * destruct HI as (Hon & Hcnt & c & m & sec & Hc & Hc1 & Hi & Hsec
                            & Hm & Hm1 & _).
            left. exists r. split; [left; reflexivity|].
            destruct (Z.eq_dec m 1) as [->|Hne].
            -- destruct (tick_fire r w sec Hr Hm Hon Hsec)
                 as (w' & E & Hr' & _).
               fold tick in Hin. unfold sysOf in Hin. rewrite E in Hin.
               cbn [fst snd] in Hin. rewrite Hr' in Hin.
               unfold afterCapture in Hin.
               destruct (iterationsLeft (run_count r) (run_i r + 1));
                 cbn [snd] in Hin; [destruct Hin|].
               destruct Hin as [<-|[]]. reflexivity.
            -- pose proof (tick_wait r w m Hr Hm ltac:(lia)) as E.
               fold tick in Hin. unfold sysOf in Hin. rewrite E in Hin.
               cbn [fst snd runs] in Hin. destruct Hin as [<-|[]].
               reflexivity.
          * rewrite (Inv_tick_other n r w Hr) in Hin. cbn in Hin.
            rewrite Hr in Hin.
            left. exists r'. split; [exact Hin|reflexivity].
      - unfold step in Hin. cbn [enabled invoke] in Hin.
        unfold flashOff in Hin.
        destruct (flashTimers w); left; exists r'; split;
          try reflexivity; exact Hin. }
    destruct Henv as [(r & Hr & -> ) | -> ]; [apply HM; exact Hr|].
    split; reflexivity.
Qed.

Lemma SelectorsMatch_exec (evs : list Event) :
  forall w, Inv w -> SelectorsMatch w -> SelectorsMatch (sysOf (exec evs w)).
Proof.
  induction evs as [|e rest IH]; intros w HI HM.
  - exact HM.
  - rewrite exec_cons_parts. unfold sysOf at 1. cbn [fst snd].
    apply IH; [apply Inv_step; exact HI|apply SelectorsMatch_step; assumption].
Qed.

(** X6. The overlay is consistent with the pending run: in every state the
    page can reach, the timer and the photo count the page shows are those
    the pending run closed over, so "Photo i of N" shows the run's own
    count and an index within it. (The filter is not among them: its
    selector stays live during a run.) *)
Theorem overlay_shows_run_selection (evs : list Event) :
  let w := sysOf (exec evs initialSys) in
  forall r, In r (runs w) ->
    c_timer (run_env r) = timer (state w)
    /\ c_photoCount (run_env r) = photoCount (state w)
    /\ run_count r = countOf (photoCount (state w))
    /\ 1 <= currentPhotoIndex (state w)
         <= Z.of_nat (photosOf (photoCount (state w))).
Proof.
  intros w r Hin.
  pose proof (Inv_exec evs initialSys Inv_initial) as HI. fold w in HI.
  assert (HM : SelectorsMatch w).
  { apply SelectorsMatch_exec; [exact Inv_initial|]. intros x []. }
  destruct (HM r Hin) as [Ht Hp].
  unfold Inv in HI.
  destruct (runs w) as [|r0 [|r' rs]]; [destruct Hin| |contradiction].
  destruct Hin as [<-|[]].
  destruct HI as (_ & Hcnt & c & m & sec & H). decompose [and] H.
  rewrite <- Hp. split; [exact Ht|]. split; [reflexivity|].
  split; [exact Hcnt|].
  destruct (photos_cases (c_photoCount (run_env r0))) as (c' & Hc' & _ & Hn).
  assert (c' = c) by congruence. subst c'. lia.
Qed.

(** *** The webcam *)

Lemma CamInv_step (ev : CamEvent) (c : Cam) :
  CamInv c -> CamInv (cam_step ev c).
Proof.
  intros H. pose proof H as (Hst & Hvid & Hgone & Hset).
  destruct ev as [e|o| |]; cbn [cam_step].
  - destruct (cam_gone c) eqn:Hg.
    { split; [exact Hst|]. split; [intros _; apply Hgone; reflexivity|].
      split; [intros _; apply Hgone; reflexivity|exact Hset]. }
    split; [exact Hst|]. cbn. split; [|split; [|exact Hset]].
    + intros Hv. rewrite Hv, andb_false_r. reflexivity.
    + intros Hf. discriminate Hf.
  - destruct (cam_settled c) eqn:Hsettled; [exact H|].
    specialize (Hset eq_refl).
    destruct o as [tracks|].
    + split; [|split; [|split]]; cbn.
      * intros t Ht. destruct (Hst t Ht) as (tr & Hs & Hin).
        rewrite Hset in Hs. discriminate.
      * intros Hv. rewrite Hv, andb_false_r. apply Hvid. exact Hv.
      * intros Hg. rewrite Hg. cbn. apply Hgone. exact Hg.
      * intros Hf. discriminate Hf.
    + split; [exact Hst|]. split; [exact Hvid|]. split; [exact Hgone|].
      cbn. intros Hf. discriminate Hf.
  - destruct (cam_gone c); [exact H|].
    unfold goBack, cam_unmount, cam_cleanup, stopTracks. cbn.
    destruct (cam_stream c) as [tracks|] eqn:Hs; cbn.
    + split; [|split; [reflexivity|split; [reflexivity|]]].
      * intros t Ht. apply in_app_or in Ht. destruct Ht as [Ht|Ht].
        -- destruct (Hst t Ht) as (tr & Hs' & Hin).
           exists tr. split; [exact Hs'|exact Hin].
        -- exists tracks. split; [reflexivity|exact Ht].
      * intros Hf. specialize (Hset Hf). discriminate.
    + rewrite Hs. split; [|split; [reflexivity|split; [reflexivity|]]].
      * intros t Ht. destruct (Hst t Ht) as (tr & Hs' & Hin).
        discriminate.
      * intros _. reflexivity.
  - destruct (cam_gone c); [exact H|].
    unfold cam_unmount, cam_cleanup, stopTracks. cbn.
    split; [exact Hst|]. split; [reflexivity|]. split; [reflexivity|].
    exact Hset.
Qed.

Lemma CamInv_run (evs : list CamEvent) :
  forall c, CamInv c -> CamInv (cam_run evs c).
Proof.
  induction evs as [|ev rest IH]; intros c H; [exact H|].
  cbn [cam_run]. apply IH. apply CamInv_step. exact H.
Qed.

Lemma CamInv_initial : CamInv cam_initial.
Proof.
  split; [|split; [|split]].
  - intros t [].
  - intros H. discriminate H.
  - reflexivity.
  - reflexivity.
Qed.

Lemma cam_stopped_step (ev : CamEvent) (c : Cam) :
  ev <> GoBack -> cam_stopped (cam_step ev c) = cam_stopped c.
Proof.
  intros Hne. destruct ev as [e|o| |]; cbn [cam_step].
  - destruct (cam_gone c); reflexivity.
  - destruct (cam_settled c); [reflexivity|]. destruct o; reflexivity.
  - contradiction.
  - destruct (cam_gone c); reflexivity.
Qed.

Lemma cam_stopped_run (evs : list CamEvent) :
  forall c,
    (forall ev, In ev evs -> ev <> GoBack) ->
    cam_stopped (cam_run evs c) = cam_stopped c.
Proof.
  induction evs as [|ev rest IH]; intros c Hno; [reflexivity|].
  cbn [cam_run]. rewrite IH by (intros x Hx; apply Hno; right; exact Hx).
  apply cam_stopped_step. apply Hno. left. reflexivity.
Qed.

(** X10. Only [goBack] turns the camera off. Without the back button no
    track is ever stopped, so the page left another way (the cleanup of
    the effect sees the [stream] of the first render, which is null) or a
    stream granted after the page has gone stays live; the tracks that
    are stopped are tracks of the stream in the cell; and the back button
    stops every track of that stream and navigates to [/] once. *)
Theorem camera_stopped_only_by_goBack (evs : list CamEvent) :
  let c := cam_run evs cam_initial in
  ((forall ev, In ev evs -> ev <> GoBack) -> cam_stopped c = [])
  /\ (forall t, In t (cam_stopped c) ->
        exists tracks, cam_stream c = Some tracks /\ In t tracks)
  /\ (cam_gone c = false ->
      forall tracks,
        cam_stream c = Some tracks ->
        incl tracks (cam_stopped (cam_step GoBack c))
        /\ cam_navigated (cam_step GoBack c)
           = cam_navigated c ++ ["/"%string]
        /\ cam_gone (cam_step GoBack c) = true).
Proof.
  intros c. split; [|split].
  - intros Hno. subst c. rewrite cam_stopped_run by exact Hno. reflexivity.
  - apply (CamInv_run evs cam_initial CamInv_initial).
  - intros Hg tracks Hs. cbn [cam_step]. rewrite Hg.
    unfold goBack, cam_unmount, cam_cleanup, stopTracks. rewrite Hs. cbn.
    split; [apply incl_appr, incl_refl|split; reflexivity].
Qed.

Lemma cam_source_stays_unset (evs : list CamEvent) :
  forall c,
    cam_settled c = true ->
    cam_srcObject c = None ->
    cam_srcObject (cam_run evs c) = None.
Proof.
  induction evs as [|ev rest IH]; intros c Hs Hn; [exact Hn|].
  cbn [cam_run]. destruct ev as [e|o| |]; cbn [cam_step].
  - destruct (cam_gone c); [apply IH; [exact Hs|exact Hn]|].
    apply IH; [exact Hs|]. cbn. rewrite Hn.
    destruct (videoRendered (cam_page c) && videoRendered _); reflexivity.
  - rewrite Hs. apply IH; assumption.
  - destruct (cam_gone c); [apply IH; assumption|].
    apply IH; unfold goBack, cam_unmount, cam_cleanup, stopTracks;
      destruct (cam_stream c); cbn; try reflexivity; exact Hs.
  - destruct (cam_gone c); [apply IH; assumption|].
    apply IH; [exact Hs|reflexivity].
Qed.

(** X11. The stream is given to the video element in one place only, when
    the promise of [getUserMedia] settles. The element is rendered only
    while no batch is shown, so once a batch has been shown after that,
    the video element never has a source again: not after retake (a new
    element is rendered) and not after anything else. *)
Theorem preview_lost_after_batch (evs1 evs2 : list CamEvent) :
  let c1 := cam_run evs1 cam_initial in
  cam_settled c1 = true ->
  capturedImages (state (cam_page c1)) <> [] ->
  cam_srcObject (cam_run evs2 c1) = None.
Proof.
  intros c1 Hs Hne.
  destruct (CamInv_run evs1 cam_initial CamInv_initial)
    as (_ & Hvid & _).
  fold c1 in Hvid.
  apply cam_source_stays_unset; [exact Hs|].
  apply Hvid. unfold videoRendered.
  destruct (capturedImages (state (cam_page c1))); [contradiction|].
  reflexivity.
Qed.

End Page.

(** ** The claims on sample pages *)

(** C1 as stated fails. On a page whose canvas gives no 2d context, a run
    of two photos with a 3 second timer runs to its end and hands the page
    an empty batch. And when the page unmounts after the first photo of
    such a run (here with the surface there), the interval of the run
    still fires: its second call of [takePicture] finds the refs null, and
    the run ends by giving [setCapturedImages] a batch of one image. *)
Lemma run_completes_with_missing_images :
  let evs := [SelectPhotoCount Photos2; SelectTimer Timer3] in
  let w := sysOf (exec sampleDataURL noContext evs initialSys) in
  let R := exec sampleDataURL noContext (ClickCapture :: repeat tick 6) w in
  let c := cam_run sampleDataURL steadyRefs
             (map OnPage (evs ++ ClickCapture :: repeat tick 3) ++ [Leave])
             cam_initial in
  let Q := execUnmounted sampleDataURL (repeat tick 3) (cam_page c) in
  photosOf (photoCount (state w)) = 2%nat
  /\ runs (sysOf R) = []
  /\ isCapturing (state (sysOf R)) = false
  /\ captures (traceOf R) = [(0%nat, None); (1%nat, None)]
  /\ capturedImages (state (sysOf R)) = []
  /\ List.length (capturedImages (state (sysOf R))) <> 2%nat
  /\ cam_gone c = true
  /\ List.length (runs (cam_page c)) = 1%nat
  /\ captures (traceOf Q) = [(1%nat, None)]
  /\ In (SetCapturedImages ["data:image/png;none;frame0"%string]) (traceOf Q)
  /\ runs (sysOf Q) = []
  /\ cam_page (cam_run sampleDataURL steadyRefs (repeat (OnPage tick) 3) c)
     = sysOf Q.
Proof.
  vm_compute. repeat split; try discriminate.
  do 5 right. left. reflexivity.
Qed.

Lemma batch_of_successful_run_witness :
  let w := sysOf (exec sampleDataURL steadyRefs
                    [SelectPhotoCount Photos3; SelectTimer Timer3]
                    initialSys) in
  runs w = []
  /\ enabled (state w) ClickCapture = true
  /\ (forall j, (j < 3)%nat ->
        truthy (snapshot sampleDataURL steadyRefs (shots w + j)
                  (filter (state w))) = true)
  /\ capturedImages
       (state (sysOf (exec sampleDataURL steadyRefs
                        (ClickCapture :: repeat tick 9) w)))
     = map (imageOf sampleDataURL steadyRefs FilterNone) (seq 0 3).
Proof.
  intros w.
  assert (Hr : runs w = []) by reflexivity.
  assert (Hen : enabled (state w) ClickCapture = true) by reflexivity.
  assert (Hall : forall j, (j < 3)%nat ->
             truthy (snapshot sampleDataURL steadyRefs (shots w + j)
                       (filter (state w))) = true).
  { intros j Hj. destruct j as [|[|[|j]]]; [reflexivity ..|lia]. }
  split; [exact Hr|]. split; [exact Hen|]. split; [exact Hall|].
  exact (proj1 (proj2 (proj2 (proj2 (proj2
           (batch_of_successful_run sampleDataURL steadyRefs w Hr Hen
              Hall)))))).
Defined.

(** C2 as stated fails for the handler: with a run pending in its
    countdown, a call of [capturePhoto] is not rejected; it starts a
    second run next to the first and rewinds the countdown cell. *)
Lemma capturePhoto_starts_second_run :
  let w := sysOf (exec sampleDataURL steadyRefs
                    [SelectTimer Timer3; ClickCapture; tick] initialSys) in
  let R := invoke sampleDataURL steadyRefs ClickCapture w in
  List.length (runs w) = 1%nat
  /\ isCapturing (state w) = true
  /\ countdown (state w) = Some (Num 2)
  /\ List.length (runs (sysOf R)) = 2%nat
  /\ countdown (state (sysOf R)) = Some (Num 3)
  /\ sysOf R <> w.
Proof. vm_compute. repeat split. discriminate. Qed.

Lemma click_ignored_while_capturing_witness :
  let evs := [SelectTimer Timer3; ClickCapture; tick] in
  let w := sysOf (exec sampleDataURL steadyRefs evs initialSys) in
  runs w <> []
  /\ step sampleDataURL steadyRefs ClickCapture w = (tt, w, []).
Proof.
  intros evs w.
  assert (Hr : runs w <> []) by (vm_compute; discriminate).
  split; [exact Hr|].
  exact (proj1 (proj2 (proj2
           (click_ignored_while_capturing sampleDataURL steadyRefs evs Hr)))).
Defined.

(** C3 as stated fails. On a page whose canvas gives no 2d context, in a
    run of three photos with a 3 second timer the first call of
    [takePicture] fails at the third tick. The run does not abort: after
    that tick it is still pending, the page is capturing and shows the
    countdown of photo 2, and the run makes its other two calls before the
    page goes back to rest. And when the page unmounts after the first
    photo of such a run (here with the surface there), the second call
    finds the refs null and the run does not end either: it counts down
    again, makes the third call and gives [setCapturedImages] the image it
    has. *)
Lemma run_goes_on_after_failed_capture :
  let evs := [SelectPhotoCount Photos3; SelectTimer Timer3] in
  let w := sysOf (exec sampleDataURL noContext evs initialSys) in
  let R3 := exec sampleDataURL noContext (ClickCapture :: repeat tick 3) w in
  let R := exec sampleDataURL noContext (ClickCapture :: repeat tick 9) w in
  let c := cam_run sampleDataURL steadyRefs
             (map OnPage (evs ++ ClickCapture :: repeat tick 3) ++ [Leave])
             cam_initial in
  let Q3 := execUnmounted sampleDataURL (repeat tick 3) (cam_page c) in
  let Q := execUnmounted sampleDataURL (repeat tick 6) (cam_page c) in
  captures (traceOf R3) = [(0%nat, None)]
  /\ List.length (runs (sysOf R3)) = 1%nat
  /\ isCapturing (state (sysOf R3)) = true
  /\ countdown (state (sysOf R3)) = Some (Num 3)
  /\ currentPhotoIndex (state (sysOf R3)) = 2
  /\ captures (traceOf R) = [(0%nat, None); (1%nat, None); (2%nat, None)]
  /\ runs (sysOf R) = []
  /\ cam_gone c = true
  /\ captures (traceOf Q3) = [(1%nat, None)]
  /\ List.length (runs (sysOf Q3)) = 1%nat
  /\ captures (traceOf Q) = [(1%nat, None); (2%nat, None)]
  /\ In (SetCapturedImages ["data:image/png;none;frame0"%string]) (traceOf Q)
  /\ runs (sysOf Q) = [].
Proof.
  vm_compute. repeat split.
  do 12 right. left. reflexivity.
Qed.

Lemma failed_capture_is_skipped_witness :
  let w := sysOf (exec sampleDataURL noContext
                    [SelectPhotoCount Photos3; SelectTimer Timer3]
                    initialSys) in
  let w3 := sysOf (exec sampleDataURL noContext
                     (ClickCapture :: repeat tick 3) w) in
  let R := exec sampleDataURL noContext (ClickCapture :: repeat tick 9) w in
  runs w = []
  /\ enabled (state w) ClickCapture = true
  /\ (1 < 3)%nat
  /\ surfaceReady noContext (shots w + 1) = false
  /\ (forall k, (k < 3)%nat ->
        surfaceReady noContext (shots w + k)
        = surfaceReady noContext (shots w + 1))
  /\ runs w3 <> []
  /\ isCapturing (state w3) = true
  /\ capturedImages (state (sysOf R)) = []
  /\ enabled (state (sysOf R)) ClickCapture = true.
Proof.
  intros w w3 R.
  assert (Hr : runs w = []) by reflexivity.
  assert (Hen : enabled (state w) ClickCapture = true) by reflexivity.
  assert (Hj : (1 < 3)%nat) by lia.
  assert (Hbad : surfaceReady noContext (shots w + 1) = false)
    by reflexivity.
  assert (Hsame : forall k, (k < 3)%nat ->
                    surfaceReady noContext (shots w + k)
                    = surfaceReady noContext (shots w + 1))
    by (intros k _; reflexivity).
  pose proof (failed_capture_is_skipped sampleDataURL noContext w 1
                Hr Hen Hj Hbad) as H.
  cbv zeta in H.
  destruct H as (_ & _ & Hpending & _ & _ & _ & _ & _ & _ & Hsteady & _).
  destruct (Hpending 3%nat ltac:(vm_compute; lia)) as (Hrun & Hcap & _).
  destruct (Hsteady Hsame) as (_ & Himgs & Hlive & _).
  repeat match goal with |- _ /\ _ => split end; assumption.
Defined.

(** C4 as stated fails for what the overlay shows. In a run of two photos
    with a 3 second timer [setCountdown] is given 3, 2, 1, 0 before each
    photo, and the cell at the seven task boundaries of the run (after
    the click and after each tick) holds 3, 2, 1, 3, 2, 1 and then
    nothing: the endpoint 0 is not among the values shown, the task that
    sets it clears the cell and takes the photo. *)
Lemma countdown_zero_is_never_shown :
  let w := sysOf (exec sampleDataURL steadyRefs
                    [SelectPhotoCount Photos2; SelectTimer Timer3]
                    initialSys) in
  let after k := exec sampleDataURL steadyRefs
                   (ClickCapture :: repeat tick k) w in
  let shown := map (fun k => countdown (state (sysOf (after k)))) (seq 0 7) in
  countdownValues (traceOf (after 6%nat)) = map Num [3; 2; 1; 0; 3; 2; 1; 0]
  /\ captures (traceOf (after 2%nat)) = []
  /\ List.length (captures (traceOf (after 3%nat))) = 1%nat
  /\ List.length (captures (traceOf (after 6%nat))) = 2%nat
  /\ runs (sysOf (after 6%nat)) = []
  /\ shown = [Some (Num 3); Some (Num 2); Some (Num 1);
              Some (Num 3); Some (Num 2); Some (Num 1); None]
  /\ ~ In (Some (Num 0)) shown.
Proof.
  vm_compute. repeat split.
  intros H. repeat (destruct H as [H|H]; [discriminate H|]). exact H.
Qed.

Lemma countdown_before_every_photo_witness :
  let w := sysOf (exec sampleDataURL steadyRefs
                    [SelectPhotoCount Photos2; SelectTimer Timer5]
                    initialSys) in
  let w7 := sysOf (exec sampleDataURL steadyRefs
                     (ClickCapture :: repeat tick 7) w) in
  runs w = []
  /\ enabled (state w) ClickCapture = true
  /\ timerOn (timer (state w)) = true
  /\ secondsOf (timer (state w)) = Num 5
  /\ countdownValues
       (traceOf (exec sampleDataURL steadyRefs
                   (ClickCapture :: repeat tick 10) w))
     = map Num [5; 4; 3; 2; 1; 0; 5; 4; 3; 2; 1; 0]
  /\ countdown (state w7) = Some (Num 3)
  /\ currentPhotoIndex (state w7) = 2
  /\ shots w7 = 1%nat.
Proof.
  intros w w7.
  assert (Hr : runs w = []) by reflexivity.
  assert (Hen : enabled (state w) ClickCapture = true) by reflexivity.
  assert (Hon : timerOn (timer (state w)) = true) by reflexivity.
  assert (Hs : secondsOf (timer (state w)) = Num 5) by reflexivity.
  split; [exact Hr|]. split; [exact Hen|]. split; [exact Hon|].
  split; [exact Hs|].
  pose proof (countdown_before_every_photo sampleDataURL steadyRefs w 5
                Hr Hen Hon Hs) as H.
  cbv zeta in H. destruct H as (_ & Htr & _ & _ & _ & Hcell & _).
  split.
  { change (ticksNeeded (timer (state w)) (photosOf (photoCount (state w))))
      with 10%nat in Htr.
    rewrite Htr. reflexivity. }
  exact (Hcell 1%nat 2%nat ltac:(vm_compute; lia) ltac:(vm_compute; lia)).
Defined.

Lemma countdown_zero_is_transient_witness :
  let evs := [SelectTimer Timer3; ClickCapture; tick; tick] in
  let w := sysOf (exec sampleDataURL steadyRefs evs initialSys) in
  let tr := traceOf (step sampleDataURL steadyRefs tick w) in
  In (Num 0) (countdownValues tr)
  /\ exists f rest,
      tr = SetCountdown (Some (Num 0)) :: SetCountdown None
             :: shotTrace sampleDataURL steadyRefs (shots w) f ++ rest.
Proof.
  intros evs w tr.
  assert (Hin : In (Num 0) (countdownValues tr)) by (left; reflexivity).
  split; [exact Hin|].
  exact (proj2 (proj2 (countdown_zero_is_transient sampleDataURL steadyRefs
                         evs tick)) Hin).
Defined.

Lemma no_countdown_without_timer_witness :
  let w := sysOf (exec sampleDataURL steadyRefs
                    [SelectPhotoCount Photos4] initialSys) in
  let R := step sampleDataURL steadyRefs ClickCapture w in
  runs w = []
  /\ enabled (state w) ClickCapture = true
  /\ timer (state w) = TimerOff
  /\ runs (sysOf R) = []
  /\ countdownValues (traceOf R) = []
  /\ List.length (captures (traceOf R)) = 4%nat.
Proof.
  intros w R.
  assert (Hr : runs w = []) by reflexivity.
  assert (Hen : enabled (state w) ClickCapture = true) by reflexivity.
  assert (Hoff : timer (state w) = TimerOff) by reflexivity.
  split; [exact Hr|]. split; [exact Hen|]. split; [exact Hoff|].
  pose proof (no_countdown_without_timer sampleDataURL steadyRefs w Hr Hen
                Hoff) as H.
  cbv zeta in H. fold R in H.
  split; [exact (proj1 H)|].
  split; [exact (proj1 (proj2 (proj2 H)))|].
  exact (proj1 (proj2 (proj2 (proj2 H)))).
Defined.

Lemma index_and_results_bounded_witness :
  let evs := [SelectPhotoCount Photos3; SelectTimer Timer3] in
  let w := sysOf (exec sampleDataURL steadyRefs evs initialSys) in
  let R := exec sampleDataURL steadyRefs (ClickCapture :: repeat tick 9) w in
  enabled (state w) ClickCapture = true
  /\ indexValues (traceOf R) = [1; 2; 3; 0].
Proof.
  intros evs w R.
  assert (Hen : enabled (state w) ClickCapture = true) by reflexivity.
  split; [exact Hen|].
  exact (proj1 (proj2 (proj2 (index_and_results_bounded sampleDataURL
                                steadyRefs evs) Hen))).
Defined.

Lemma selectors_read_at_click_witness :
  let w := sysOf (exec sampleDataURL steadyRefs
                    [SelectPhotoCount Photos2; SelectTimer Timer3]
                    initialSys) in
  let evs := [tick; SelectFilter FilterSepia; tick; SelectTimer Timer10;
              tick; SelectPhotoCount Photos4; tick; tick; tick] in
  forallb (fun e => negb (isCapture e)) evs = true
  /\ captures
       (traceOf (invokeAll sampleDataURL steadyRefs (ClickCapture :: evs) w))
     = captures
         (traceOf (invokeAll sampleDataURL steadyRefs
                     (ClickCapture :: repeat tick 6) w)).
Proof.
  intros w evs.
  assert (Hno : forallb (fun e => negb (isCapture e)) evs = true)
    by reflexivity.
  split; [exact Hno|].
  exact (proj1 (proj2 (proj2 (selectors_read_at_click sampleDataURL
                                steadyRefs w evs Hno)))).
Defined.

Lemma download_each_image_in_order_witness :
  let w := sysOf (exec sampleDataURL steadyRefs
                    [SelectPhotoCount Photos2; ClickCapture] initialSys) in
  let R := step sampleDataURL steadyRefs (ClickDownload sampleClock) w in
  capturedImages (state w) <> []
  /\ sysOf R = w
  /\ List.length (traceOf R) = 2%nat
  /\ traceOf R
     = [Download "data:image/png;none;frame0"
          "vintage-photo-1700000000000-1.png";
        Download "data:image/png;none;frame1"
          "vintage-photo-1700000000001-2.png"].
Proof.
  intros w R.
  assert (Hne : capturedImages (state w) <> []) by (vm_compute; discriminate).
  split; [exact Hne|].
  pose proof (download_each_image_in_order sampleDataURL steadyRefs w
                sampleClock Hne) as H.
  cbv zeta in H. fold R in H.
  split; [exact (proj1 H)|]. split; [exact (proj1 (proj2 H))|].
  reflexivity.
Defined.

Lemma run_ends_with_reset_witness :
  let w := sysOf (exec sampleDataURL canvasLostAtSecond
                    [SelectPhotoCount Photos4; SelectTimer Timer10]
                    initialSys) in
  let R := exec sampleDataURL canvasLostAtSecond
             (ClickCapture :: repeat tick 40) w in
  runs w = []
  /\ enabled (state w) ClickCapture = true
  /\ runs (sysOf R) = []
  /\ isCapturing (state (sysOf R)) = false
  /\ currentPhotoIndex (state (sysOf R)) = 0
  /\ countdown (state (sysOf R)) = None.
Proof.
  intros w R.
  assert (Hr : runs w = []) by reflexivity.
  assert (Hen : enabled (state w) ClickCapture = true) by reflexivity.
  split; [exact Hr|]. split; [exact Hen|].
  pose proof (run_ends_with_reset sampleDataURL canvasLostAtSecond w Hr Hen)
    as H.
  cbv zeta in H.
  change (ticksNeeded (timer (state w)) (photosOf (photoCount (state w))))
    with 40%nat in H.
  fold R in H.
  split; [exact (proj1 (proj2 H))|].
  split; [exact (proj1 (proj2 (proj2 H)))|].
  split; [exact (proj1 (proj2 (proj2 (proj2 H))))|].
  exact (proj1 (proj2 (proj2 (proj2 (proj2 H))))).
Defined.

(** ** The dropdown widget *)

Lemma select_handle_disabled (p : CustomSelect.Props) (isOpen : bool)
    (a : CustomSelect.Action) :
  CustomSelect.disabled p = true ->
  snd (CustomSelect.handle p isOpen a) = []
  /\ (fst (CustomSelect.handle p isOpen a) = true -> isOpen = true).
Proof.
  intros Hd. destruct a as [|n|inside]; cbn [CustomSelect.handle].
  - rewrite Hd. split; [reflexivity|exact (fun H => H)].
  - unfold CustomSelect.listShown. rewrite Hd, andb_false_r.
    split; [reflexivity|exact (fun H => H)].
  - destruct inside; split; try reflexivity; try exact (fun H => H).
    intros H. discriminate H.
Qed.

(** X7. A disabled select is inert: whatever is clicked or pressed, and
    whether or not it was open when it became disabled, it never calls
    [onChange], never shows its list and never opens. *)
Theorem disabled_select_is_inert (l : list (CustomSelect.Props
                                             * CustomSelect.Action))
    (isOpen : bool) :
  Forall (fun pa => CustomSelect.disabled (fst pa) = true) l ->
  snd (CustomSelect.run l isOpen) = []
  /\ (fst (CustomSelect.run l isOpen) = true -> isOpen = true)
  /\ Forall (fun pa => forall b, CustomSelect.listShown (fst pa) b = false) l.
Proof.
  intros Hall. revert isOpen.
  induction Hall as [|[p a] rest Hd Hrest IH]; intros isOpen.
  - split; [reflexivity|split; [exact (fun H => H)|constructor]].
  - cbn [fst] in Hd. cbn [CustomSelect.run].
    destruct (select_handle_disabled p isOpen a Hd) as [Hout Hopen].
    destruct (CustomSelect.handle p isOpen a) as [o1 out1].
    cbn [fst snd] in Hout, Hopen. subst out1.
    destruct (IH o1) as (Hout2 & Hopen2 & Hshown).
    destruct (CustomSelect.run rest o1) as [o2 out2].
    cbn [fst snd] in *. subst out2.
    split; [reflexivity|]. split; [auto|].
    constructor; [|exact Hshown].
    intros b. unfold CustomSelect.listShown. cbn [fst]. rewrite Hd.
    apply andb_false_r.
Qed.

Lemma select_emitted_entry (l : list (CustomSelect.Props
                                         * CustomSelect.Action))
    (isOpen : bool) (v : string) :
  In v (snd (CustomSelect.run l isOpen)) ->
  exists p n opt,
    In (p, CustomSelect.ClickEntry n) l
    /\ nth_error (CustomSelect.options p) n = Some opt
    /\ CustomSelect.value opt = v.
Proof.
  revert isOpen. induction l as [|[p a] rest IH]; intros isOpen Hin.
  - destruct Hin.
  - cbn [CustomSelect.run] in Hin.
    destruct (CustomSelect.handle p isOpen a) as [o1 out1] eqn:E.
    destruct (CustomSelect.run rest o1) as [o2 out2] eqn:E2.
    cbn [snd] in Hin. apply in_app_or in Hin. destruct Hin as [Hin|Hin].
    + destruct a as [|n|inside]; cbn [CustomSelect.handle] in E.
      * destruct (CustomSelect.disabled p); injection E as <- <-;
          destruct Hin.
      * destruct (CustomSelect.listShown p isOpen);
          [|injection E as <- <-; destruct Hin].
        destruct (nth_error (CustomSelect.options p) n) as [opt|] eqn:Hn;
          injection E as <- <-; [|destruct Hin].
        destruct Hin as [<-|[]].
        exists p, n, opt. split; [left; reflexivity|].
        split; [exact Hn|reflexivity].
      * destruct inside; injection E as <- <-; destruct Hin.
    + assert (Hin' : In v (snd (CustomSelect.run rest o1)))
        by (rewrite E2; exact Hin).
      destruct (IH o1 Hin') as (p' & n & opt & Hl & H).
      exists p', n, opt. split; [right; exact Hl|exact H].
Qed.

Lemma select_run_cons (p : CustomSelect.Props) (a : CustomSelect.Action)
    (rest : list (CustomSelect.Props * CustomSelect.Action))
    (isOpen : bool) :
  fst (CustomSelect.run ((p, a) :: rest) isOpen)
  = fst (CustomSelect.run rest (fst (CustomSelect.handle p isOpen a))).
Proof.
  cbn [CustomSelect.run].
  destruct (CustomSelect.handle p isOpen a) as [o1 out1]. cbn [fst].
  destruct (CustomSelect.run rest o1) as [o2 out2]. reflexivity.
Qed.

(** X8. A select only hands [onChange] values it offers: every value given
    to [onChange] is the value of an entry of the options of an enabled
    render, chosen by a click on that entry while the list was open (the
    actions before the click left it open), and the choice closes the
    list. *)
Theorem select_emits_offered_values (l : list (CustomSelect.Props
                                                * CustomSelect.Action))
    (isOpen : bool) (v : string) :
  In v (snd (CustomSelect.run l isOpen)) ->
  exists l1 p n opt l2,
    l = l1 ++ (p, CustomSelect.ClickEntry n) :: l2
    /\ fst (CustomSelect.run l1 isOpen) = true
    /\ CustomSelect.disabled p = false
    /\ CustomSelect.listShown p (fst (CustomSelect.run l1 isOpen)) = true
    /\ nth_error (CustomSelect.options p) n = Some opt
    /\ CustomSelect.value opt = v
    /\ CustomSelect.handle p (fst (CustomSelect.run l1 isOpen))
         (CustomSelect.ClickEntry n)
       = (false, [v]).
Proof.
  revert isOpen. induction l as [|[p a] rest IH]; intros isOpen Hin.
  - destruct Hin.
  - cbn [CustomSelect.run] in Hin.
    destruct (CustomSelect.handle p isOpen a) as [o1 out1] eqn:E.
    destruct (CustomSelect.run rest o1) as [o2 out2] eqn:E2.
    cbn [snd] in Hin. apply in_app_or in Hin. destruct Hin as [Hin|Hin].
    + destruct a as [|n|inside]; cbn [CustomSelect.handle] in E.
      * destruct (CustomSelect.disabled p); injection E as <- <-;
          destruct Hin.
      * destruct (CustomSelect.listShown p isOpen) eqn:Hshown;
          [|injection E as <- <-; destruct Hin].
        destruct (nth_error (CustomSelect.options p) n) as [opt|] eqn:Hn;
          [|injection E as <- <-; destruct Hin].
        injection E as <- <-. destruct Hin as [<-|[]].
        unfold CustomSelect.listShown in Hshown.
        apply andb_prop in Hshown. destruct Hshown as [Hopen Hd].
        apply negb_true_iff in Hd. subst isOpen.
        exists [], p, n, opt, rest. cbn [app CustomSelect.run fst].
        split; [reflexivity|]. split; [reflexivity|]. split; [exact Hd|].
        split; [unfold CustomSelect.listShown; rewrite Hd; reflexivity|].
        split; [exact Hn|]. split; [reflexivity|].
        cbn [CustomSelect.handle]. unfold CustomSelect.listShown.
        rewrite Hd, Hn. reflexivity.
      * destruct inside; injection E as <- <-; destruct Hin.
    + assert (Hin' : In v (snd (CustomSelect.run rest o1)))
        by (rewrite E2; exact Hin).
      destruct (IH o1 Hin')
        as (l1 & q & n & opt & l2 & Hl & Hopen & Hd & Hshown & Hn & Hv & Hh).
      assert (Ef : fst (CustomSelect.run ((p, a) :: l1) isOpen)
                   = fst (CustomSelect.run l1 o1)).
      { rewrite select_run_cons, E. reflexivity. }
      exists ((p, a) :: l1), q, n, opt, l2. rewrite Ef.
      split; [rewrite Hl; reflexivity|].
      split; [exact Hopen|]. split; [exact Hd|]. split; [exact Hshown|].
      split; [exact Hn|]. split; [exact Hv|exact Hh].
Qed.

Lemma offers_filter : Offers filterValue filterOptions.
Proof.
  split; [|split].
  - repeat (constructor; [cbn; intuition discriminate|]). constructor.
  - intros f.
    destruct f;
      [exists 0%nat|exists 1%nat|exists 2%nat|exists 3%nat|exists 4%nat
      |exists 5%nat]; eexists; split; reflexivity.
  - intros opt Hin. cbn in Hin.
    destruct Hin as [<-|[<-|[<-|[<-|[<-|[<-|[]]]]]]];
      [exists FilterNone|exists FilterGrayscale|exists FilterSepia
      |exists FilterInvert|exists FilterBlur|exists FilterContrast];
      reflexivity.
Qed.

Lemma offers_timer : Offers timerValue timerOptions.
Proof.
  split; [|split].
  - repeat (constructor; [cbn; intuition discriminate|]). constructor.
  - intros t.
    destruct t; [exists 0%nat|exists 1%nat|exists 2%nat|exists 3%nat];
      eexists; split; reflexivity.
  - intros opt Hin. cbn in Hin.
    destruct Hin as [<-|[<-|[<-|[<-|[]]]]];
      [exists TimerOff|exists Timer3|exists Timer5|exists Timer10];
      reflexivity.
Qed.

Lemma offers_photoCount : Offers photoCountValue photoCountOptions.
Proof.
  split; [|split].
  - repeat (constructor; [cbn; intuition discriminate|]). constructor.
  - intros c.
    destruct c; [exists 0%nat|exists 1%nat|exists 2%nat|exists 3%nat];
      eexists; split; reflexivity.
  - intros opt Hin. cbn in Hin.
    destruct Hin as [<-|[<-|[<-|[<-|[]]]]];
      [exists Photos1|exists Photos2|exists Photos3|exists Photos4];
      reflexivity.
Qed.

(** What [Offers] gives for a select with these options. *)
Lemma offers_select {A : Type} (toValue : A -> string)
    (opts : list CustomSelect.Entry) :
  Offers toValue opts ->
  (forall (a : A) (d : bool) (c : string),
      exists opt,
        CustomSelect.selectedOption
          (CustomSelect.mkProps (toValue a) opts d c) = Some opt
        /\ CustomSelect.value opt = toValue a)
  /\ (forall (a : A) (sel c : string),
        exists n,
          CustomSelect.handle (CustomSelect.mkProps sel opts false c) true
            (CustomSelect.ClickEntry n)
          = (false, [toValue a]))
  /\ (forall l isOpen v,
        Forall (fun pa => CustomSelect.options (fst pa) = opts) l ->
        In v (snd (CustomSelect.run l isOpen)) ->
        exists a, v = toValue a).
Proof.
  intros (_ & Hall & Hsound). split; [|split].
  - intros a d c. unfold CustomSelect.selectedOption.
    cbn [CustomSelect.selected CustomSelect.options].
    destruct (Hall a) as (n & opt & Hn & Hv).
    destruct (List.find (fun o => (CustomSelect.value o =? toValue a)%string)
                opts) as [found|] eqn:Hf.
    + exists found. split; [reflexivity|].
      apply find_some in Hf. apply String.eqb_eq. apply Hf.
    + exfalso. apply nth_error_In in Hn.
      pose proof (find_none _ _ Hf opt Hn) as Hno. cbn in Hno.
      rewrite Hv, String.eqb_refl in Hno. discriminate.
  - intros a sel c. destruct (Hall a) as (n & opt & Hn & Hv).
    exists n. cbn [CustomSelect.handle]. unfold CustomSelect.listShown.
    cbn [CustomSelect.disabled CustomSelect.options negb andb].
    rewrite Hn, Hv. reflexivity.
  - intros l isOpen v Hopts Hin.
    destruct (select_emitted_entry l isOpen v Hin)
      as (p & n & opt & Hl & Hn & Hv).
    rewrite Forall_forall in Hopts. specialize (Hopts _ Hl). cbn [fst] in Hopts.
    rewrite Hopts in Hn. apply nth_error_In in Hn.
    destruct (Hsound opt Hn) as (a & Ha). exists a. congruence.
Qed.

(** X9. The three selects of the camera page offer exactly the values of
    their types: the button of each always shows the label of the entry
    for the current value, every filter, timer and photo count can be
    chosen, and every value handed to [onChange] is a value of the type
    the setter is given it as; while a run is pending the timer and the
    count selects call [onChange] for no action at all. *)
Theorem page_selects_match_their_types (s : State) :
  (exists opt,
      CustomSelect.selectedOption (filterSelect s) = Some opt
      /\ CustomSelect.value opt = filterValue (filter s))
  /\ (exists opt,
        CustomSelect.selectedOption (timerSelect s) = Some opt
        /\ CustomSelect.value opt = timerValue (timer s))
  /\ (exists opt,
        CustomSelect.selectedOption (photoCountSelect s) = Some opt
        /\ CustomSelect.value opt = photoCountValue (photoCount s))
  /\ (forall f, exists n,
        CustomSelect.handle (filterSelect s) true (CustomSelect.ClickEntry n)
        = (false, [filterValue f]))
  /\ (isCapturing s = false ->
      (forall t, exists n,
          CustomSelect.handle (timerSelect s) true (CustomSelect.ClickEntry n)
          = (false, [timerValue t]))
      /\ (forall c, exists n,
            CustomSelect.handle (photoCountSelect s) true
              (CustomSelect.ClickEntry n)
            = (false, [photoCountValue c])))
  /\ (isCapturing s = true ->
      forall isOpen a,
        snd (CustomSelect.handle (timerSelect s) isOpen a) = []
        /\ snd (CustomSelect.handle (photoCountSelect s) isOpen a) = [])
  /\ (forall l isOpen v,
        In v (snd (CustomSelect.run l isOpen)) ->
        (Forall (fun pa => CustomSelect.options (fst pa) = filterOptions) l ->
         exists f, v = filterValue f)
        /\ (Forall (fun pa => CustomSelect.options (fst pa) = timerOptions) l ->
            exists t, v = timerValue t)
        /\ (Forall (fun pa => CustomSelect.options (fst pa)
                              = photoCountOptions) l ->
            exists c, v = photoCountValue c)).
Proof.
  destruct (offers_select filterValue filterOptions offers_filter)
    as (Hf1 & Hf2 & Hf3).
  destruct (offers_select timerValue timerOptions offers_timer)
    as (Ht1 & Ht2 & Ht3).
  destruct (offers_select photoCountValue photoCountOptions
              offers_photoCount) as (Hc1 & Hc2 & Hc3).
  split; [apply Hf1|]. split; [apply Ht1|]. split; [apply Hc1|].
  split; [intros f; apply Hf2|].
  split.
  { intros Hcap. unfold timerSelect, photoCountSelect. rewrite Hcap.
    split; [intros t; apply Ht2|intros c; apply Hc2]. }
  split.
  { intros Hcap isOpen a.
    split; apply select_handle_disabled; exact Hcap. }
  intros l isOpen v Hin.
  split; [|split]; intros Hopts; eauto.
Qed.

(** ** The single-photo camera page *)

Section SinglePhotoFacts.

Variable toDataURL : Drawing -> string.
Variable refsAt : nat -> Refs.

Lemma single_exec_app (l1 l2 : list SinglePhoto.Event) :
  forall w,
    SinglePhoto.exec toDataURL refsAt (l1 ++ l2) w
    = SinglePhoto.exec toDataURL refsAt l2
        (SinglePhoto.exec toDataURL refsAt l1 w).
Proof.
  induction l1 as [|e l1 IH]; intros w; [reflexivity|].
  cbn [app SinglePhoto.exec]. apply IH.
Qed.

Lemma single_takePicture_fields (f : FilterType) (w : SinglePhoto.Page) :
  let w' := SinglePhoto.takePicture toDataURL refsAt f w in
  SinglePhoto.intervals w' = SinglePhoto.intervals w
  /\ SinglePhoto.timer w' = SinglePhoto.timer w
  /\ SinglePhoto.filter w' = SinglePhoto.filter w
  /\ SinglePhoto.shots w' = S (SinglePhoto.shots w)
  /\ SinglePhoto.capturedImage w'
     = match SinglePhoto.snapshot toDataURL refsAt (SinglePhoto.shots w) f
       with
       | Some image => Some image
       | None => SinglePhoto.capturedImage w
       end
  /\ (SinglePhoto.countdown w = None -> SinglePhoto.countdown w' = None).
Proof.
  unfold SinglePhoto.takePicture, SinglePhoto.snapshot.
  destruct (videoRef (refsAt (SinglePhoto.shots w))) as [video|];
    [destruct (canvasRef (refsAt (SinglePhoto.shots w))) as [canvas|];
     [destruct (context2d canvas)|]|];
    cbn; repeat split; auto.
Qed.

Lemma single_takePicture_intervals (f : FilterType) (w : SinglePhoto.Page) :
  SinglePhoto.intervals (SinglePhoto.takePicture toDataURL refsAt f w)
  = SinglePhoto.intervals w.
Proof. apply (single_takePicture_fields f w). Qed.

Lemma single_timer_cases (t : TimerType) :
  timerOn t = false
  \/ (timerOn t = true
      /\ exists s, parseInt (timerValue t) = Num s /\ 1 <= s <= 10).
Proof.
  destruct t; [left; reflexivity|right ..]; (split; [reflexivity|]).
  - exists 3. split; [reflexivity|lia].
  - exists 5. split; [reflexivity|lia].
  - exists 10. split; [reflexivity|lia].
Qed.

Lemma single_Inv_step (e : SinglePhoto.Event) (w : SinglePhoto.Page) :
  SinglePhoto.Inv w ->
  SinglePhoto.Inv (SinglePhoto.step toDataURL refsAt e w).
Proof.
  intros HI. unfold SinglePhoto.step.
  destruct (SinglePhoto.enabled w e) eqn:Hen; [|exact HI].
  destruct e; cbn [SinglePhoto.invoke]; cbn [SinglePhoto.enabled] in Hen.
  - (* ClickCapture *)
    apply andb_prop in Hen. destruct Hen as [Hshown Hcd].
    apply negb_true_iff in Hshown.
    destruct (SinglePhoto.countdown w) as [v|] eqn:Hc; [discriminate|].
    assert (Hint : SinglePhoto.intervals w = []).
    { unfold SinglePhoto.Inv in HI.
      destruct (SinglePhoto.intervals w) as [|f [|g l]];
        [reflexivity| |contradiction].
      destruct HI as (_ & _ & m & sec & _ & H & _). congruence. }
    unfold SinglePhoto.capturePhoto.
    destruct (single_timer_cases (SinglePhoto.timer w))
      as [Hoff|(Hon & s & Hs & Hs1)].
    + rewrite Hoff. cbn [negb].
      destruct (single_takePicture_fields (SinglePhoto.filter w) w)
        as (Hi & _ & _ & _ & _ & Hcd').
      unfold SinglePhoto.Inv. rewrite Hi, Hint. apply Hcd'. exact Hc.
    + rewrite Hon. cbn [negb]. unfold SinglePhoto.Inv. cbn. rewrite Hint.
      cbn. split; [exact Hon|]. split; [exact Hshown|].
      exists s, s. rewrite Hs. repeat split; try assumption; lia.
  - (* ClickRetake *)
    unfold SinglePhoto.Inv in *. cbn.
    destruct (SinglePhoto.intervals w) as [|f [|g l]];
      [exact HI| |contradiction].
    destruct HI as (_ & Hshown & _). congruence.
  - (* SelectFilter *) exact HI.
  - (* SelectTimer *)
    apply andb_prop in Hen. destruct Hen as [_ Hcd].
    destruct (SinglePhoto.countdown w) as [x|] eqn:Hc; [discriminate|].
    unfold SinglePhoto.Inv in *. cbn.
    destruct (SinglePhoto.intervals w) as [|f [|g l]];
      [first [exact Hc|reflexivity]| |contradiction].
    destruct HI as (_ & _ & m & sec & _ & H & _). congruence.
  - (* IntervalTick *)
    unfold SinglePhoto.intervalCallback. unfold SinglePhoto.Inv in HI.
    destruct (SinglePhoto.intervals w) as [|f [|g l]] eqn:Hint;
      [| |contradiction].
    + destruct n; cbn; unfold SinglePhoto.Inv; rewrite Hint; exact HI.
    + destruct n as [|n]; cbn [nth_error].
      2:{ destruct n; cbn; unfold SinglePhoto.Inv; rewrite Hint; exact HI. }
      destruct HI as (Hon & Hshown & m & sec & Hsec & Hc & Hm).
      rewrite Hc. cbn [SinglePhoto.leOne].
      destruct (Z.leb_spec m 1) as [Hle|Hgt].
      * unfold SinglePhoto.Inv. cbv zeta. cbn [SinglePhoto.intervals].
        rewrite single_takePicture_intervals. cbn. rewrite ?Hint.
        reflexivity.
      * unfold SinglePhoto.Inv. cbn. rewrite ?Hint.
        split; [exact Hon|]. split; [exact Hshown|].
        exists (m - 1), sec. repeat split; try assumption; lia.
  - (* FlashTimeout *)
    destruct (SinglePhoto.flashTimers w); exact HI.
Qed.

Lemma single_Inv_exec (evs : list SinglePhoto.Event) :
  forall w,
    SinglePhoto.Inv w ->
    SinglePhoto.Inv (SinglePhoto.exec toDataURL refsAt evs w).
Proof.
  induction evs as [|e rest IH]; intros w HI; [exact HI|].
  cbn [SinglePhoto.exec]. apply IH. apply single_Inv_step. exact HI.
Qed.

(** X12. In the single-photo page at most one countdown is ever pending;
    the countdown cell holds a number exactly while one is, and that
    number is between 1 and the seconds of the timer: it never shows 0 or
    a negative number; while it counts the capture button and the timer
    select are disabled and no image is shown. *)
Theorem single_countdown_never_zero (evs : list SinglePhoto.Event) :
  let w := SinglePhoto.exec toDataURL refsAt evs SinglePhoto.initialPage in
  (List.length (SinglePhoto.intervals w) <= 1)%nat
  /\ (SinglePhoto.intervals w = [] <-> SinglePhoto.countdown w = None)
  /\ (forall v, SinglePhoto.countdown w = Some v ->
        exists m, v = Num m /\ 1 <= m <= 10
                  /\ parseInt (timerValue (SinglePhoto.timer w)) <> NaN
                  /\ forall sec,
                      parseInt (timerValue (SinglePhoto.timer w)) = Num sec ->
                      m <= sec)
  /\ (SinglePhoto.countdown w <> None ->
      SinglePhoto.shown w = false
      /\ SinglePhoto.enabled w SinglePhoto.ClickCapture = false
      /\ forall t, SinglePhoto.enabled w (SinglePhoto.SelectTimer t) = false).
Proof.
  intros w.
  assert (HI : SinglePhoto.Inv w)
    by (apply single_Inv_exec; reflexivity).
  unfold SinglePhoto.Inv in HI.
  destruct (SinglePhoto.intervals w) as [|f [|g l]] eqn:Hint;
    [| |contradiction].
  - split; [cbn; lia|]. split; [tauto|]. split.
    + intros v Hv. congruence.
    + intros Hne. contradiction.
  - destruct HI as (Hon & Hshown & m & sec & Hsec & Hc & Hm).
    split; [cbn; lia|]. split.
    { split; intros H; [discriminate|congruence]. }
    split.
    + intros v Hv. rewrite Hc in Hv. injection Hv as <-.
      exists m. split; [reflexivity|].
      destruct (single_timer_cases (SinglePhoto.timer w))
        as [Hoff|(_ & s & Hs & Hs1)]; [congruence|].
      rewrite Hs in Hsec. injection Hsec as <-.
      split; [lia|]. split; [rewrite Hs; discriminate|].
      intros sec' Hsec'. rewrite Hs in Hsec'. injection Hsec' as <-. lia.
    + intros _. split; [exact Hshown|].
      cbn [SinglePhoto.enabled]. rewrite Hc, Hshown. split; reflexivity.
Qed.

Lemma single_wait (f : FilterType) :
  forall (k : nat) (w : SinglePhoto.Page) (m : Z),
    SinglePhoto.intervals w = [f] ->
    SinglePhoto.countdown w = Some (Num m) ->
    Z.of_nat k < m ->
    SinglePhoto.exec toDataURL refsAt
      (repeat (SinglePhoto.IntervalTick 0) k) w
    = SinglePhoto.mkPage (SinglePhoto.filter w) (SinglePhoto.timer w)
        (Some (Num (m - Z.of_nat k))) (SinglePhoto.capturedImage w)
        (SinglePhoto.showFlash w) [f] (SinglePhoto.shots w)
        (SinglePhoto.flashTimers w).
Proof.
  induction k as [|k IH]; intros w m Hint Hc Hk.
  - cbn [repeat SinglePhoto.exec]. rewrite Z.sub_0_r.
    destruct w; cbn in *. subst. reflexivity.
  - cbn [repeat SinglePhoto.exec].
    assert (E : SinglePhoto.step toDataURL refsAt
                  (SinglePhoto.IntervalTick 0) w
                = SinglePhoto.mkPage (SinglePhoto.filter w)
                    (SinglePhoto.timer w) (Some (Num (m - 1)))
                    (SinglePhoto.capturedImage w) (SinglePhoto.showFlash w)
                    [f] (SinglePhoto.shots w) (SinglePhoto.flashTimers w)).
    { unfold SinglePhoto.step. cbn [SinglePhoto.enabled SinglePhoto.invoke].
      unfold SinglePhoto.intervalCallback. rewrite Hint, Hc.
      cbn [nth_error SinglePhoto.leOne].
      destruct (Z.leb_spec m 1) as [Hle|_]; [lia|].
      cbn. rewrite ?Hint. reflexivity. }
    rewrite E.
    rewrite (IH _ (m - 1)) by (cbn; try reflexivity; lia).
    cbn. f_equal. f_equal. f_equal. lia.
Qed.

(** X13. In the single-photo page with a timer of [s] seconds, the click
    shows [s] and each tick one less; before the [s]-th tick no call of
    [takePicture] is made; the [s]-th tick clears the countdown, ends the
    interval and makes the one call, with the filter selected at the
    click: its image is shown when the surface is there, and otherwise
    the page is back in live mode as before the click. *)
Theorem single_photo_after_countdown (w : SinglePhoto.Page) (s : Z)
    (k : nat) :
  SinglePhoto.Inv w ->
  SinglePhoto.enabled w SinglePhoto.ClickCapture = true ->
  timerOn (SinglePhoto.timer w) = true ->
  parseInt (timerValue (SinglePhoto.timer w)) = Num s ->
  Z.of_nat k < s ->
  let tick := SinglePhoto.IntervalTick 0 in
  let w1 := SinglePhoto.exec toDataURL refsAt
              (SinglePhoto.ClickCapture :: repeat tick k) w in
  let w2 := SinglePhoto.exec toDataURL refsAt
              (SinglePhoto.ClickCapture :: repeat tick (Z.to_nat s)) w in
  SinglePhoto.countdown w1 = Some (Num (s - Z.of_nat k))
  /\ SinglePhoto.intervals w1 = [SinglePhoto.filter w]
  /\ SinglePhoto.shots w1 = SinglePhoto.shots w
  /\ SinglePhoto.capturedImage w1 = SinglePhoto.capturedImage w
  /\ SinglePhoto.countdown w2 = None
  /\ SinglePhoto.intervals w2 = []
  /\ SinglePhoto.shots w2 = S (SinglePhoto.shots w)
  /\ SinglePhoto.capturedImage w2
     = match SinglePhoto.snapshot toDataURL refsAt (SinglePhoto.shots w)
               (SinglePhoto.filter w) with
       | Some image => Some image
       | None => SinglePhoto.capturedImage w
       end.
Proof.
  intros HI Hen Hon Hs Hk tick w1 w2.
  assert (Hidle : SinglePhoto.intervals w = []).
  { cbn [SinglePhoto.enabled] in Hen. apply andb_prop in Hen.
    destruct Hen as [_ Hcd].
    unfold SinglePhoto.Inv in HI.
    destruct (SinglePhoto.intervals w) as [|f [|g l]];
      [reflexivity| |contradiction].
    destruct HI as (_ & _ & m & sec & _ & H & _). rewrite H in Hcd.
    discriminate. }
  set (f := SinglePhoto.filter w).
  set (w0 := SinglePhoto.mkPage f (SinglePhoto.timer w) (Some (Num s))
               (SinglePhoto.capturedImage w) (SinglePhoto.showFlash w) [f]
               (SinglePhoto.shots w) (SinglePhoto.flashTimers w)).
  assert (E0 : SinglePhoto.step toDataURL refsAt SinglePhoto.ClickCapture w
               = w0).
  { unfold SinglePhoto.step. rewrite Hen. cbn [SinglePhoto.invoke].
    unfold SinglePhoto.capturePhoto. rewrite Hon, Hs, Hidle. reflexivity. }
  assert (Hwait : forall j, Z.of_nat j < s ->
             SinglePhoto.exec toDataURL refsAt
               (SinglePhoto.ClickCapture :: repeat tick j) w
             = SinglePhoto.mkPage f (SinglePhoto.timer w)
                 (Some (Num (s - Z.of_nat j))) (SinglePhoto.capturedImage w)
                 (SinglePhoto.showFlash w) [f] (SinglePhoto.shots w)
                 (SinglePhoto.flashTimers w)).
  { intros j Hj. cbn [SinglePhoto.exec]. rewrite E0.
    apply (single_wait f j w0 s eq_refl eq_refl Hj). }
  assert (Hfire :
            SinglePhoto.exec toDataURL refsAt
              (SinglePhoto.ClickCapture :: repeat tick (Z.to_nat s)) w
            = SinglePhoto.step toDataURL refsAt tick
                (SinglePhoto.mkPage f (SinglePhoto.timer w) (Some (Num 1))
                   (SinglePhoto.capturedImage w) (SinglePhoto.showFlash w)
                   [f] (SinglePhoto.shots w) (SinglePhoto.flashTimers w))).
  { destruct (Z.to_nat s) as [|p] eqn:Hp; [lia|].
    cbn [repeat]. rewrite repeat_cons, app_comm_cons.
    rewrite single_exec_app, (Hwait p) by lia.
    replace (s - Z.of_nat p) with 1 by lia. reflexivity. }
  subst w1 w2. rewrite (Hwait k Hk), Hfire.
  split; [reflexivity|]. split; [reflexivity|]. split; [reflexivity|].
  split; [reflexivity|].
  destruct (single_takePicture_fields f
              (SinglePhoto.mkPage f (SinglePhoto.timer w) (Some (Num 1))
                 (SinglePhoto.capturedImage w) (SinglePhoto.showFlash w) []
                 (SinglePhoto.shots w) (SinglePhoto.flashTimers w)))
    as (Hi & _ & _ & Hsh & Him & _).
  split; [reflexivity|]. split; [exact Hi|]. split; [exact Hsh|].
  exact Him.
Qed.

End SinglePhotoFacts.

(** ** The further properties on sample pages *)

Lemma countdown_progress_witness :
  let w := sysOf (exec sampleDataURL steadyRefs
                    [SelectPhotoCount Photos3; SelectTimer Timer3]
                    initialSys) in
  let w' := sysOf (exec sampleDataURL steadyRefs
                     (ClickCapture :: repeat tick 4) w) in
  runs w = []
  /\ enabled (state w) ClickCapture = true
  /\ timerOn (timer (state w)) = true
  /\ secondsOf (timer (state w)) = Num 3
  /\ (1 < photosOf (photoCount (state w)))%nat
  /\ 1 <= 2 <= 3
  /\ countdown (state w') = Some (Num 2)
  /\ currentPhotoIndex (state w') = 2.
Proof.
  intros w w'.
  assert (Hr : runs w = []) by reflexivity.
  assert (Hen : enabled (state w) ClickCapture = true) by reflexivity.
  assert (Hon : timerOn (timer (state w)) = true) by reflexivity.
  assert (Hs : secondsOf (timer (state w)) = Num 3) by reflexivity.
  assert (Hi : (1 < photosOf (photoCount (state w)))%nat)
    by (vm_compute; lia).
  assert (Hm : 1 <= 2 <= 3) by lia.
  pose proof (countdown_progress sampleDataURL steadyRefs w 3 1 2
                Hr Hen Hon Hs Hi Hm) as H.
  cbv zeta in H. destruct H as (_ & _ & Hc & Hidx & _).
  repeat match goal with |- _ /\ _ => split end; first [assumption|lia].
Defined.

Lemma mode_after_run_witness :
  let w := sysOf (exec sampleDataURL canvasLostAtSecond
                    [SelectPhotoCount Photos2] initialSys) in
  let w' := sysOf (exec sampleDataURL canvasLostAtSecond
                     [ClickCapture] w) in
  runs w = []
  /\ enabled (state w) ClickCapture = true
  /\ List.length (capturedImages (state w')) = 1%nat
  /\ enabled (state w') ClickRetake = true.
Proof.
  intros w w'.
  assert (Hr : runs w = []) by reflexivity.
  assert (Hen : enabled (state w) ClickCapture = true) by reflexivity.
  pose proof (mode_after_run sampleDataURL canvasLostAtSecond w Hr Hen)
    as H.
  cbv zeta in H. destruct H as (Hlen & _ & Hre & _).
  split; [exact Hr|]. split; [exact Hen|]. split; [exact Hlen|exact Hre].
Defined.

Lemma review_means_idle_witness :
  let evs := [SelectPhotoCount Photos2; ClickCapture] in
  let w := sysOf (exec sampleDataURL steadyRefs evs initialSys) in
  capturedImages (state w) <> []
  /\ runs w = []
  /\ enabled (state w) ClickCapture = false.
Proof.
  intros evs w.
  assert (Hne : capturedImages (state w) <> [])
    by (vm_compute; discriminate).
  pose proof (proj2 (review_means_idle sampleDataURL steadyRefs evs) Hne)
    as H.
  destruct H as (Hr & _ & _ & _ & Hcap & _).
  split; [exact Hne|]. split; [exact Hr|exact Hcap].
Defined.

Lemma retake_then_capture_witness :
  let evs := [SelectPhotoCount Photos2; ClickCapture] in
  let w := sysOf (exec sampleDataURL steadyRefs evs initialSys) in
  let R := exec sampleDataURL steadyRefs [ClickRetake; ClickCapture] w in
  capturedImages (state w) <> []
  /\ runs (sysOf R) = []
  /\ capturedImages (state (sysOf R))
     = collected sampleDataURL steadyRefs 2 2 FilterNone [].
Proof.
  intros evs w R.
  assert (Hne : capturedImages (state w) <> [])
    by (vm_compute; discriminate).
  pose proof (retake_then_capture sampleDataURL steadyRefs evs Hne) as H.
  cbv zeta in H. destruct H as (_ & _ & _ & _ & _ & _ & Hr & _ & Himgs).
  split; [exact Hne|]. split; [exact Hr|exact Himgs].
Defined.

Lemma flash_never_sticks_witness :
  let evs := [ClickCapture] in
  let w := sysOf (exec sampleDataURL steadyRefs evs initialSys) in
  showFlash (state w) = true /\ (0 < flashTimers w)%nat.
Proof.
  intros evs w.
  assert (Hf : showFlash (state w) = true) by reflexivity.
  split; [exact Hf|].
  exact (proj1 (flash_never_sticks sampleDataURL steadyRefs evs) Hf).
Defined.

Lemma overlay_shows_run_selection_witness :
  let evs := [SelectTimer Timer3; ClickCapture; SelectFilter FilterSepia;
              tick] in
  let w := sysOf (exec sampleDataURL steadyRefs evs initialSys) in
  let s0 := state (sysOf (exec sampleDataURL steadyRefs
                            [SelectTimer Timer3] initialSys)) in
  let r := mkRun (render s0) (Num 1) 0 [] (Num 2) in
  In r (runs w)
  /\ c_timer (run_env r) = timer (state w)
  /\ run_count r = countOf (photoCount (state w)).
Proof.
  intros evs w s0 r.
  assert (Hin : In r (runs w)) by (left; reflexivity).
  pose proof (overlay_shows_run_selection sampleDataURL steadyRefs evs r Hin)
    as H.
  destruct H as (Ht & _ & Hc & _).
  split; [exact Hin|]. split; [exact Ht|exact Hc].
Defined.

Lemma disabled_select_is_inert_witness :
  let s := state (sysOf (exec sampleDataURL steadyRefs
                           [SelectTimer Timer3; ClickCapture] initialSys)) in
  let l := [(timerSelect s, CustomSelect.ClickButton);
            (timerSelect s, CustomSelect.ClickEntry 2)] in
  Forall (fun pa => CustomSelect.disabled (fst pa) = true) l
  /\ snd (CustomSelect.run l true) = [].
Proof.
  intros s l.
  assert (Hall : Forall (fun pa => CustomSelect.disabled (fst pa) = true) l).
  { repeat constructor. }
  split; [exact Hall|].
  exact (proj1 (disabled_select_is_inert l true Hall)).
Defined.

Lemma select_emits_offered_values_witness :
  let p := filterSelect initialState in
  let l := [(p, CustomSelect.ClickButton); (p, CustomSelect.ClickEntry 2)] in
  In "sepia(100%)"%string (snd (CustomSelect.run l false))
  /\ exists l1 q n opt l2,
       l = l1 ++ (q, CustomSelect.ClickEntry n) :: l2
       /\ fst (CustomSelect.run l1 false) = true
       /\ CustomSelect.disabled q = false
       /\ CustomSelect.listShown q (fst (CustomSelect.run l1 false)) = true
       /\ nth_error (CustomSelect.options q) n = Some opt
       /\ CustomSelect.value opt = "sepia(100%)"%string
       /\ CustomSelect.handle q (fst (CustomSelect.run l1 false))
            (CustomSelect.ClickEntry n)
          = (false, ["sepia(100%)"%string]).
Proof.
  intros p l.
  assert (Hin : In "sepia(100%)"%string (snd (CustomSelect.run l false)))
    by (left; reflexivity).
  split; [exact Hin|].
  exact (select_emits_offered_values l false "sepia(100%)" Hin).
Defined.

Lemma page_selects_match_their_types_witness :
  isCapturing initialState = false
  /\ forall t, exists n,
       CustomSelect.handle (timerSelect initialState) true
         (CustomSelect.ClickEntry n)
       = (false, [timerValue t]).
Proof.
  assert (Hc : isCapturing initialState = false) by reflexivity.
  destruct (page_selects_match_their_types initialState)
    as (_ & _ & _ & _ & H & _).
  split; [exact Hc|]. exact (proj1 (H Hc)).
Defined.

Lemma camera_stopped_only_by_goBack_witness :
  let evs := [Settle (Granted [7%nat]); OnPage ClickCapture; Leave] in
  let c := cam_run sampleDataURL steadyRefs evs cam_initial in
  (forall ev, In ev evs -> ev <> GoBack)
  /\ cam_stream c = Some [7%nat]
  /\ cam_gone c = true
  /\ cam_stopped c = [].
Proof.
  intros evs c.
  assert (Hno : forall ev, In ev evs -> ev <> GoBack).
  { intros ev [<-|[<-|[<-|[]]]]; discriminate. }
  split; [exact Hno|]. split; [reflexivity|]. split; [reflexivity|].
  exact (proj1 (camera_stopped_only_by_goBack sampleDataURL steadyRefs evs)
           Hno).
Defined.

Lemma preview_lost_after_batch_witness :
  let evs1 := [Settle (Granted [7%nat]); OnPage ClickCapture] in
  let evs2 := [OnPage ClickRetake] in
  let c1 := cam_run sampleDataURL steadyRefs evs1 cam_initial in
  let c2 := cam_run sampleDataURL steadyRefs evs2 c1 in
  cam_settled c1 = true
  /\ capturedImages (state (cam_page c1)) <> []
  /\ videoRendered (cam_page c2) = true
  /\ cam_srcObject c2 = None.
Proof.
  intros evs1 evs2 c1 c2.
  assert (Hs : cam_settled c1 = true) by reflexivity.
  assert (Hne : capturedImages (state (cam_page c1)) <> [])
    by (vm_compute; discriminate).
  split; [exact Hs|]. split; [exact Hne|]. split; [reflexivity|].
  exact (preview_lost_after_batch sampleDataURL steadyRefs evs1 evs2 Hs Hne).
Defined.

Lemma single_countdown_never_zero_witness :
  let evs := [SinglePhoto.SelectTimer Timer3; SinglePhoto.ClickCapture;
              SinglePhoto.IntervalTick 0] in
  let w := SinglePhoto.exec sampleDataURL steadyRefs evs
             SinglePhoto.initialPage in
  SinglePhoto.countdown w <> None
  /\ SinglePhoto.shown w = false
  /\ SinglePhoto.enabled w SinglePhoto.ClickCapture = false.
Proof.
  intros evs w.
  assert (Hc : SinglePhoto.countdown w <> None)
    by (vm_compute; discriminate).
  destruct (single_countdown_never_zero sampleDataURL steadyRefs evs)
    as (_ & _ & _ & H).
  destruct (H Hc) as (Hshown & Hcap & _).
  split; [exact Hc|]. split; [exact Hshown|exact Hcap].
Defined.

Lemma single_photo_after_countdown_witness :
  let w := SinglePhoto.exec sampleDataURL steadyRefs
             [SinglePhoto.SelectFilter FilterSepia;
              SinglePhoto.SelectTimer Timer3] SinglePhoto.initialPage in
  let tick := SinglePhoto.IntervalTick 0 in
  let w1 := SinglePhoto.exec sampleDataURL steadyRefs
              (SinglePhoto.ClickCapture :: repeat tick 2) w in
  let w2 := SinglePhoto.exec sampleDataURL steadyRefs
              (SinglePhoto.ClickCapture :: repeat tick 3) w in
  SinglePhoto.Inv w
  /\ SinglePhoto.enabled w SinglePhoto.ClickCapture = true
  /\ timerOn (SinglePhoto.timer w) = true
  /\ parseInt (timerValue (SinglePhoto.timer w)) = Num 3
  /\ Z.of_nat 2 < 3
  /\ SinglePhoto.countdown w1 = Some (Num 1)
  /\ SinglePhoto.countdown w2 = None
  /\ SinglePhoto.shots w2 = 1%nat.
Proof.
  intros w tick w1 w2.
  assert (HI : SinglePhoto.Inv w) by reflexivity.
  assert (Hen : SinglePhoto.enabled w SinglePhoto.ClickCapture = true)
    by reflexivity.
  assert (Hon : timerOn (SinglePhoto.timer w) = true) by reflexivity.
  assert (Hs : parseInt (timerValue (SinglePhoto.timer w)) = Num 3)
    by reflexivity.
  assert (Hk : Z.of_nat 2 < 3) by (cbn; lia).
  pose proof (single_photo_after_countdown sampleDataURL steadyRefs w 3 2
                HI Hen Hon Hs Hk) as H.
  cbv zeta in H. destruct H as (H1 & _ & _ & _ & H2 & _ & H3 & _).
  repeat match goal with |- _ /\ _ => split end; assumption.
Defined.
